(** * Content-block translation of the OpenAI service

    A shallow embedding of [OpenAIService], first of its two private methods
    that translate between the conversation of the agent and the items
    of the Responses API: [formatMessagesForOpenAI] (outbound) and
    [formatOpenAIResponse] (inbound).

    - [JSON]: the values, [JSON.stringify] (compact and indented) and
      [JSON.parse] that the two methods call.
    - The conversation model (blocks, messages) and the wire items.
    - The two methods: the outbound one is a function, its local array
      threaded through the loops; the inbound one runs on the service
      object, since it logs and may throw.
    - The rest of the service: the model list ([OPENAI_MODELS],
      [getAvailableModels] with its cache, [formatModelTitle],
      [getContextWindow]) and [generateMessage], given what they read
      from outside (the clock, the key, the answers of the endpoints);
      and the place where [overlayeCursorOnScreenshot] puts the cursor.
    - The facts: [JSON.parse] inverts [JSON.stringify]; the loops are
      concatenations; then one theorem per property of the translation,
      and the further properties of the translation, of the model list,
      of [generateMessage] and of the place of the cursor. *)

From Stdlib Require Import String Ascii List ZArith NArith Lia Bool.
From Stdlib Require Import Decimal DecimalFacts DecimalN DecimalString.
From Stdlib Require Import Permutation Sorted.
From Stdlib Require QArith Qround.
Import ListNotations.
Local Open Scope list_scope.
Local Open Scope string_scope.
Local Set Warnings "-register-all".

(** ** JSON values and the [JSON] built-in *)

Module JSON.

(** *** Values *)

(** A decimal digit other than zero. *)
Inductive digit19 : Type := d1 | d2 | d3 | d4 | d5 | d6 | d7 | d8 | d9.

Definition digit19_char (d : digit19) : ascii :=
  match d with
  | d1 => "1" | d2 => "2" | d3 => "3" | d4 => "4" | d5 => "5"
  | d6 => "6" | d7 => "7" | d8 => "8" | d9 => "9"
  end%char.

Definition digit19_of_char (c : ascii) : option digit19 :=
  match c with
  | "1" => Some d1 | "2" => Some d2 | "3" => Some d3 | "4" => Some d4
  | "5" => Some d5 | "6" => Some d6 | "7" => Some d7 | "8" => Some d8
  | "9" => Some d9 | _ => None
  end%char.

(** A number: zero, or a decimal [(10 * leading + last) * 10 ^ exponent]
    with its sign.  The last digit of the mantissa is not zero, so that
    every number has one representation. *)
Inductive number : Type :=
| Zero
| Number (negative : bool) (leading : N) (last : digit19) (exponent : Z).

(** A JSON value.  Numbers are decimal numbers of any size and
    precision; strings are byte strings; an object is its list of
    members in insertion order, which is the order [JSON.stringify]
    prints. *)
Inductive value : Type :=
| JNull
| JBool (b : bool)
| JNumber (n : number)
| JString (s : string)
| JArray (elements : list value)
| JObject (members : list (string * value)).

(** *** [JSON.stringify] *)

Definition dquote : ascii := "034"%char.
Definition backslash : ascii := "092"%char.
Definition newline : ascii := "010"%char.

Definition str (c : ascii) : string := String c EmptyString.

(** One hexadecimal digit, lower case, as [JSON.stringify] prints it. *)
Definition hex_digit (n : N) : ascii :=
  match n with
  | 0 => "0" | 1 => "1" | 2 => "2" | 3 => "3" | 4 => "4" | 5 => "5"
  | 6 => "6" | 7 => "7" | 8 => "8" | 9 => "9" | 10 => "a" | 11 => "b"
  | 12 => "c" | 13 => "d" | 14 => "e" | _ => "f"
  end%N%char.

(** QuoteJSONString, one code unit: the two-character escapes, [\u00xx]
    for the other control characters, the character itself otherwise. *)
Definition escape_char (c : ascii) : string :=
  let n := N_of_ascii c in
  if (n =? 34)%N then String backslash (str dquote)
  else if (n =? 92)%N then String backslash (str backslash)
  else if (n =? 8)%N then String backslash "b"
  else if (n =? 12)%N then String backslash "f"
  else if (n =? 10)%N then String backslash "n"
  else if (n =? 13)%N then String backslash "r"
  else if (n =? 9)%N then String backslash "t"
  else if (n <? 32)%N then
    String backslash
      (String "u" (String "0" (String "0"
         (String (hex_digit (n / 16)) (str (hex_digit (n mod 16)))))))
  else str c.

Fixpoint escape (s : string) : string :=
  match s with
  | EmptyString => EmptyString
  | String c s' => escape_char c ++ escape s'
  end.

Definition quote (s : string) : string :=
  String dquote (escape s ++ str dquote).

Definition is_digit (c : ascii) : bool :=
  let n := N_of_ascii c in ((48 <=? n) && (n <=? 57))%N.

(** [n] zeros; the first [n] characters of a string; the string without
    them. *)
Fixpoint zeros (n : nat) : string :=
  match n with
  | O => EmptyString
  | S n' => String "0" (zeros n')
  end.

Fixpoint take (n : nat) (s : string) : string :=
  match n, s with
  | S n', String c s' => String c (take n' s')
  | _, _ => EmptyString
  end.

Fixpoint drop (n : nat) (s : string) : string :=
  match n, s with
  | S n', String c s' => drop n' s'
  | _, _ => s
  end.

(** The decimal digits of a natural number. *)
Definition N_digits (n : N) : string := NilEmpty.string_of_uint (N.to_uint n).

(** The digits of the mantissa, most significant first. *)
Definition mantissa_digits (leading : N) (last : digit19) : string :=
  (if (leading =? 0)%N then EmptyString else N_digits leading)
    ++ str (digit19_char last).

(** Number::toString, radix ten, for a positive number with the [k]
    digits [ds] and the value [0.ds * 10 ^ n]: the digits and zeros after
    them for an integer below [10 ^ 21]; the digits with a point inside
    when [0 < n <= 21]; a zero, a point, zeros and the digits when
    [-6 < n <= 0]; otherwise the first digit, the others after a point
    if there are any, and the exponent [n - 1] with its sign. *)
Definition positive_to_string (leading : N) (last : digit19) (exponent : Z)
  : string :=
  let ds := mantissa_digits leading last in
  let k := Z.of_nat (String.length ds) in
  let n := (k + exponent)%Z in
  if ((0 <=? exponent) && (n <=? 21))%Z then
    ds ++ zeros (Z.to_nat exponent)
  else if ((0 <? n) && (n <=? 21))%Z then
    take (Z.to_nat n) ds ++ String "." (drop (Z.to_nat n) ds)
  else if ((-6 <? n) && (n <=? 0))%Z then
    String "0" (String "." (zeros (Z.to_nat (- n)) ++ ds))
  else
    take 1 ds
      ++ match drop 1 ds with
         | EmptyString => EmptyString
         | fraction => String "." fraction
         end
      ++ String "e"
           (String (if (n - 1 <? 0)%Z then "-" else "+")
              (N_digits (Z.to_N (Z.abs (n - 1))))).

(** Number::toString: zero prints as [0], whatever its sign was. *)
Definition number_to_string (x : number) : string :=
  match x with
  | Zero => "0"
  | Number negative leading last exponent =>
      (if negative then "-" else EmptyString)
        ++ positive_to_string leading last exponent
  end.

(** [JSON.stringify(v)]: no white space, members in insertion order. *)
Fixpoint stringify (v : value) : string :=
  match v with
  | JNull => "null"
  | JBool true => "true"
  | JBool false => "false"
  | JNumber n => number_to_string n
  | JString s => quote s
  | JArray l => "[" ++ String.concat "," (map stringify l) ++ "]"
  | JObject l =>
      "{" ++ String.concat ","
               (map (fun kv => quote (fst kv) ++ ":" ++ stringify (snd kv)) l)
          ++ "}"
  end.

(** [JSON.stringify(v, null, 2)]: every element and member on a line of
    its own, indented by two more spaces; the empty array and the empty
    object stay on one line. *)
Fixpoint stringify_indent (indent : string) (v : value) : string :=
  let inner := indent ++ "  " in
  let sep := String "," (String newline inner) in
  match v with
  | JArray [] => "[]"
  | JArray l =>
      "[" ++ String newline inner
          ++ String.concat sep (map (stringify_indent inner) l)
          ++ String newline indent ++ "]"
  | JObject [] => "{}"
  | JObject l =>
      "{" ++ String newline inner
          ++ String.concat sep
               (map (fun kv => quote (fst kv) ++ ": "
                                 ++ stringify_indent inner (snd kv)) l)
          ++ String newline indent ++ "}"
  | _ => stringify v
  end.

Definition stringify_pretty (v : value) : string :=
  stringify_indent EmptyString v.

(** *** [JSON.parse] *)

Definition is_ws (c : ascii) : bool :=
  let n := N_of_ascii c in
  ((n =? 32) || (n =? 9) || (n =? 10) || (n =? 13))%N.

Fixpoint skip_ws (s : string) : string :=
  match s with
  | String c s' => if is_ws c then skip_ws s' else s
  | EmptyString => s
  end.

(** The longest prefix of decimal digits, and what follows it. *)
Fixpoint read_digits (s : string) : string * string :=
  match s with
  | String c s' =>
      if is_digit c
      then let (ds, r) := read_digits s' in (String c ds, r)
      else (EmptyString, s)
  | EmptyString => (EmptyString, s)
  end.

(** The natural number that a string of digits writes. *)
Definition digits_value (ds : string) : N :=
  match NilEmpty.uint_of_string ds with
  | Some u => N.of_uint u
  | None => 0
  end.

Fixpoint strip_leading_zeros (s : string) : string :=
  match s with
  | String c s' => if Ascii.eqb c "0" then strip_leading_zeros s' else s
  | EmptyString => s
  end.

(** The digits without their trailing zeros, and how many there were. *)
Fixpoint strip_trailing_zeros (s : string) : string * nat :=
  match s with
  | EmptyString => (EmptyString, O)
  | String c s' =>
      let (body, z) := strip_trailing_zeros s' in
      match body with
      | EmptyString =>
          if Ascii.eqb c "0" then (EmptyString, S z) else (str c, z)
      | _ => (String c body, z)
      end
  end.

Fixpoint split_last (s : string) : option (string * ascii) :=
  match s with
  | EmptyString => None
  | String c s' =>
      match split_last s' with
      | None => Some (EmptyString, c)
      | Some (init, l) => Some (String c init, l)
      end
  end.

(** The number with the digits [ds] as mantissa and exponent [e]:
    leading zeros dropped, trailing zeros moved to the exponent. *)
Definition number_of_digits (negative : bool) (ds : string) (e : Z) : number :=
  let (body, z) := strip_trailing_zeros (strip_leading_zeros ds) in
  match split_last body with
  | Some (init, c) =>
      match digit19_of_char c with
      | Some d => Number negative (digits_value init) d (e + Z.of_nat z)
      | None => Zero
      end
  | None => Zero
  end.

(** The integer part: a lone zero, or digits that do not start with a
    zero. *)
Definition parse_int (s : string) : option (string * string) :=
  match s with
  | String c r =>
      if Ascii.eqb c "0" then Some (str c, r)
      else match read_digits s with
           | (EmptyString, _) => None
           | (ds, r') => Some (ds, r')
           end
  | EmptyString => None
  end.

(** The fraction: a point and at least one digit, or nothing. *)
Definition parse_fraction (s : string) : option (string * string) :=
  match s with
  | String c r =>
      if Ascii.eqb c "." then
        match read_digits r with
        | (EmptyString, _) => None
        | (ds, r') => Some (ds, r')
        end
      else Some (EmptyString, s)
  | EmptyString => Some (EmptyString, s)
  end.

Definition parse_exponent_digits (negative : bool) (s : string)
  : option (Z * string) :=
  match read_digits s with
  | (EmptyString, _) => None
  | (ds, r) =>
      let x := Z.of_N (digits_value ds) in
      Some (if negative then (- x)%Z else x, r)
  end.

(** The exponent: [e] or [E], a sign or none, at least one digit; or
    nothing. *)
Definition parse_exponent (s : string) : option (Z * string) :=
  match s with
  | String c r =>
      if Ascii.eqb c "e" || Ascii.eqb c "E" then
        match r with
        | String sign r' =>
            if Ascii.eqb sign "-" then parse_exponent_digits true r'
            else if Ascii.eqb sign "+" then parse_exponent_digits false r'
            else parse_exponent_digits false r
        | EmptyString => None
        end
      else Some (0%Z, s)
  | EmptyString => Some (0%Z, s)
  end.

(** A numeral without its sign: integer part, fraction, exponent. *)
Definition parse_unsigned (negative : bool) (s : string)
  : option (number * string) :=
  match parse_int s with
  | Some (int, s1) =>
      match parse_fraction s1 with
      | Some (fraction, s2) =>
          match parse_exponent s2 with
          | Some (x, s3) =>
              Some (number_of_digits negative (int ++ fraction)
                      (x - Z.of_nat (String.length fraction)), s3)
          | None => None
          end
      | None => None
      end
  | None => None
  end.

Definition parse_number (s : string) : option (number * string) :=
  match s with
  | String c r =>
      if Ascii.eqb c "-" then parse_unsigned true r else parse_unsigned false s
  | EmptyString => None
  end.

(** The number of an integer, and the value that holds it. *)
Definition number_of_Z (n : Z) : number :=
  number_of_digits (n <? 0)%Z (N_digits (Z.to_N (Z.abs n))) 0.

Definition JInt (n : Z) : value := JNumber (number_of_Z n).

(** The value of a hexadecimal digit, either case. *)
Definition hex_value (c : ascii) : option N :=
  let n := N_of_ascii c in
  if ((48 <=? n) && (n <=? 57))%N then Some (n - 48)%N
  else if ((97 <=? n) && (n <=? 102))%N then Some (n - 87)%N
  else if ((65 <=? n) && (n <=? 70))%N then Some (n - 55)%N
  else None.

Definition hex4 (a b c d : ascii) : option N :=
  match hex_value a, hex_value b, hex_value c, hex_value d with
  | Some x, Some y, Some z, Some w =>
      Some (x * 4096 + y * 256 + z * 16 + w)%N
  | _, _, _, _ => None
  end.

Definition byte (n : N) : ascii := ascii_of_N n.

(** The UTF-8 bytes of a code point (a lone surrogate takes the
    three-byte form). *)
Definition utf8 (cp : N) : string :=
  (if cp <? 128 then str (byte cp)
   else if cp <? 2048 then
     String (byte (192 + cp / 64)) (str (byte (128 + cp mod 64)))
   else if cp <? 65536 then
     String (byte (224 + cp / 4096))
       (String (byte (128 + (cp / 64) mod 64))
          (str (byte (128 + cp mod 64))))
   else
     String (byte (240 + cp / 262144))
       (String (byte (128 + (cp / 4096) mod 64))
          (String (byte (128 + (cp / 64) mod 64))
             (str (byte (128 + cp mod 64))))))%N.

(** The two halves of a pair of [\u] escapes that write one code point
    above [0xFFFF]. *)
Definition is_high_surrogate (u : N) : bool :=
  ((55296 <=? u) && (u <=? 56319))%N.

Definition is_low_surrogate (u : N) : bool :=
  ((56320 <=? u) && (u <=? 57343))%N.

(** The character that a two-character escape writes. *)
Definition simple_escape (e : ascii) : option ascii :=
  match e with
  | "034" => Some dquote
  | "\" => Some backslash
  | "/" => Some "/"
  | "b" => Some "008"
  | "f" => Some "012"
  | "n" => Some "010"
  | "r" => Some "013"
  | "t" => Some "009"
  | _ => None
  end%char.

(** [p] in front of the characters that the rest of a literal gave. *)
Definition prepend (p : string) (r : option (string * string))
  : option (string * string) :=
  match r with
  | Some (t, rest) => Some (p ++ t, rest)
  | None => None
  end.

(** The characters of a string literal after its opening quote, up to
    the closing quote.  [pending] is a high surrogate read from the
    escape just before, waiting for its low half. *)
Fixpoint parse_chars (pending : option N) (s : string)
  : option (string * string) :=
  let flush := match pending with Some hi => utf8 hi | None => EmptyString end in
  match s with
  | EmptyString => None
  | String c r =>
      if Ascii.eqb c dquote then Some (flush, r)
      else if Ascii.eqb c backslash then
        match r with
        | String "u" (String h1 (String h2 (String h3 (String h4 r')))) =>
            match hex4 h1 h2 h3 h4 with
            | Some u =>
                match pending with
                | Some hi =>
                    if is_low_surrogate u
                    then prepend
                           (utf8 (65536 + (hi - 55296) * 1024 + (u - 56320))%N)
                           (parse_chars None r')
                    else if is_high_surrogate u
                    then prepend (utf8 hi) (parse_chars (Some u) r')
                    else prepend (utf8 hi ++ utf8 u) (parse_chars None r')
                | None =>
                    if is_high_surrogate u then parse_chars (Some u) r'
                    else prepend (utf8 u) (parse_chars None r')
                end
            | None => None
            end
        | String e r' =>
            match simple_escape e with
            | Some c' => prepend (flush ++ str c') (parse_chars None r')
            | None => None
            end
        | EmptyString => None
        end
      else if (N_of_ascii c <? 32)%N then None
      else prepend (flush ++ str c) (parse_chars None r)
  end.

(** The rest of [s] after the literal [word], if [s] starts with it. *)
Fixpoint expect (word s : string) : option string :=
  match word with
  | EmptyString => Some s
  | String a word' =>
      match s with
      | String b s' => if Ascii.eqb a b then expect word' s' else None
      | EmptyString => None
      end
  end.

(** The rest of [s] after the character [c], if [s] starts with it. *)
Definition closes (c : ascii) (s : string) : option string :=
  match s with
  | String d r => if Ascii.eqb d c then Some r else None
  | EmptyString => None
  end.

(** Recursive descent; [fuel] bounds the number of nested calls.
    [parse_elements] reads the elements of a non-empty array up to its
    closing bracket, [parse_members] the members of a non-empty object
    up to its closing brace. *)
Fixpoint parse_value (fuel : nat) (s : string) : option (value * string) :=
  match fuel with
  | O => None
  | S fuel' =>
      match skip_ws s with
      | EmptyString => None
      | String c r =>
          if Ascii.eqb c "{" then
            match closes "}" (skip_ws r) with
            | Some r' => Some (JObject [], r')
            | None =>
                match parse_members fuel' r with
                | Some (l, r') => Some (JObject l, r')
                | None => None
                end
            end
          else if Ascii.eqb c "[" then
            match closes "]" (skip_ws r) with
            | Some r' => Some (JArray [], r')
            | None =>
                match parse_elements fuel' r with
                | Some (l, r') => Some (JArray l, r')
                | None => None
                end
            end
          else if Ascii.eqb c dquote then
            match parse_chars None r with
            | Some (t, r') => Some (JString t, r')
            | None => None
            end
          else if Ascii.eqb c "t" then
            match expect "rue" r with
            | Some r' => Some (JBool true, r')
            | None => None
            end
          else if Ascii.eqb c "f" then
            match expect "alse" r with
            | Some r' => Some (JBool false, r')
            | None => None
            end
          else if Ascii.eqb c "n" then
            match expect "ull" r with
            | Some r' => Some (JNull, r')
            | None => None
            end
          else
            match parse_number (String c r) with
            | Some (n, r') => Some (JNumber n, r')
            | None => None
            end
      end
  end
with parse_elements (fuel : nat) (s : string) : option (list value * string) :=
  match fuel with
  | O => None
  | S fuel' =>
      match parse_value fuel' s with
      | Some (v, r) =>
          match skip_ws r with
          | EmptyString => None
          | String c r' =>
              if Ascii.eqb c "," then
                match parse_elements fuel' r' with
                | Some (l, r'') => Some (v :: l, r'')
                | None => None
                end
              else if Ascii.eqb c "]" then Some ([v], r')
              else None
          end
      | None => None
      end
  end
with parse_members (fuel : nat) (s : string)
  : option (list (string * value) * string) :=
  match fuel with
  | O => None
  | S fuel' =>
      match skip_ws s with
      | EmptyString => None
      | String q r =>
          if Ascii.eqb q dquote then
            match parse_chars None r with
            | Some (k, r1) =>
                match skip_ws r1 with
                | EmptyString => None
                | String c r2 =>
                    if Ascii.eqb c ":" then
                      match parse_value fuel' r2 with
                      | Some (v, r3) =>
                          match skip_ws r3 with
                          | EmptyString => None
                          | String d r4 =>
                              if Ascii.eqb d "," then
                                match parse_members fuel' r4 with
                                | Some (l, r5) => Some ((k, v) :: l, r5)
                                | None => None
                                end
                              else if Ascii.eqb d "}" then Some ([(k, v)], r4)
                              else None
                          end
                      | None => None
                      end
                    else None
                end
            | None => None
            end
          else None
      end
  end.

(** [JSON.parse(text)]: [None] stands for the [SyntaxError] it throws.
    The fuel is more than any successful descent of the text takes. *)
Definition parse (text : string) : option value :=
  match parse_value (2 * String.length text + 2) text with
  | Some (v, r) =>
      match skip_ws r with
      | EmptyString => Some v
      | _ => None
      end
  | None => None
  end.

End JSON.

Import JSON.

(** ** The conversation model *)

(** Modelled from the spec: the enum [Role] of [@prisma/client], whose
    declaration is generated from the schema of the repository. *)
Inductive Role : Type := USER | ASSISTANT.

(** Modelled from the spec: [MessageContentBlock] of [@bytebot/shared],
    a union discriminated by its [type] field, with the fields that the
    two methods read.  [OtherContentBlock] is a block whose tag is none
    of the six named here (a document, a redacted thinking block, a tag
    added later); it carries the whole object. *)
Inductive MessageContentBlock : Type :=
| TextContentBlock (text : string)
| ToolUseContentBlock (id name : string) (input : JSON.value)
| ToolResultContentBlock (tool_use_id : string)
                         (content : list MessageContentBlock)
| ThinkingContentBlock (thinking signature : string)
| ImageContentBlock (media_type data : string)
| UserActionContentBlock (content : list MessageContentBlock)
| OtherContentBlock (object : list (string * JSON.value)).

(** Modelled from the spec: [Message] of [@prisma/client], the two
    fields that the translation reads. *)
Record Message : Type := { role : Role; content : list MessageContentBlock }.

(** Modelled from the spec: the object behind each block, which
    [JSON.stringify(block)] prints.  The block types are declared in
    [@bytebot/shared]; the layout is the tag under [type], then the
    fields of the variant in the order the data model lists them. *)
Fixpoint block_object (block : MessageContentBlock) : JSON.value :=
  match block with
  | TextContentBlock text =>
      JObject [("type", JString "text"); ("text", JString text)]
  | ToolUseContentBlock id name input =>
      JObject [("type", JString "tool_use"); ("id", JString id);
               ("name", JString name); ("input", input)]
  | ToolResultContentBlock tool_use_id content =>
      JObject [("type", JString "tool_result");
               ("tool_use_id", JString tool_use_id);
               ("content", JArray (map block_object content))]
  | ThinkingContentBlock thinking signature =>
      JObject [("type", JString "thinking"); ("thinking", JString thinking);
               ("signature", JString signature)]
  | ImageContentBlock media_type data =>
      JObject [("type", JString "image");
               ("source", JObject [("media_type", JString media_type);
                                   ("data", JString data)])]
  | UserActionContentBlock content =>
      JObject [("type", JString "user_action");
               ("content", JArray (map block_object content))]
  | OtherContentBlock object => JObject object
  end.

(** Property lookup on an object, and the tag under its [type] key. *)
Fixpoint get (key : string) (object : list (string * JSON.value))
  : option JSON.value :=
  match object with
  | [] => None
  | (k, v) :: rest => if String.eqb k key then Some v else get key rest
  end.

Definition object_type (object : list (string * JSON.value)) : option string :=
  match get "type" object with
  | Some (JString t) => Some t
  | _ => None
  end.

(** The tags of the six variants, as [block_object] writes them: the
    tag of an [OtherContentBlock] is none of them. *)
Definition block_types : list string :=
  ["text"; "tool_use"; "tool_result"; "thinking"; "image"; "user_action"].

Definition is_block_type (t : option string) : bool :=
  match t with
  | Some t => existsb (String.eqb t) block_types
  | None => false
  end.

(** Modelled from the spec: the type guard [isUserActionContentBlock] of
    [@bytebot/shared] holds of the [UserAction] blocks. *)
Definition isUserActionContentBlock (block : MessageContentBlock) : bool :=
  match block with UserActionContentBlock _ => true | _ => false end.

(** Modelled from the spec: the type guard
    [isComputerToolUseContentBlock] of [@bytebot/shared] holds of the
    [ToolUse] children of a user action. *)
Definition isComputerToolUseContentBlock (block : MessageContentBlock) : bool :=
  match block with ToolUseContentBlock _ _ _ => true | _ => false end.

(** Modelled from the spec: the type guard [isImageContentBlock] of
    [@bytebot/shared] holds of the [Image] blocks. *)
Definition isImageContentBlock (block : MessageContentBlock) : bool :=
  match block with ImageContentBlock _ _ => true | _ => false end.

(** [block.content] as [flatMap] reads it off a user action. *)
Definition block_content (block : MessageContentBlock)
  : list MessageContentBlock :=
  match block with
  | UserActionContentBlock content => content
  | ToolResultContentBlock _ content => content
  | _ => []
  end.

(** ** The wire items of the Responses API *)

Inductive WireRole : Type := user | assistant.

(** An entry of a message item's [content]. *)
Inductive ContentPart : Type :=
| input_text (text : string)
| output_text (text : string)
| input_image (detail image_url : string)
| refusal_part (refusal : string).

(** The item tags that [formatOpenAIResponse] reads through the cast to
    [ResponseReasoningItem]. *)
Inductive ReasoningTag : Type :=
| file_search_call | web_search_call | computer_call | reasoning.

(** A wire item, input or output.  [other_item] is an item of any other
    tag and carries the whole object. *)
Inductive WireItem : Type :=
| message (role : WireRole) (content : list ContentPart)
| function_call (call_id name arguments : string)
| function_call_output (call_id output : string)
| reasoning_item (type : ReasoningTag) (id : string)
                 (encrypted_content : option string) (summary : list string)
| other_item (object : list (string * JSON.value)).

Definition reasoning_tag_name (t : ReasoningTag) : string :=
  match t with
  | file_search_call => "file_search_call"
  | web_search_call => "web_search_call"
  | computer_call => "computer_call"
  | reasoning => "reasoning"
  end.

(** [item.type]. *)
Definition item_type (item : WireItem) : option string :=
  match item with
  | message _ _ => Some "message"
  | function_call _ _ _ => Some "function_call"
  | function_call_output _ _ => Some "function_call_output"
  | reasoning_item t _ _ _ => Some (reasoning_tag_name t)
  | other_item object => object_type object
  end.

Definition role_name (r : WireRole) : string :=
  match r with user => "user" | assistant => "assistant" end.

Definition part_object (part : ContentPart) : JSON.value :=
  match part with
  | input_text text =>
      JObject [("type", JString "input_text"); ("text", JString text)]
  | output_text text =>
      JObject [("type", JString "output_text"); ("text", JString text)]
  | input_image detail image_url =>
      JObject [("type", JString "input_image"); ("detail", JString detail);
               ("image_url", JString image_url)]
  | refusal_part refusal =>
      JObject [("type", JString "refusal"); ("refusal", JString refusal)]
  end.

(** The object behind a wire item, which [JSON.stringify(item)] prints;
    the keys of the dedicated items follow the object literals of
    [formatMessagesForOpenAI].  [formatOpenAIResponse] prints only the
    items that reach its fallback. *)
Definition item_object (item : WireItem) : JSON.value :=
  match item with
  | message r content =>
      JObject [("type", JString "message"); ("role", JString (role_name r));
               ("content", JArray (map part_object content))]
  | function_call call_id name arguments =>
      JObject [("type", JString "function_call"); ("call_id", JString call_id);
               ("name", JString name); ("arguments", JString arguments)]
  | function_call_output call_id output =>
      JObject [("type", JString "function_call_output");
               ("call_id", JString call_id); ("output", JString output)]
  | reasoning_item t id encrypted_content summary =>
      JObject ([("type", JString (reasoning_tag_name t)); ("id", JString id)]
               ++ match encrypted_content with
                  | Some e => [("encrypted_content", JString e)]
                  | None => []
                  end
               ++ [("summary", JArray (map JString summary))])%list
  | other_item object => JObject object
  end.

(** ** [formatMessagesForOpenAI] *)

(** [array.push(x)] on the local result array. *)
Definition push {A : Type} (array : list A) (x : A) : list A :=
  (array ++ [x])%list.

(** The data URL of an image: [data:<media_type>;base64,<data>]. *)
Definition image_url_of (media_type data : string) : string :=
  "data:" ++ media_type ++ ";base64," ++ data.

(** Body of the loop over the flattened children of the user actions. *)
Definition userActionStep (openaiMessages : list WireItem)
  (block : MessageContentBlock) : list WireItem :=
  if isComputerToolUseContentBlock block then
    match block with
    | ToolUseContentBlock _ name input =>
        push openaiMessages
          (message user
             [input_text ("User performed action: " ++ name
                            ++ String newline (stringify_pretty input))])
    | _ => openaiMessages
    end
  else if isImageContentBlock block then
    match block with
    | ImageContentBlock media_type data =>
        push openaiMessages
          (message user [input_image "high" (image_url_of media_type data)])
    | _ => openaiMessages
    end
  else openaiMessages.

(** Body of [toolResult.content.forEach]: the two tests are not
    exclusive in the source, the tags are. *)
Definition toolResultStep (tool_use_id : string)
  (openaiMessages : list WireItem) (content : MessageContentBlock)
  : list WireItem :=
  let openaiMessages :=
    match content with
    | TextContentBlock text =>
        push openaiMessages (function_call_output tool_use_id text)
    | _ => openaiMessages
    end in
  match content with
  | ImageContentBlock media_type data =>
      push
        (push openaiMessages (function_call_output tool_use_id "screenshot"))
        (message user [input_image "high" (image_url_of media_type data)])
  | _ => openaiMessages
  end.

(** Body of the loop over the blocks of a message that is not made of
    user actions only: the [switch] on [block.type]. *)
Definition blockStep (message_role : Role) (openaiMessages : list WireItem)
  (block : MessageContentBlock) : list WireItem :=
  match block with
  | TextContentBlock text =>
      match message_role with
      | USER => push openaiMessages (message user [input_text text])
      | _ => push openaiMessages (message assistant [output_text text])
      end
  | ToolUseContentBlock id name input =>
      match message_role with
      | ASSISTANT =>
          push openaiMessages (function_call id name (stringify input))
      | _ => openaiMessages
      end
  | ThinkingContentBlock thinking signature =>
      push openaiMessages (reasoning_item reasoning signature (Some thinking) [])
  | ToolResultContentBlock tool_use_id content =>
      fold_left (toolResultStep tool_use_id) content openaiMessages
  | _ =>
      push openaiMessages
        (message user [input_text (stringify (block_object block))])
  end.

(** Body of the loop over the messages. *)
Definition messageStep (openaiMessages : list WireItem) (m : Message)
  : list WireItem :=
  let messageContentBlocks := content m in
  if forallb isUserActionContentBlock messageContentBlocks then
    let userActionContentBlocks := flat_map block_content messageContentBlocks in
    fold_left userActionStep userActionContentBlocks openaiMessages
  else
    fold_left (blockStep (role m)) messageContentBlocks openaiMessages.

Definition formatMessagesForOpenAI (messages : list Message) : list WireItem :=
  fold_left messageStep messages [].

(** ** The service object and the effects of its methods *)

Record BytebotAgentModel : Type :=
  { provider : string; model_name : string; title : string;
    contextWindow : Z }.

Inductive LogLevel : Type := LOG | WARN | ERROR.

(** The mutable fields of [OpenAIService], and what its [logger] has
    written so far. *)
Record OpenAIService : Type :=
  { cachedModels : option (list BytebotAgentModel);
    modelsCacheTime : Z;
    logger : list (LogLevel * string) }.

(** What [JSON.parse] throws. *)
Inductive Error : Type := SyntaxError (text : string).

Inductive Completion (A : Type) : Type :=
| Return (a : A)
| Throw (e : Error).
Arguments Return {A} a.
Arguments Throw {A} e.

(** A method body: it runs on the service object and completes with a
    value or an exception, leaving the service object behind. *)
Definition Method (A : Type) : Type :=
  OpenAIService -> Completion A * OpenAIService.

Definition ret {A : Type} (a : A) : Method A := fun this => (Return a, this).

Definition throw {A : Type} (e : Error) : Method A :=
  fun this => (Throw e, this).

Definition bind {A B : Type} (c : Method A) (k : A -> Method B) : Method B :=
  fun this =>
    match c this with
    | (Return a, this') => k a this'
    | (Throw e, this') => (Throw e, this')
    end.

Notation "x <- c ;; k" := (bind c (fun x => k))
  (at level 61, c at next level, right associativity).
Notation "c ;;; k" := (bind c (fun _ => k))
  (at level 61, right associativity).

(** [this.logger.warn(text)]. *)
Definition logger_warn (text : string) : Method unit :=
  fun this =>
    (Return tt,
     {| cachedModels := cachedModels this;
        modelsCacheTime := modelsCacheTime this;
        logger := push (logger this) (WARN, text) |}).

(** [JSON.parse(text)] as a call that may throw. *)
Definition JSON_parse (text : string) : Method JSON.value :=
  match JSON.parse text with
  | Some v => ret v
  | None => throw (SyntaxError text)
  end.

(** A [for ... of] loop whose body may throw: the local array is
    threaded through the iterations. *)
Fixpoint forOf {A B : Type} (body : B -> A -> Method B) (l : list A) (acc : B)
  : Method B :=
  match l with
  | [] => ret acc
  | x :: l' => acc' <- body acc x ;; forOf body l' acc'
  end.

(** ** [formatOpenAIResponse] *)

(** A value of type [string | null | undefined] in a condition. *)
Definition truthy (s : option string) : bool :=
  match s with
  | Some EmptyString => false
  | Some _ => true
  | None => false
  end.

(** The item tags of the second group of [case] labels. *)
Definition unsupported_types : list string :=
  ["image_generation_call"; "code_interpreter_call"; "local_shell_call";
   "mcp_call"; "mcp_list_tools"; "mcp_approval_request"].

Definition is_unsupported (t : option string) : bool :=
  match t with
  | Some t => existsb (String.eqb t) unsupported_types
  | None => false
  end.

(** Body of the loop over [message.content]: the tests ['text' in
    content] and ['refusal' in content]. *)
Definition contentStep (contentBlocks : list MessageContentBlock)
  (part : ContentPart) : list MessageContentBlock :=
  match part with
  | input_text text | output_text text =>
      push contentBlocks (TextContentBlock text)
  | refusal_part refusal =>
      push contentBlocks (TextContentBlock ("Refusal: " ++ refusal))
  | input_image _ _ => contentBlocks
  end.

(** Body of the loop over the response items: the [switch] on
    [item.type]. *)
Definition itemStep (contentBlocks : list MessageContentBlock)
  (item : WireItem) : Method (list MessageContentBlock) :=
  match item with
  | message _ parts => ret (fold_left contentStep parts contentBlocks)
  | function_call call_id name arguments =>
      input <- JSON_parse arguments ;;
      ret (push contentBlocks (ToolUseContentBlock call_id name input))
  | reasoning_item _ id encrypted_content _ =>
      if truthy encrypted_content then
        match encrypted_content with
        | Some thinking =>
            ret (push contentBlocks (ThinkingContentBlock thinking id))
        | None => ret contentBlocks
        end
      else ret contentBlocks
  | _ =>
      if is_unsupported (item_type item) then
        logger_warn ("Unsupported response output item type: "
                       ++ match item_type item with
                          | Some t => t
                          | None => "undefined"
                          end) ;;;
        ret (push contentBlocks
               (TextContentBlock (stringify (item_object item))))
      else
        logger_warn ("Unknown response output item type: "
                       ++ stringify (item_object item)) ;;;
        ret (push contentBlocks
               (TextContentBlock (stringify (item_object item))))
  end.

Definition formatOpenAIResponse (response : list WireItem)
  : Method (list MessageContentBlock) :=
  forOf itemStep response [].

(** ** The model list: [OPENAI_MODELS], [getAvailableModels] *)

Definition OPENAI_MODELS : list BytebotAgentModel :=
  [{| provider := "openai"; model_name := "gpt-4o"; title := "GPT-4o";
      contextWindow := 128000 |};
   {| provider := "openai"; model_name := "gpt-4o-mini";
      title := "GPT-4o Mini"; contextWindow := 128000 |};
   {| provider := "openai"; model_name := "gpt-4-turbo";
      title := "GPT-4 Turbo"; contextWindow := 128000 |};
   {| provider := "openai"; model_name := "gpt-4"; title := "GPT-4";
      contextWindow := 8192 |}].

(** [OPENAI_MODELS[0]]. *)
Definition DEFAULT_MODEL : BytebotAgentModel :=
  nth 0 OPENAI_MODELS
    {| provider := EmptyString; model_name := EmptyString;
       title := EmptyString; contextWindow := 0 |}.

Definition CACHE_DURATION : Z := 3600000.

(** [s.startsWith(prefix)] and [s.includes(needle)]. *)
Fixpoint startsWith (s prefix : string) {struct prefix} : bool :=
  match prefix with
  | EmptyString => true
  | String a prefix' =>
      match s with
      | String b s' => Ascii.eqb a b && startsWith s' prefix'
      | EmptyString => false
      end
  end.

Fixpoint includes (s needle : string) : bool :=
  startsWith s needle
  || match s with
     | String _ s' => includes s' needle
     | EmptyString => false
     end.

(** [s.split(sep)] for a separator of one character: the pieces between
    the separators, one piece for a string without separator. *)
Fixpoint split (sep : ascii) (s : string) : list string :=
  match s with
  | EmptyString => [EmptyString]
  | String c s' =>
      if Ascii.eqb c sep then EmptyString :: split sep s'
      else
        match split sep s' with
        | piece :: pieces => String c piece :: pieces
        | [] => [String c EmptyString]
        end
  end.

(** [s.replace(/-/g, ' ')]. *)
Fixpoint replace_hyphens (s : string) : string :=
  match s with
  | EmptyString => EmptyString
  | String c s' =>
      String (if Ascii.eqb c "-" then " "%char else c) (replace_hyphens s')
  end.

(** [toUpperCase] on one character of a model id; the ids are ASCII,
    and a character that is not a small letter is its own upper case. *)
Definition toUpperCase (c : ascii) : ascii :=
  let n := nat_of_ascii c in
  if (97 <=? n)%nat && (n <=? 122)%nat then ascii_of_nat (n - 32) else c.

(** The function mapped over the parts of a model id. *)
Definition titlePart (part : string) : string :=
  if String.eqb part "gpt" then "GPT"
  else
    match part with
    | EmptyString => EmptyString
    | String c rest => if is_digit c then part else String (toUpperCase c) rest
    end.

Definition formatModelTitle (modelId : string) : string :=
  replace_hyphens (String.concat "-" (map titlePart (split "-" modelId))).

Definition getContextWindow (modelId : string) : Z :=
  if includes modelId "gpt-4o" then 128000
  else if includes modelId "gpt-4-turbo" then 128000
  else if includes modelId "gpt-4" then 8192
  else if includes modelId "o1" then 128000
  else if includes modelId "o3" then 200000
  else if includes modelId "gpt-3.5" then 16385
  else 4096.

(** The comparator of the sort and its local function [priority]. *)
Definition priority (name : string) : Z :=
  if includes name "gpt-4o" then 0
  else if includes name "gpt-4.1" then 1
  else if includes name "gpt-4" then 2
  else if includes name "gpt-5" then 3
  else 4.

Definition by_priority (a b : BytebotAgentModel) : Z :=
  priority (model_name a) - priority (model_name b).

(** [array.sort(compare)]: the sort of the language is stable, an
    element goes before the first one that it does not come after. *)
Fixpoint sort_insert {A : Type} (compare : A -> A -> Z) (x : A)
  (sorted : list A) : list A :=
  match sorted with
  | [] => [x]
  | y :: rest =>
      if (compare x y <=? 0)%Z then x :: sorted
      else y :: sort_insert compare x rest
  end.

Definition sort {A : Type} (compare : A -> A -> Z) (array : list A) : list A :=
  fold_right (sort_insert compare) [] array.

(** The test of the [filter] and the function of the [map]. *)
Definition suitable (id : string) : bool :=
  startsWith id "gpt-" && negb (startsWith id "gpt-3.5")
  && negb (includes id "instruct").

Definition model_of (id : string) : BytebotAgentModel :=
  {| provider := "openai"; model_name := id; title := formatModelTitle id;
     contextWindow := getContextWindow id |}.

(** [availableModels]: the ids of the list filtered, mapped and sorted. *)
Definition availableModels_of (ids : list string) : list BytebotAgentModel :=
  sort by_priority (map model_of (filter suitable ids)).

(** What [await this.openai.models.list()] comes to: the ids of
    [modelsList.data], or an exception with the text of its [message]. *)
Inductive ModelsList : Type :=
| models_listed (ids : list string)
| models_failed (error_text : string).

(** [this.logger.log(text)] and [this.logger.error(text)]. *)
Definition logger_log (text : string) : Method unit :=
  fun this =>
    (Return tt,
     {| cachedModels := cachedModels this;
        modelsCacheTime := modelsCacheTime this;
        logger := push (logger this) (LOG, text) |}).

Definition logger_error (text : string) : Method unit :=
  fun this =>
    (Return tt,
     {| cachedModels := cachedModels this;
        modelsCacheTime := modelsCacheTime this;
        logger := push (logger this) (ERROR, text) |}).

(** The two assignments [this.cachedModels = availableModels] and
    [this.modelsCacheTime = now]. *)
Definition set_cache (availableModels : list BytebotAgentModel) (now : Z)
  : Method unit :=
  fun this =>
    (Return tt,
     {| cachedModels := Some availableModels;
        modelsCacheTime := now;
        logger := logger this |}).

(** The [try] block of [getAvailableModels] with its [catch]: the
    exception of the models endpoint is the only one of the block. *)
Definition fetchModels (now : Z) (apiKey : option string)
  (modelsList : ModelsList) : Method (list BytebotAgentModel) :=
  if negb (truthy apiKey) then
    logger_warn "OPENAI_API_KEY not set, returning hardcoded models" ;;;
    ret OPENAI_MODELS
  else
    match modelsList with
    | models_listed ids =>
        let availableModels := availableModels_of ids in
        if (0 <? length availableModels)%nat then
          set_cache availableModels now ;;;
          logger_log
            ("Fetched " ++ N_digits (N.of_nat (length availableModels))
               ++ " models from OpenAI API") ;;;
          ret availableModels
        else
          logger_warn
            "No suitable models found from OpenAI API, using hardcoded list" ;;;
          ret OPENAI_MODELS
    | models_failed error_text =>
        logger_error ("Failed to fetch models from OpenAI: " ++ error_text) ;;;
        ret OPENAI_MODELS
    end.

(** [getAvailableModels], given what it reads from outside: the clock
    [Date.now()], the configured key, and what the models endpoint
    answers (it is consulted only when the cache is not served and the
    key is set). *)
Definition getAvailableModels (now : Z) (apiKey : option string)
  (modelsList : ModelsList) : Method (list BytebotAgentModel) :=
  fun this =>
    match cachedModels this with
    | Some cached =>
        if (now - modelsCacheTime this <? CACHE_DURATION)%Z then
          ret cached this
        else fetchModels now apiKey modelsList this
    | None => fetchModels now apiKey modelsList this
    end.

(** ** [generateMessage] *)

Record TokenUsage : Type :=
  { inputTokens : Z; outputTokens : Z; totalTokens : Z }.

Record BytebotAgentResponse : Type :=
  { contentBlocks : list MessageContentBlock; tokenUsage : TokenUsage }.

(** The response of the Responses API, the fields that are read. *)
Record ResponseUsage : Type :=
  { input_tokens : Z; output_tokens : Z; total_tokens : Z }.

Record Response : Type :=
  { output : list WireItem; usage : option ResponseUsage }.

(** The body of the request. *)
Module ResponseCreateParams.
Record Reasoning : Type := { effort : string }.
Record t (Tool : Type) : Type :=
  { model : string;
    max_output_tokens : Z;
    input : list WireItem;
    instructions : string;
    tools : list Tool;
    reasoning : option Reasoning;
    store : bool;
    include : list string }.
Arguments model {Tool} _.
Arguments max_output_tokens {Tool} _.
Arguments input {Tool} _.
Arguments instructions {Tool} _.
Arguments tools {Tool} _.
Arguments reasoning {Tool} _.
Arguments store {Tool} _.
Arguments include {Tool} _.
End ResponseCreateParams.

(** The fields of an exception of the client that the handler reads. *)
Record ErrorObject : Type :=
  { error_name : string; error_message : string; error_stack : string }.

(** What [await this.openai.responses.create(...)] comes to: a
    response, an [APIUserAbortError], or another exception. *)
Inductive CreateResult : Type :=
| created (response : Response)
| aborted (error : ErrorObject)
| failed (error : ErrorObject).

(** What the [catch] of [generateMessage] receives: an exception of the
    client, or the one of [JSON.parse] out of [formatOpenAIResponse]. *)
Inductive Caught : Type :=
| caught_abort (error : ErrorObject)
| caught_failure (error : ErrorObject)
| caught_syntax (error : Error).

(** What [generateMessage] throws. *)
Inductive Thrown : Type :=
| BytebotAgentInterrupt
| rethrown (error : Caught).

Inductive Outcome (A : Type) : Type :=
| Returned (a : A)
| Raised (e : Thrown).
Arguments Returned {A} a.
Arguments Raised {A} e.

(** The arguments of one call of [console.log]. *)
Inductive ConsoleValue : Type :=
| console_string (s : string)
| console_error (error : Caught).

(** [x || 0] on a count that may be missing. *)
Definition or_zero (x : option Z) : Z :=
  match x with
  | Some n => n
  | None => 0
  end.

Section GenerateMessage.
Context {Tool AbortSignal : Type}.

(** [openaiTools] of [./openai.tools]. *)
Variable openaiTools : list Tool.

(** The [message] and the [stack] of the syntax error that [JSON.parse]
    throws on a text: the engine words them. *)
Variable syntax_message syntax_stack : string -> string.

(** The endpoint: what a request with its options comes to. *)
Variable create :
  ResponseCreateParams.t Tool -> option AbortSignal -> CreateResult.

Definition name_of (error : Caught) : string :=
  match error with
  | caught_abort e | caught_failure e => error_name e
  | caught_syntax _ => "SyntaxError"
  end.

Definition message_of (error : Caught) : string :=
  match error with
  | caught_abort e | caught_failure e => error_message e
  | caught_syntax (SyntaxError text) => syntax_message text
  end.

Definition stack_of (error : Caught) : string :=
  match error with
  | caught_abort e | caught_failure e => error_stack e
  | caught_syntax (SyntaxError text) => syntax_stack text
  end.

(** The request that [generateMessage] sends; [model] and [useTools]
    have their default when they are not given. *)
Definition request (systemPrompt : string) (messages : list Message)
  (model : option string) (useTools : option bool)
  : ResponseCreateParams.t Tool :=
  let model :=
    match model with Some m => m | None => model_name DEFAULT_MODEL end in
  let useTools := match useTools with Some b => b | None => true end in
  let isReasoning := startsWith model "o" in
  let openaiMessages := formatMessagesForOpenAI messages in
  let maxTokens := 8192%Z in
  {| ResponseCreateParams.model := model;
     ResponseCreateParams.max_output_tokens := maxTokens;
     ResponseCreateParams.input := openaiMessages;
     ResponseCreateParams.instructions := systemPrompt;
     ResponseCreateParams.tools := if useTools then openaiTools else [];
     ResponseCreateParams.reasoning :=
       if isReasoning
       then Some {| ResponseCreateParams.effort := "medium" |}
       else None;
     ResponseCreateParams.store := false;
     ResponseCreateParams.include :=
       if isReasoning then ["reasoning.encrypted_content"] else [] |}.

(** The [catch] block: two lines on the console, then the interrupt
    for an abort, or one error line with the stack and the exception
    thrown again.  [logger.error(message, stack)] writes the message,
    then the stack, both as errors. *)
Definition handler (error : Caught) (this : OpenAIService)
  (console : list (list ConsoleValue))
  : Outcome BytebotAgentResponse * OpenAIService * list (list ConsoleValue) :=
  let console := push console [console_string "error"; console_error error] in
  let console :=
    push console
      [console_string "error name"; console_string (name_of error)] in
  match error with
  | caught_abort _ =>
      (Raised BytebotAgentInterrupt,
       snd (logger_log "OpenAI API call aborted" this), console)
  | _ =>
      (Raised (rethrown error),
       snd ((logger_error
               ("Error sending message to OpenAI: " ++ message_of error) ;;;
             logger_error (stack_of error)) this),
       console)
  end.

Definition generateMessage (systemPrompt : string) (messages : list Message)
  (model : option string) (useTools : option bool)
  (signal : option AbortSignal) (this : OpenAIService)
  (console : list (list ConsoleValue))
  : Outcome BytebotAgentResponse * OpenAIService * list (list ConsoleValue) :=
  match create (request systemPrompt messages model useTools) signal with
  | created response =>
      match formatOpenAIResponse (output response) this with
      | (Return blocks, this') =>
          (Returned
             {| contentBlocks := blocks;
                tokenUsage :=
                  {| inputTokens :=
                       or_zero (option_map input_tokens (usage response));
                     outputTokens :=
                       or_zero (option_map output_tokens (usage response));
                     totalTokens :=
                       or_zero (option_map total_tokens (usage response))
                  |} |},
           this', console)
      | (Throw e, this') => handler (caught_syntax e) this' console
      end
  | aborted error => handler (caught_abort error) this console
  | failed error => handler (caught_failure error) this console
  end.

End GenerateMessage.

(** ** [overlayeCursorOnScreenshot]: where the cursor is put *)

(** The numbers of the language: a number that is not one, the two
    infinities, and the finite numbers, each the rational it stands
    for ([Math.min], [Math.max] and [Math.round] are exact). *)
Inductive JSNumber : Type :=
| NaN
| Infinity
| NegativeInfinity
| Finite (q : QArith_base.Q).

Definition Math_min (a b : JSNumber) : JSNumber :=
  match a, b with
  | NaN, _ | _, NaN => NaN
  | NegativeInfinity, _ | _, NegativeInfinity => NegativeInfinity
  | Infinity, x | x, Infinity => x
  | Finite p, Finite q => Finite (if QArith_base.Qle_bool p q then p else q)
  end.

Definition Math_max (a b : JSNumber) : JSNumber :=
  match a, b with
  | NaN, _ | _, NaN => NaN
  | Infinity, _ | _, Infinity => Infinity
  | NegativeInfinity, x | x, NegativeInfinity => x
  | Finite p, Finite q => Finite (if QArith_base.Qle_bool p q then q else p)
  end.

(** [Math.round]: the nearest integer, a half rounded up. *)
Definition Math_round (x : JSNumber) : JSNumber :=
  match x with
  | Finite q =>
      Finite
        (QArith_base.inject_Z
           (Qround.Qfloor
              (QArith_base.Qplus q (QArith_base.Qmake 1 2))))
  | _ => x
  end.

(** [dimension || fallback] on a dimension of the metadata, which may
    be missing. *)
Definition dimension_or (dimension : option N) (fallback : Z) : Z :=
  match dimension with
  | Some 0%N | None => fallback
  | Some n => Z.of_N n
  end.

(** The [left] and [top] that [overlayeCursorOnScreenshot] gives to the
    overlay, from the width and height of the metadata of the
    screenshot and the position of the cursor; the images themselves
    are the work of [sharp]. *)
Definition overlayPosition (metadata_width metadata_height : option N)
  (cursorX cursorY : JSNumber) : JSNumber * JSNumber :=
  let width := dimension_or metadata_width 1920 in
  let height := dimension_or metadata_height 1080 in
  let safeX :=
    Math_max (Finite (QArith_base.inject_Z 0))
      (Math_min cursorX (Finite (QArith_base.inject_Z (width - 1)))) in
  let safeY :=
    Math_max (Finite (QArith_base.inject_Z 0))
      (Math_min cursorY (Finite (QArith_base.inject_Z (height - 1)))) in
  (Math_round safeX, Math_round safeY).

(** ** Notions used in the statements *)

Module JSONText.

Import JSON.

(** Nodes of a value, each list entry counted once more: the fuel that
    parsing its text takes. *)
Fixpoint size (v : JSON.value) : nat :=
  match v with
  | JArray l => S (list_sum (map (fun x => S (size x)) l))
  | JObject l => S (list_sum (map (fun kv => S (size (snd kv))) l))
  | _ => 1
  end.

(** What may follow a value inside a text: nothing, a comma, or a
    closing bracket or brace. *)
Definition delimited (s : string) : bool :=
  match s with
  | EmptyString => true
  | String c _ => Ascii.eqb c "," || Ascii.eqb c "]" || Ascii.eqb c "}"
  end.

(** A first character at which [parse_value] reads a value without
    skipping anything, and which closes no array. *)
Definition starts_value (s : string) : bool :=
  match s with
  | EmptyString => false
  | String c _ => negb (is_ws c) && negb (Ascii.eqb c "]")
  end.

(** A string of decimal digits; a string that does not go on with one. *)
Fixpoint all_digits (s : string) : bool :=
  match s with
  | EmptyString => true
  | String c s' => is_digit c && all_digits s'
  end.

Definition no_digit (s : string) : bool :=
  match s with
  | EmptyString => true
  | String c _ => negb (is_digit c)
  end.

(** A string that starts with a digit other than zero, as a mantissa
    and a printed natural number other than zero do. *)
Definition starts_nonzero (s : string) : bool :=
  match s with
  | EmptyString => false
  | String c _ => is_digit c && negb (Ascii.eqb c "0")
  end.

(** A string that does not go on with a fraction, or an exponent. *)
Definition no_fraction (s : string) : bool :=
  match s with
  | EmptyString => true
  | String c _ => negb (Ascii.eqb c ".")
  end.

Definition no_exponent (s : string) : bool :=
  match s with
  | EmptyString => true
  | String c _ => negb (Ascii.eqb c "e" || Ascii.eqb c "E")
  end.

(** The first character of a printed number. *)
Definition starts_number (s : string) : bool :=
  match s with
  | EmptyString => false
  | String c _ => Ascii.eqb c "-" || is_digit c
  end.

(** The fuel that parsing the elements of an array, or the members of
    an object, takes. *)
Definition elements_size (l : list JSON.value) : nat :=
  list_sum (map (fun x => S (size x)) l).

Definition members_size (l : list (string * JSON.value)) : nat :=
  list_sum (map (fun kv => S (size (snd kv))) l).

(** A successful run of a parser needs no more fuel than the size of
    its result, and its result is no larger than the text it read. *)
Definition value_fuel (fuel : nat) : Prop :=
  forall s v r,
    parse_value fuel s = Some (v, r) ->
    size v + String.length r <= String.length s
    /\ forall fuel', size v <= fuel' -> parse_value fuel' s = Some (v, r).

Definition elements_fuel (fuel : nat) : Prop :=
  forall s l r,
    parse_elements fuel s = Some (l, r) ->
    elements_size l + String.length r <= String.length s
    /\ 1 <= elements_size l
    /\ forall fuel',
        elements_size l <= fuel' -> parse_elements fuel' s = Some (l, r).

Definition members_fuel (fuel : nat) : Prop :=
  forall s l r,
    parse_members fuel s = Some (l, r) ->
    members_size l + String.length r <= String.length s
    /\ 1 <= members_size l
    /\ forall fuel',
        members_size l <= fuel' -> parse_members fuel' s = Some (l, r).

(** The text of one member of an object. *)
Definition member_text (kv : string * JSON.value) : string :=
  quote (fst kv) ++ ":" ++ stringify (snd kv).

(** Parsing the text of [v], followed by anything that may follow a
    value, gives [v] back and stops there. *)
Definition round_trips (v : JSON.value) : Prop :=
  forall fuel rest,
    size v <= fuel -> delimited rest = true ->
    parse_value fuel (stringify v ++ rest) = Some (v, rest).

End JSONText.

(** What the loops of [formatMessagesForOpenAI] push for the entries of
    a tool result and for the blocks of a message on the [switch] path,
    from the empty array. *)
Definition toolResultItems (tool_use_id : string)
  (contents : list MessageContentBlock) : list WireItem :=
  fold_left (toolResultStep tool_use_id) contents [].

Definition blockItems (r : Role) (blocks : list MessageContentBlock)
  : list WireItem :=
  fold_left (blockStep r) blocks [].

Definition is_function_call (item : WireItem) : bool :=
  match item with function_call _ _ _ => true | _ => false end.

(** A conversation with one block singled out, and the translation
    with the items of that block singled out. *)
Definition conversation (before : list Message) (r : Role)
  (bs1 : list MessageContentBlock) (block : MessageContentBlock)
  (bs2 : list MessageContentBlock) (after : list Message) : list Message :=
  (before ++ {| role := r; content := bs1 ++ block :: bs2 |} :: after)%list.

Definition around (before : list Message) (r : Role)
  (bs1 : list MessageContentBlock) (items : list WireItem)
  (bs2 : list MessageContentBlock) (after : list Message) : list WireItem :=
  (formatMessagesForOpenAI before
     ++ blockItems r bs1 ++ items ++ blockItems r bs2
     ++ formatMessagesForOpenAI after)%list.

(** The claim's words for a child of a user action: a narrated text for
    a tool use, an image item for an image, nothing otherwise. *)
Definition narrated (child : MessageContentBlock) : list WireItem :=
  match child with
  | ToolUseContentBlock _ name input =>
      [message user
         [input_text ("User performed action: " ++ name
                        ++ String newline (stringify_pretty input))]]
  | ImageContentBlock media_type data =>
      [message user
         [input_image "high" ("data:" ++ media_type ++ ";base64," ++ data)]]
  | _ => []
  end.

(** The service object as its constructor leaves it. *)
Definition new_service : OpenAIService :=
  {| cachedModels := None; modelsCacheTime := 0; logger := [] |}.

(** The service object after one more warning. *)
Definition warned (this : OpenAIService) (text : string) : OpenAIService :=
  {| cachedModels := cachedModels this;
     modelsCacheTime := modelsCacheTime this;
     logger := push (logger this) (WARN, text) |}.

(** The service object after more log lines. *)
Definition logged (this : OpenAIService) (lines : list (LogLevel * string))
  : OpenAIService :=
  {| cachedModels := cachedModels this;
     modelsCacheTime := modelsCacheTime this;
     logger := (logger this ++ lines)%list |}.

(** Two translations one after the other, their blocks appended; an
    exception of the first stops the second. *)
Definition followed_by (c1 c2 : Method (list MessageContentBlock))
  : Method (list MessageContentBlock) :=
  b1 <- c1 ;; b2 <- c2 ;; ret (b1 ++ b2)%list.

(** The outcome of a step that started from [acc] rather than from the
    empty array. *)
Definition extend (acc : list MessageContentBlock)
  (outcome : Completion (list MessageContentBlock) * OpenAIService)
  : Completion (list MessageContentBlock) * OpenAIService :=
  match outcome with
  | (Return new, this) => (Return (acc ++ new)%list, this)
  | (Throw e, this) => (Throw e, this)
  end.

Definition is_text (block : MessageContentBlock) : bool :=
  match block with TextContentBlock _ => true | _ => false end.

Definition is_message (item : WireItem) : bool :=
  match item with message _ _ => true | _ => false end.

(** The tags with a [case] of their own before the two fallback groups. *)
Definition dedicated_types : list string :=
  ["message"; "function_call"; "file_search_call"; "web_search_call";
   "computer_call"; "reasoning"].

Definition is_dedicated (t : option string) : bool :=
  match t with
  | Some t => existsb (String.eqb t) dedicated_types
  | None => false
  end.

(** The line that the fallback writes for an item. *)
Definition fallback_warning (item : WireItem) : string :=
  if is_unsupported (item_type item) then
    "Unsupported response output item type: "
      ++ match item_type item with Some t => t | None => "undefined" end
  else
    "Unknown response output item type: " ++ stringify (item_object item).

(** The blocks of a reasoning item: one thinking block when the payload
    is a string that is not empty. *)
Definition thinking_of (id : string) (encrypted_content : option string)
  : list MessageContentBlock :=
  match encrypted_content with
  | Some (String c s) => [ThinkingContentBlock (String c s) id]
  | _ => []
  end.

(** *** Notions for the further properties of the two translations *)

(** The six shapes of the items that [formatMessagesForOpenAI] builds:
    a message with one entry (an input text or a high-detail image under
    role user, an output text under role assistant), a function call, a
    function call output, a reasoning item with its payload and an empty
    summary. *)
Definition outbound_shape (item : WireItem) : bool :=
  match item with
  | message user [input_text _] => true
  | message user [input_image detail _] => String.eqb detail "high"
  | message assistant [output_text _] => true
  | function_call _ _ _ => true
  | function_call_output _ _ => true
  | reasoning_item reasoning _ (Some _) [] => true
  | _ => false
  end.

Definition is_assistant_message (item : WireItem) : bool :=
  match item with message assistant _ => true | _ => false end.

(** The ids of the tool results at the top level of the messages, and
    the ids of the tool uses at the top level of the ASSISTANT messages. *)
Definition tool_result_ids (messages : list Message) : list string :=
  flat_map
    (fun m =>
       flat_map
         (fun block =>
            match block with
            | ToolResultContentBlock tool_use_id _ => [tool_use_id]
            | _ => []
            end) (content m)) messages.

Definition tool_use_ids (messages : list Message) : list string :=
  flat_map
    (fun m =>
       match role m with
       | ASSISTANT =>
           flat_map
             (fun block =>
                match block with
                | ToolUseContentBlock id _ _ => [id]
                | _ => []
                end) (content m)
       | USER => []
       end) messages.

(** The call id of an item comes from the conversation. *)
Definition call_id_from (messages : list Message) (item : WireItem) : Prop :=
  match item with
  | function_call call_id _ _ => In call_id (tool_use_ids messages)
  | function_call_output call_id _ => In call_id (tool_result_ids messages)
  | _ => True
  end.

(** An entry of a tool result for which [forEach] pushes something. *)
Definition is_result_entry (entry : MessageContentBlock) : bool :=
  is_text entry || isImageContentBlock entry.

(** The three kinds of blocks that [formatOpenAIResponse] builds; the
    payload of a thinking block it builds is not empty. *)
Definition inbound_shape (block : MessageContentBlock) : bool :=
  match block with
  | TextContentBlock _ => true
  | ToolUseContentBlock _ _ _ => true
  | ThinkingContentBlock (String _ _) _ => true
  | _ => false
  end.

(** A block that comes back from the wire as it went: a text, a tool
    use of an ASSISTANT message, a thinking block with a payload. *)
Definition echoes (r : Role) (block : MessageContentBlock) : bool :=
  match block with
  | TextContentBlock _ => true
  | ToolUseContentBlock _ _ _ =>
      match r with ASSISTANT => true | USER => false end
  | ThinkingContentBlock (String _ _) _ => true
  | _ => false
  end.

(** The blocks of one entry of a message item. *)
Definition entry_blocks (part : ContentPart) : list MessageContentBlock :=
  match part with
  | input_text text | output_text text => [TextContentBlock text]
  | refusal_part refusal => [TextContentBlock ("Refusal: " ++ refusal)]
  | input_image _ _ => []
  end.

(** An item that [formatOpenAIResponse] sends to its fallback. *)
Definition is_fallback (item : WireItem) : bool :=
  match item with
  | function_call_output _ _ | other_item _ => true
  | _ => false
  end.

(** A function call item whose arguments [JSON.parse] accepts, or an
    item of another kind. *)
Definition parses (item : WireItem) : bool :=
  match item with
  | function_call _ _ arguments =>
      match JSON.parse arguments with Some _ => true | None => false end
  | _ => true
  end.

(** The blocks of one response item whose arguments parse. *)
Definition item_blocks (item : WireItem) : list MessageContentBlock :=
  match item with
  | message _ parts => flat_map entry_blocks parts
  | function_call call_id name arguments =>
      match JSON.parse arguments with
      | Some input => [ToolUseContentBlock call_id name input]
      | None => []
      end
  | reasoning_item _ id encrypted_content _ => thinking_of id encrypted_content
  | _ => [TextContentBlock (stringify (item_object item))]
  end.

(** The lines that the fallback writes for the items of a response. *)
Definition fallback_warnings (response : list WireItem)
  : list (LogLevel * string) :=
  map (fun item => (WARN, fallback_warning item)) (filter is_fallback response).

(** The item that a block of an ASSISTANT message gives on the switch
    path, for the blocks that give one. *)
Definition reply_item (block : MessageContentBlock) : WireItem :=
  match block with
  | TextContentBlock text => message assistant [output_text text]
  | ToolUseContentBlock id name input =>
      function_call id name (stringify input)
  | ThinkingContentBlock thinking signature =>
      reasoning_item reasoning signature (Some thinking) []
  | _ => message user [input_text (stringify (block_object block))]
  end.

(** *** Notions for the model list *)

(** A list that [getAvailableModels] may return: it is not empty, and
    the name of each of its models starts with [gpt-]. *)
Definition listable (models : list BytebotAgentModel) : Prop :=
  models <> []
  /\ Forall (fun m => startsWith (model_name m) "gpt-" = true) models.

(** The cache holds nothing, or a list that may be returned. *)
Definition cache_listable (this : OpenAIService) : Prop :=
  match cachedModels this with
  | Some cached => listable cached
  | None => True
  end.

(** The cache is served at the time [now]. *)
Definition serves_cache (this : OpenAIService) (now : Z) : bool :=
  match cachedModels this with
  | Some _ => (now - modelsCacheTime this <? CACHE_DURATION)%Z
  | None => false
  end.

(** The line that [getAvailableModels] logs when it falls back to the
    hard-coded list, if it does: the key is not set, the endpoint
    failed, or no id of the list is suitable. *)
Definition fallback_line (apiKey : option string) (modelsList : ModelsList)
  : option (LogLevel * string) :=
  if negb (truthy apiKey) then
    Some (WARN, "OPENAI_API_KEY not set, returning hardcoded models")
  else
    match modelsList with
    | models_failed error_text =>
        Some (ERROR, "Failed to fetch models from OpenAI: " ++ error_text)
    | models_listed ids =>
        if existsb suitable ids then None
        else
          Some (WARN,
                "No suitable models found from OpenAI API, using hardcoded list")
    end.

(** The service object after a fetch that found [models] at the time
    [now]. *)
Definition fetched (this : OpenAIService) (models : list BytebotAgentModel)
  (now : Z) : OpenAIService :=
  {| cachedModels := Some models;
     modelsCacheTime := now;
     logger :=
       push (logger this)
         (LOG,
          "Fetched " ++ N_digits (N.of_nat (length models))
            ++ " models from OpenAI API") |}.

(** A string of ASCII characters. *)
Fixpoint is_ascii (s : string) : bool :=
  match s with
  | EmptyString => true
  | String c s' => (nat_of_ascii c <? 128)%nat && is_ascii s'
  end.

(** The length of the pieces joined by a separator of one character. *)
Definition joined_length (pieces : list string) : nat :=
  list_sum (map String.length pieces) + (length pieces - 1).

(** *** Notions for [generateMessage] and for the place of the cursor *)

(** The two lines that the handler of [generateMessage] writes on the
    console for an exception. *)
Definition console_lines (name : string) (error : Caught)
  : list (list ConsoleValue) :=
  [[console_string "error"; console_error error];
   [console_string "error name"; console_string name]].

(** The token usage of a response, zero where the response has none. *)
Definition usage_of (response : Response) : TokenUsage :=
  match usage response with
  | Some u =>
      {| inputTokens := input_tokens u; outputTokens := output_tokens u;
         totalTokens := total_tokens u |}
  | None => {| inputTokens := 0; outputTokens := 0; totalTokens := 0 |}
  end.

(** An integer as a number of the language. *)
Definition integer (z : Z) : JSNumber := Finite (QArith_base.inject_Z z).

(** *** The two translations as functions of their input *)







(** ** [JSON.parse] inverts [JSON.stringify] *)

Module JSONFacts.

Import JSONText.

Section ValueInduction.
Variable P : JSON.value -> Prop.
Hypothesis Hnull : P JNull.
Hypothesis Hbool : forall b, P (JBool b).
Hypothesis Hnumber : forall n, P (JNumber n).
Hypothesis Hstring : forall s, P (JString s).
Hypothesis Harray : forall l, Forall P l -> P (JArray l).
Hypothesis Hobject :
  forall l, Forall (fun kv => P (snd kv)) l -> P (JObject l).

Fixpoint value_nested_ind (v : JSON.value) : P v :=
  match v with
  | JNull => Hnull
  | JBool b => Hbool b
  | JNumber n => Hnumber n
  | JString s => Hstring s
  | JArray l =>
      Harray l
        ((fix all (l : list JSON.value) : Forall P l :=
            match l with
            | [] => Forall_nil P
            | x :: l' => Forall_cons x (value_nested_ind x) (all l')
            end) l)
  | JObject l =>
      Hobject l
        ((fix all (l : list (string * JSON.value))
            : Forall (fun kv => P (snd kv)) l :=
            match l with
            | [] => Forall_nil _
            | kv :: l' =>
                Forall_cons kv (value_nested_ind (snd kv)) (all l')
            end) l)
  end.
End ValueInduction.

Lemma append_assoc (a b c : string) : (a ++ b) ++ c = a ++ (b ++ c).
Proof. induction a as [|x a IH]; simpl; [reflexivity | now rewrite IH]. Qed.

Lemma append_nil_r (a : string) : a ++ EmptyString = a.
Proof. induction a as [|x a IH]; simpl; [reflexivity | now rewrite IH]. Qed.

Lemma length_append (a b : string) :
  String.length (a ++ b) = String.length a + String.length b.
Proof. induction a as [|x a IH]; simpl; [reflexivity | now rewrite IH]. Qed.

(** *** String literals *)

Lemma parse_chars_escape_char (c : ascii) (rest : string) :
  parse_chars None (escape_char c ++ rest)
  = prepend (str c) (parse_chars None rest).
Proof.
  destruct c as [[|] [|] [|] [|] [|] [|] [|] [|]]; reflexivity.
Qed.

Lemma parse_chars_escape (s rest : string) :
  parse_chars None (escape s ++ String dquote rest) = Some (s, rest).
Proof.
  induction s as [|c s IH]; simpl.
  - reflexivity.
  - rewrite append_assoc, parse_chars_escape_char, IH. reflexivity.
Qed.

Lemma parse_chars_quote (s rest : string) :
  exists t, quote s ++ rest = String dquote t
            /\ parse_chars None t = Some (s, rest).
Proof.
  exists (escape s ++ String dquote rest). split.
  - unfold quote, str. simpl. now rewrite append_assoc.
  - apply parse_chars_escape.
Qed.

(** *** Numbers *)

Lemma all_digits_app (a b : string) :
  all_digits (a ++ b) = all_digits a && all_digits b.
Proof.
  induction a as [|c a IH]; simpl; [reflexivity|].
  now rewrite IH, andb_assoc.
Qed.

Lemma all_digits_zeros (n : nat) : all_digits (zeros n) = true.
Proof. induction n; simpl; auto. Qed.

Lemma all_digits_take (n : nat) (s : string) :
  all_digits s = true -> all_digits (take n s) = true.
Proof.
  revert s. induction n as [|n IH]; intros [|c s]; simpl; auto.
  intros H. apply andb_prop in H as [-> H]. now apply IH.
Qed.

Lemma all_digits_drop (n : nat) (s : string) :
  all_digits s = true -> all_digits (drop n s) = true.
Proof.
  revert s. induction n as [|n IH]; intros [|c s]; simpl; auto.
  intros H. apply andb_prop in H as [_ H]. now apply IH.
Qed.

Lemma all_digits_uint (u : uint) :
  all_digits (NilEmpty.string_of_uint u) = true.
Proof. induction u; simpl; auto. Qed.

Lemma is_digit_digit19 (d : digit19) : is_digit (digit19_char d) = true.
Proof. destruct d; reflexivity. Qed.

Lemma all_digits_mantissa (q : N) (d : digit19) :
  all_digits (mantissa_digits q d) = true.
Proof.
  unfold mantissa_digits. rewrite all_digits_app. simpl.
  rewrite is_digit_digit19.
  destruct (q =? 0)%N; simpl; [reflexivity|].
  unfold N_digits. now rewrite all_digits_uint.
Qed.

Lemma take_drop (n : nat) (s : string) : take n s ++ drop n s = s.
Proof.
  revert s. induction n as [|n IH]; intros [|c s]; simpl; auto.
  now rewrite IH.
Qed.

Lemma length_take (n : nat) (s : string) :
  n <= String.length s -> String.length (take n s) = n.
Proof.
  revert s. induction n as [|n IH]; intros [|c s]; simpl; auto; try lia.
  intros H. rewrite IH; lia.
Qed.

Lemma length_drop (n : nat) (s : string) :
  String.length (drop n s) = String.length s - n.
Proof.
  revert s. induction n as [|n IH]; intros [|c s]; simpl; auto.
Qed.

Lemma length_zeros (n : nat) : String.length (zeros n) = n.
Proof. induction n; simpl; auto. Qed.

Lemma read_digits_no_digit (r : string) :
  no_digit r = true -> read_digits r = (EmptyString, r).
Proof.
  destruct r as [|c r]; simpl; [reflexivity|].
  destruct (is_digit c); [discriminate | reflexivity].
Qed.

Lemma read_digits_app (ds r : string) :
  all_digits ds = true -> no_digit r = true ->
  read_digits (ds ++ r) = (ds, r).
Proof.
  intros H Hr. induction ds as [|c ds IH]; simpl.
  - now apply read_digits_no_digit.
  - simpl in H. apply andb_prop in H as [-> H]. now rewrite IH.
Qed.

Lemma starts_nonzero_N_digits (q : N) :
  q <> 0%N -> starts_nonzero (N_digits q) = true.
Proof.
  intros Hq. unfold N_digits.
  pose proof (DecimalN.Unsigned.to_of (N.to_uint q)) as H.
  rewrite DecimalN.Unsigned.of_to in H.
  unfold unorm in H.
  destruct (nzhead (N.to_uint q)) eqn:E.
  - exfalso. apply Hq.
    rewrite <- (DecimalN.Unsigned.of_to q), H. reflexivity.
  - exfalso. exact (nzhead_nonzero _ _ E).
  - now rewrite H.
  - now rewrite H.
  - now rewrite H.
  - now rewrite H.
  - now rewrite H.
  - now rewrite H.
  - now rewrite H.
  - now rewrite H.
  - now rewrite H.
Qed.

Lemma starts_nonzero_app (a b : string) :
  starts_nonzero a = true -> starts_nonzero (a ++ b) = true.
Proof. destruct a; simpl; [discriminate | auto]. Qed.

Lemma starts_nonzero_mantissa (q : N) (d : digit19) :
  starts_nonzero (mantissa_digits q d) = true.
Proof.
  unfold mantissa_digits. destruct (N.eqb_spec q 0).
  - destruct d; reflexivity.
  - now apply starts_nonzero_app, starts_nonzero_N_digits.
Qed.

Lemma starts_nonzero_take (n : nat) (s : string) :
  0 < n -> starts_nonzero s = true -> starts_nonzero (take n s) = true.
Proof. destruct n, s; simpl; (lia || discriminate || auto). Qed.

Lemma append_String (c : ascii) (a b : string) :
  String c a ++ b = String c (a ++ b).
Proof. reflexivity. Qed.

(** *** The three parts of a numeral *)

Lemma parse_int_digits (ds r : string) :
  starts_nonzero ds = true -> all_digits ds = true -> no_digit r = true ->
  parse_int (ds ++ r) = Some (ds, r).
Proof.
  intros H0 H Hr. pose proof (read_digits_app ds r H Hr) as R.
  destruct ds as [|c ds]; [discriminate|].
  simpl in H0. apply andb_prop in H0 as [Hc Hz].
  apply negb_true_iff in Hz.
  unfold parse_int. simpl append in *. cbv beta iota. now rewrite Hz, R.
Qed.

Lemma parse_int_one (c : ascii) (r : string) :
  starts_nonzero (str c) = true -> no_digit r = true ->
  parse_int (String c r) = Some (str c, r).
Proof.
  intros H Hr. apply (parse_int_digits (str c) r); trivial.
  simpl in *. apply andb_prop in H as [-> _]. reflexivity.
Qed.

Lemma parse_fraction_digits (ds r : string) :
  ds <> EmptyString -> all_digits ds = true -> no_digit r = true ->
  parse_fraction (String "." (ds ++ r)) = Some (ds, r).
Proof.
  intros H0 H Hr. simpl. rewrite (read_digits_app ds r H Hr).
  destruct ds; [congruence | reflexivity].
Qed.

Lemma parse_fraction_none (r : string) :
  no_fraction r = true -> parse_fraction r = Some (EmptyString, r).
Proof.
  destruct r as [|c r]; simpl; [reflexivity|].
  destruct (Ascii.eqb c "."); [discriminate | reflexivity].
Qed.

Lemma parse_exponent_none (r : string) :
  no_exponent r = true -> parse_exponent r = Some (0%Z, r).
Proof.
  destruct r as [|c r]; simpl; [reflexivity|].
  destruct (Ascii.eqb c "e" || Ascii.eqb c "E"); [discriminate | reflexivity].
Qed.

Lemma digits_value_N_digits (n : N) : digits_value (N_digits n) = n.
Proof.
  unfold digits_value, N_digits.
  now rewrite NilEmpty.usu, DecimalN.Unsigned.of_to.
Qed.

Lemma N_digits_nonempty (n : N) : N_digits n <> EmptyString.
Proof.
  unfold N_digits. intros H.
  pose proof (NilEmpty.usu (N.to_uint n)) as U. rewrite H in U.
  simpl in U. injection U as U.
  pose proof (DecimalN.Unsigned.to_of (N.to_uint n)) as T.
  rewrite DecimalN.Unsigned.of_to, <- U in T. discriminate T.
Qed.

Lemma parse_exponent_printed (x : Z) (r : string) :
  no_digit r = true ->
  parse_exponent
    (String "e"
       (String (if (x <? 0)%Z then "-" else "+")
          (N_digits (Z.to_N (Z.abs x)) ++ r)))
  = Some (x, r).
Proof.
  intros Hr.
  assert (R : read_digits (N_digits (Z.to_N (Z.abs x)) ++ r)
              = (N_digits (Z.to_N (Z.abs x)), r)).
  { apply read_digits_app; [apply all_digits_uint | exact Hr]. }
  pose proof (N_digits_nonempty (Z.to_N (Z.abs x))) as NE.
  destruct (Z.ltb_spec x 0); simpl; unfold parse_exponent_digits;
    rewrite R; destruct (N_digits (Z.to_N (Z.abs x))) eqn:E;
    try congruence; rewrite <- E, digits_value_N_digits;
    f_equal; f_equal; lia.
Qed.

(** *** From digits to a number *)

Lemma strip_leading_zeros_nonzero (s : string) :
  starts_nonzero s = true -> strip_leading_zeros s = s.
Proof.
  destruct s as [|c s]; simpl; [reflexivity|].
  intros H. apply andb_prop in H as [_ H]. apply negb_true_iff in H.
  now rewrite H.
Qed.

Lemma strip_leading_zeros_zeros (z : nat) (s : string) :
  strip_leading_zeros (zeros z ++ s) = strip_leading_zeros s.
Proof. induction z as [|z IH]; simpl; auto. Qed.

Lemma strip_trailing_zeros_zeros (z : nat) :
  strip_trailing_zeros (zeros z) = (EmptyString, z).
Proof. induction z as [|z IH]; simpl; [reflexivity | now rewrite IH]. Qed.

Lemma strip_trailing_zeros_last (x : string) (c : ascii) (z : nat) :
  Ascii.eqb c "0" = false ->
  strip_trailing_zeros (x ++ String c (zeros z)) = (x ++ str c, z).
Proof.
  intros Hc. induction x as [|a x IH]; simpl.
  - now rewrite strip_trailing_zeros_zeros, Hc.
  - rewrite IH. destruct x; reflexivity.
Qed.

Lemma split_last_app (x : string) (c : ascii) :
  split_last (x ++ str c) = Some (x, c).
Proof. induction x as [|a x IH]; simpl; [reflexivity | now rewrite IH]. Qed.

Lemma digit19_of_char_char (d : digit19) :
  digit19_of_char (digit19_char d) = Some d.
Proof. destruct d; reflexivity. Qed.

Lemma digit19_char_nonzero (d : digit19) :
  Ascii.eqb (digit19_char d) "0" = false.
Proof. destruct d; reflexivity. Qed.

Lemma digits_value_leading (q : N) :
  digits_value (if (q =? 0)%N then EmptyString else N_digits q) = q.
Proof.
  destruct (N.eqb_spec q 0) as [-> | _]; [reflexivity|].
  apply digits_value_N_digits.
Qed.

Lemma number_of_digits_mantissa (negative : bool) (q : N) (d : digit19)
  (z : nat) (e : Z) :
  number_of_digits negative (mantissa_digits q d ++ zeros z) e
  = Number negative q d (e + Z.of_nat z).
Proof.
  unfold number_of_digits.
  rewrite strip_leading_zeros_nonzero
    by apply starts_nonzero_app, starts_nonzero_mantissa.
  unfold mantissa_digits. rewrite append_assoc. simpl append at 2.
  rewrite strip_trailing_zeros_last by apply digit19_char_nonzero.
  now rewrite split_last_app, digit19_of_char_char, digits_value_leading.
Qed.

Lemma number_of_digits_exact (negative : bool) (q : N) (d : digit19) (e : Z) :
  number_of_digits negative (mantissa_digits q d) e = Number negative q d e.
Proof.
  pose proof (number_of_digits_mantissa negative q d 0 e) as H.
  simpl in H. rewrite append_nil_r, Z.add_0_r in H. exact H.
Qed.

Lemma number_of_digits_small (negative : bool) (q : N) (d : digit19)
  (z : nat) (e : Z) :
  number_of_digits negative
    (String "0" (zeros z ++ mantissa_digits q d)) e
  = Number negative q d e.
Proof.
  rewrite <- (number_of_digits_exact negative q d e).
  unfold number_of_digits. simpl strip_leading_zeros.
  now rewrite strip_leading_zeros_zeros.
Qed.

(** *** Printed numbers parse back *)

Lemma delimited_no_digit (s : string) :
  delimited s = true -> no_digit s = true.
Proof.
  destruct s as [|c s]; [reflexivity|].
  destruct c as [[|] [|] [|] [|] [|] [|] [|] [|]]; simpl; congruence.
Qed.

Lemma delimited_no_fraction (s : string) :
  delimited s = true -> no_fraction s = true.
Proof.
  destruct s as [|c s]; [reflexivity|].
  destruct c as [[|] [|] [|] [|] [|] [|] [|] [|]]; simpl; congruence.
Qed.

Lemma delimited_no_exponent (s : string) :
  delimited s = true -> no_exponent s = true.
Proof.
  destruct s as [|c s]; [reflexivity|].
  destruct c as [[|] [|] [|] [|] [|] [|] [|] [|]]; simpl; congruence.
Qed.

Lemma mantissa_digits_length (q : N) (d : digit19) :
  1 <= String.length (mantissa_digits q d).
Proof.
  unfold mantissa_digits. rewrite length_append. simpl. lia.
Qed.

Lemma parse_unsigned_printed (negative : bool) (q : N) (d : digit19) (e : Z)
  (rest : string) :
  delimited rest = true ->
  parse_unsigned negative (positive_to_string q d e ++ rest)
  = Some (Number negative q d e, rest).
Proof.
  intros D.
  pose proof (delimited_no_digit _ D) as ND.
  pose proof (delimited_no_fraction _ D) as NF.
  pose proof (delimited_no_exponent _ D) as NE.
  pose proof (all_digits_mantissa q d) as AD.
  pose proof (starts_nonzero_mantissa q d) as SN.
  pose proof (mantissa_digits_length q d) as LK.
  unfold positive_to_string, parse_unsigned.
  set (ds := mantissa_digits q d) in *.
  set (k := Z.of_nat (String.length ds)).
  set (n := (k + e)%Z).
  destruct ((0 <=? e) && (n <=? 21))%Z eqn:CA.
  { (* an integer *)
    apply andb_prop in CA as [He Hn]. apply Z.leb_le in He.
    rewrite parse_int_digits; trivial.
    - rewrite parse_fraction_none, parse_exponent_none by assumption.
      rewrite append_nil_r. unfold ds.
      rewrite number_of_digits_mantissa. simpl String.length.
      do 3 f_equal. lia.
    - now apply starts_nonzero_app.
    - now rewrite all_digits_app, AD, all_digits_zeros. }
  destruct ((0 <? n) && (n <=? 21))%Z eqn:CB.
  { (* a point inside the digits *)
    apply andb_prop in CB as [Hn0 Hn]. apply Z.ltb_lt in Hn0.
    rewrite Hn, andb_true_r in CA. apply Z.leb_gt in CA.
    assert (Hlt : 0 < Z.to_nat n < String.length ds) by lia.
    rewrite append_assoc, append_String.
    rewrite parse_int_digits; trivial.
    - rewrite parse_fraction_digits; trivial.
      + rewrite parse_exponent_none by assumption.
        rewrite take_drop, length_drop. unfold ds.
        rewrite number_of_digits_exact. do 3 f_equal. fold ds. lia.
      + intros E. apply (f_equal String.length) in E.
        rewrite length_drop in E. simpl in E. lia.
      + now apply all_digits_drop.
    - apply starts_nonzero_take; [lia | assumption].
    - now apply all_digits_take. }
  destruct ((-6 <? n) && (n <=? 0))%Z eqn:CC.
  { (* zeros after the point *)
    apply andb_prop in CC as [Hn6 Hn]. apply Z.leb_le in Hn.
    change (parse_int
              (String "0" (String "." (zeros (Z.to_nat (- n)) ++ ds)) ++ rest))
      with (Some (str "0",
                  String "." ((zeros (Z.to_nat (- n)) ++ ds) ++ rest))).
    cbv beta iota. rewrite parse_fraction_digits; trivial.
    - rewrite parse_exponent_none by assumption.
      rewrite length_append, length_zeros. unfold ds. simpl append.
      rewrite number_of_digits_small. do 3 f_equal. fold ds. lia.
    - intros E. apply (f_equal String.length) in E.
      rewrite length_append in E. simpl in E. lia.
    - now rewrite all_digits_app, all_digits_zeros, AD. }
  (* an exponent *)
  assert (Hn : (n - 1 - (k - 1) = e)%Z) by lia.
  pose proof (number_of_digits_exact negative q d) as NX. fold ds in NX.
  clearbody ds.
  destruct ds as [|c t]; [simpl in LK; lia|].
  simpl in AD. apply andb_prop in AD as [Hc Ht].
  assert (S1 : starts_nonzero (str c) = true) by exact SN.
  simpl take. simpl drop.
  destruct t as [|c' t'].
  - (* one digit *)
    simpl append.
    rewrite (parse_int_one c _ S1) by reflexivity.
    rewrite parse_fraction_none by reflexivity.
    rewrite parse_exponent_printed by assumption.
    cbn [append]. rewrite NX. do 3 f_equal.
    subst k. cbn [String.length] in *. lia.
  - simpl append. rewrite ?append_assoc, ?append_String.
    rewrite (parse_int_one c _ S1) by reflexivity.
    match goal with
    | |- context [String c' (t' ++ ?r)] =>
        change (String c' (t' ++ r)) with (String c' t' ++ r)
    end.
    rewrite parse_fraction_digits by (try discriminate; trivial).
    rewrite parse_exponent_printed by assumption.
    cbn [append]. rewrite NX. do 3 f_equal.
    subst k. cbn [String.length] in *. lia.
Qed.

Lemma parse_int_starts (s i r : string) :
  parse_int s = Some (i, r) ->
  exists c t, s = String c t /\ is_digit c = true.
Proof.
  destruct s as [|c t]; [discriminate|]. intros H. exists c, t.
  split; [reflexivity|]. unfold parse_int in H.
  destruct (Ascii.eqb_spec c "0") as [-> | _]; [reflexivity|].
  simpl in H. destruct (is_digit c); [reflexivity | discriminate H].
Qed.

Lemma positive_to_string_starts (q : N) (d : digit19) (e : Z) :
  exists c t, positive_to_string q d e = String c t /\ is_digit c = true.
Proof.
  pose proof (parse_unsigned_printed false q d e EmptyString eq_refl) as H.
  rewrite append_nil_r in H. unfold parse_unsigned in H.
  destruct (parse_int (positive_to_string q d e)) as [[i r]|] eqn:E;
    [|discriminate H].
  exact (parse_int_starts _ _ _ E).
Qed.

Lemma is_digit_not_minus (c : ascii) :
  is_digit c = true -> Ascii.eqb c "-" = false.
Proof.
  destruct c as [[|] [|] [|] [|] [|] [|] [|] [|]]; simpl;
    try discriminate; reflexivity.
Qed.

Theorem parse_number_to_string (x : number) (rest : string) :
  delimited rest = true ->
  parse_number (number_to_string x ++ rest) = Some (x, rest).
Proof.
  intros D. destruct x as [|[|] q d e].
  - simpl. unfold parse_unsigned. simpl parse_int. cbv beta iota.
    rewrite parse_fraction_none by now apply delimited_no_fraction.
    rewrite parse_exponent_none by now apply delimited_no_exponent.
    reflexivity.
  - simpl. now apply parse_unsigned_printed.
  - change (number_to_string (Number false q d e))
      with (positive_to_string q d e).
    destruct (positive_to_string_starts q d e) as (c & t & E & Hc).
    pose proof (parse_unsigned_printed false q d e rest D) as P.
    rewrite E in *. simpl append in *. unfold parse_number.
    now rewrite (is_digit_not_minus c Hc).
Qed.

Lemma starts_number_to_string (x : number) (rest : string) :
  starts_number (number_to_string x ++ rest) = true.
Proof.
  destruct x as [|[|] q d e]; try reflexivity.
  destruct (positive_to_string_starts q d e) as (c & t & E & Hc).
  simpl. rewrite E. simpl. rewrite Hc. apply orb_true_r.
Qed.

Lemma parse_value_number (fuel : nat) (s : string) :
  starts_number s = true ->
  parse_value (S fuel) s
  = match parse_number s with
    | Some (n, r') => Some (JNumber n, r')
    | None => None
    end.
Proof.
  destruct s as [|c t]; [discriminate|].
  destruct c as [[|] [|] [|] [|] [|] [|] [|] [|]]; simpl;
    try discriminate; reflexivity.
Qed.

Lemma starts_number_value (s : string) :
  starts_number s = true -> starts_value s = true.
Proof.
  destruct s as [|c t]; [discriminate|].
  destruct c as [[|] [|] [|] [|] [|] [|] [|] [|]]; simpl;
    try discriminate; reflexivity.
Qed.

(** *** Values *)

Lemma skip_ws_starts_value (s : string) :
  starts_value s = true -> skip_ws s = s.
Proof.
  destruct s as [|c t]; simpl; [reflexivity|].
  destruct (is_ws c); [discriminate | reflexivity].
Qed.

Lemma closes_starts_value (s : string) :
  starts_value s = true -> closes "]" s = None.
Proof.
  destruct s as [|c t]; simpl; [reflexivity|].
  destruct (Ascii.eqb c "]"); [|reflexivity].
  rewrite andb_false_r. discriminate.
Qed.

Lemma starts_value_stringify (v : JSON.value) (rest : string) :
  starts_value (stringify v ++ rest) = true.
Proof.
  destruct v as [|[|]|n|s|l|l]; try reflexivity.
  apply starts_number_value, starts_number_to_string.
Qed.

Lemma parse_value_string (fuel : nat) (t : string) :
  parse_value (S fuel) (String dquote t)
  = match parse_chars None t with
    | Some (s, r') => Some (JString s, r')
    | None => None
    end.
Proof. reflexivity. Qed.

Lemma parse_value_array (fuel : nat) (r : string) :
  parse_value (S fuel) (String "[" r)
  = match closes "]" (skip_ws r) with
    | Some r' => Some (JArray [], r')
    | None =>
        match parse_elements fuel r with
        | Some (l, r') => Some (JArray l, r')
        | None => None
        end
    end.
Proof. reflexivity. Qed.

Lemma parse_value_object (fuel : nat) (r : string) :
  parse_value (S fuel) (String "{" r)
  = match closes "}" (skip_ws r) with
    | Some r' => Some (JObject [], r')
    | None =>
        match parse_members fuel r with
        | Some (l, r') => Some (JObject l, r')
        | None => None
        end
    end.
Proof. reflexivity. Qed.

Lemma parse_elements_step (fuel : nat) (s : string) :
  parse_elements (S fuel) s
  = match parse_value fuel s with
    | Some (v, r) =>
        match skip_ws r with
        | EmptyString => None
        | String c r' =>
            if Ascii.eqb c "," then
              match parse_elements fuel r' with
              | Some (l, r'') => Some (v :: l, r'')
              | None => None
              end
            else if Ascii.eqb c "]" then Some ([v], r')
            else None
        end
    | None => None
    end.
Proof. reflexivity. Qed.

Lemma parse_members_step (fuel : nat) (r : string) :
  parse_members (S fuel) (String dquote r)
  = match parse_chars None r with
    | Some (k, r1) =>
        match skip_ws r1 with
        | EmptyString => None
        | String c r2 =>
            if Ascii.eqb c ":" then
              match parse_value fuel r2 with
              | Some (v, r3) =>
                  match skip_ws r3 with
                  | EmptyString => None
                  | String d r4 =>
                      if Ascii.eqb d "," then
                        match parse_members fuel r4 with
                        | Some (l, r5) => Some ((k, v) :: l, r5)
                        | None => None
                        end
                      else if Ascii.eqb d "}" then Some ([(k, v)], r4)
                      else None
                  end
              | None => None
              end
            else None
        end
    | None => None
    end.
Proof. reflexivity. Qed.

Lemma parse_elements_concat (l : list JSON.value) :
  l <> [] -> Forall round_trips l ->
  forall fuel rest,
    list_sum (map (fun x => S (size x)) l) <= fuel ->
    parse_elements fuel
      (String.concat "," (map stringify l) ++ String "]" rest)
    = Some (l, rest).
Proof.
  intros Hne HF. induction HF as [|x l Hx HF IH]; [congruence|].
  intros fuel rest Hfuel. simpl in Hfuel.
  destruct fuel as [|fuel]; [lia|].
  rewrite parse_elements_step.
  destruct l as [|y l].
  - simpl String.concat. rewrite Hx by (simpl; reflexivity || lia).
    reflexivity.
  - change (String.concat "," (map stringify (x :: y :: l)))
      with (stringify x ++ String "," (String.concat "," (map stringify (y :: l)))).
    rewrite append_assoc. simpl append at 2.
    rewrite Hx by (simpl in *; reflexivity || lia).
    simpl skip_ws. cbv iota. simpl Ascii.eqb. cbv iota.
    rewrite IH by (simpl in *; congruence || lia).
    reflexivity.
Qed.

Lemma member_text_shape (kv : string * JSON.value) (rest : string) :
  member_text kv ++ rest
  = String dquote
      (escape (fst kv)
         ++ String dquote (String ":" (stringify (snd kv) ++ rest))).
Proof.
  unfold member_text, quote, str. simpl.
  now rewrite !append_assoc.
Qed.

Lemma parse_members_concat (l : list (string * JSON.value)) :
  l <> [] -> Forall (fun kv => round_trips (snd kv)) l ->
  forall fuel rest,
    list_sum (map (fun kv => S (size (snd kv))) l) <= fuel ->
    parse_members fuel
      (String.concat "," (map member_text l) ++ String "}" rest)
    = Some (l, rest).
Proof.
  intros Hne HF. induction HF as [|[k v] l Hx HF IH]; [congruence|].
  intros fuel rest Hfuel. simpl in Hfuel, Hx.
  destruct fuel as [|fuel]; [lia|].
  destruct l as [|y l].
  - simpl String.concat. rewrite member_text_shape, parse_members_step.
    rewrite parse_chars_escape. simpl.
    rewrite Hx by (reflexivity || lia). reflexivity.
  - change (String.concat "," (map member_text ((k, v) :: y :: l)))
      with (member_text (k, v)
              ++ String "," (String.concat "," (map member_text (y :: l)))).
    remember (String.concat "," (map member_text (y :: l))) as tail eqn:Et.
    rewrite append_assoc, member_text_shape, parse_members_step.
    rewrite parse_chars_escape. simpl.
    rewrite Hx by (reflexivity || lia).
    simpl. subst tail.
    rewrite IH by (simpl in *; congruence || lia).
    reflexivity.
Qed.

Lemma stringify_array (l : list JSON.value) (rest : string) :
  stringify (JArray l) ++ rest
  = String "[" (String.concat "," (map stringify l) ++ String "]" rest).
Proof. simpl. now rewrite append_assoc. Qed.

Lemma stringify_object (l : list (string * JSON.value)) (rest : string) :
  stringify (JObject l) ++ rest
  = String "{" (String.concat "," (map member_text l) ++ String "}" rest).
Proof. simpl. now rewrite append_assoc. Qed.

Lemma starts_value_concat (l : list JSON.value) (rest : string) :
  l <> [] ->
  starts_value (String.concat "," (map stringify l) ++ rest) = true.
Proof.
  destruct l as [|x [|y l]]; [congruence| |]; intros _.
  - apply starts_value_stringify.
  - change (String.concat "," (map stringify (x :: y :: l)))
      with (stringify x ++ String "," (String.concat "," (map stringify (y :: l)))).
    rewrite append_assoc. apply starts_value_stringify.
Qed.

Lemma concat_members_shape (l : list (string * JSON.value)) (rest : string) :
  l <> [] ->
  exists t, String.concat "," (map member_text l) ++ rest = String dquote t.
Proof.
  destruct l as [|x [|y l]]; [congruence| |]; intros _.
  - change (String.concat "," (map member_text [x])) with (member_text x).
    rewrite member_text_shape. eauto.
  - change (String.concat "," (map member_text (x :: y :: l)))
      with (member_text x ++ String "," (String.concat "," (map member_text (y :: l)))).
    rewrite append_assoc, member_text_shape. eauto.
Qed.

Theorem parse_value_stringify (v : JSON.value) : round_trips v.
Proof.
  induction v as [ |b|n|s|l IH|l IH] using value_nested_ind;
    intros fuel rest Hfuel D; (destruct fuel as [|fuel]; [simpl in Hfuel; lia|]).
  - reflexivity.
  - destruct b; reflexivity.
  - change (stringify (JNumber n)) with (number_to_string n).
    rewrite parse_value_number by apply starts_number_to_string.
    now rewrite parse_number_to_string.
  - destruct (parse_chars_quote s rest) as (t & E & Ht).
    simpl stringify. rewrite E, parse_value_string, Ht. reflexivity.
  - rewrite stringify_array, parse_value_array.
    destruct l as [|x l].
    + reflexivity.
    + rewrite skip_ws_starts_value, closes_starts_value
        by (apply starts_value_concat; congruence).
      rewrite parse_elements_concat; trivial; [congruence|].
      simpl in Hfuel |- *. lia.
  - rewrite stringify_object, parse_value_object.
    destruct l as [|x l].
    + reflexivity.
    + destruct (concat_members_shape (x :: l) (String "}" rest)) as (t & E);
        [congruence|].
      rewrite E at 1. simpl skip_ws. simpl closes.
      rewrite parse_members_concat; trivial; [congruence|].
      simpl in Hfuel |- *. lia.
Qed.

Lemma length_concat_elements (l : list JSON.value) :
  Forall (fun x => size x <= String.length (stringify x)) l ->
  list_sum (map (fun x => S (size x)) l)
  <= S (String.length (String.concat "," (map stringify l))).
Proof.
  induction 1 as [|x l Hx HF IH]; simpl; [lia|].
  destruct l as [|y l]; simpl in *; [lia|].
  rewrite length_append. simpl. lia.
Qed.

Lemma length_concat_members (l : list (string * JSON.value)) :
  Forall (fun kv => size (snd kv) <= String.length (stringify (snd kv))) l ->
  list_sum (map (fun kv => S (size (snd kv))) l)
  <= S (String.length (String.concat "," (map member_text l))).
Proof.
  assert (M : forall kv, String.length (stringify (snd kv))
                         <= String.length (member_text kv)).
  { intros kv. unfold member_text, quote. simpl.
    rewrite !length_append. simpl. lia. }
  induction 1 as [|x l Hx HF IH]; simpl; [lia|].
  specialize (M x).
  destruct l as [|y l]; simpl in *; [lia|].
  rewrite length_append. simpl. lia.
Qed.

Lemma length_number_to_string (n : number) :
  1 <= String.length (number_to_string n).
Proof.
  pose proof (starts_number_to_string n EmptyString) as H.
  rewrite append_nil_r in H.
  destruct (number_to_string n); [discriminate | simpl; lia].
Qed.

Lemma size_le_length (v : JSON.value) :
  size v <= String.length (stringify v).
Proof.
  induction v as [ |b|n|s|l IH|l IH] using value_nested_ind.
  - simpl. lia.
  - destruct b; simpl; lia.
  - apply length_number_to_string.
  - simpl. lia.
  - pose proof (length_concat_elements l IH).
    simpl. rewrite length_append. simpl. lia.
  - pose proof (length_concat_members l IH).
    change (stringify (JObject l))
      with ("{" ++ String.concat "," (map member_text l) ++ "}").
    simpl. rewrite length_append. simpl. lia.
Qed.

(** [JSON.parse(JSON.stringify(v))] is [v]. *)
Theorem parse_stringify (v : JSON.value) :
  JSON.parse (stringify v) = Some v.
Proof.
  unfold JSON.parse.
  pose proof (size_le_length v) as L.
  pose proof (parse_value_stringify v
                (2 * String.length (stringify v) + 2) EmptyString) as H.
  rewrite append_nil_r in H.
  rewrite H by (reflexivity || lia). reflexivity.
Qed.

(** *** The fuel of [JSON.parse] is enough *)

Lemma skip_ws_length (s : string) :
  String.length (skip_ws s) <= String.length s.
Proof.
  induction s as [|c s IH]; simpl; [lia|].
  destruct (is_ws c); simpl; lia.
Qed.

Lemma closes_length (c : ascii) (s r : string) :
  closes c s = Some r -> String.length s = S (String.length r).
Proof.
  destruct s as [|d s]; simpl; [discriminate|].
  destruct (Ascii.eqb d c); [|discriminate].
  now intros [= ->].
Qed.

Lemma expect_length (word s r : string) :
  expect word s = Some r -> String.length r <= String.length s.
Proof.
  revert s. induction word as [|a word IH]; intros s; simpl.
  - now intros [= ->].
  - destruct s as [|b s]; [discriminate|].
    destruct (Ascii.eqb a b); [|discriminate].
    intros H. apply IH in H. simpl. lia.
Qed.

Lemma prepend_some (p : string) (x : option (string * string))
  (t r : string) :
  prepend p x = Some (t, r) -> exists t', x = Some (t', r).
Proof.
  destruct x as [[t' r']|]; simpl; [|discriminate].
  intros [= _ ->]. eauto.
Qed.

Lemma parse_chars_length (n : nat) :
  forall pending s t r,
    String.length s <= n ->
    parse_chars pending s = Some (t, r) ->
    String.length r < String.length s.
Proof.
  induction n as [|n IH]; intros pending s t r Hn H.
  - destruct s; [discriminate H | simpl in Hn; lia].
  - destruct s as [|c s]; [discriminate H|].
    simpl in Hn. cbn [parse_chars] in H.
    destruct (Ascii.eqb c dquote).
    { injection H as _ ->. simpl. lia. }
    destruct (Ascii.eqb c backslash).
    + destruct s as [|e s]; [discriminate H|].
      assert (Simple :
                match simple_escape e with
                | Some c' =>
                    prepend
                      (match pending with
                       | Some hi => utf8 hi
                       | None => EmptyString
                       end ++ str c') (parse_chars None s)
                | None => None
                end = Some (t, r) ->
                String.length r < String.length (String c (String e s))).
      { destruct (simple_escape e); [|discriminate].
        intros H'. apply prepend_some in H' as (t' & H').
        apply IH in H'; simpl in *; lia. }
      destruct e as [[|] [|] [|] [|] [|] [|] [|] [|]];
        try (exact (Simple H)).
      destruct s as [|h1 [|h2 [|h3 [|h4 s]]]]; try discriminate H.
      destruct (hex4 h1 h2 h3 h4) as [u|]; [|discriminate H].
      assert (Rec : forall pending' p,
                 prepend p (parse_chars pending' s) = Some (t, r) ->
                 String.length r
                 < String.length
                     (String c (String "u"
                        (String h1 (String h2 (String h3 (String h4 s))))))).
      { intros pending' p H'. apply prepend_some in H' as (t' & H').
        apply IH in H'; simpl in *; lia. }
      destruct pending as [hi|].
      * destruct (is_low_surrogate u); [exact (Rec _ _ H)|].
        destruct (is_high_surrogate u); exact (Rec _ _ H).
      * destruct (is_high_surrogate u); [|exact (Rec _ _ H)].
        apply IH in H; simpl in *; lia.
    + destruct (N_of_ascii c <? 32)%N; [discriminate H|].
      apply prepend_some in H as (t' & H).
      apply IH in H; simpl in *; lia.
Qed.

Lemma read_digits_length (s : string) :
  forall ds r,
    read_digits s = (ds, r) ->
    String.length s = String.length ds + String.length r.
Proof.
  induction s as [|c s IH]; intros ds r; simpl.
  - intros [= <- <-]. reflexivity.
  - destruct (is_digit c).
    + destruct (read_digits s) as [ds' r'].
      intros [= <- <-]. simpl. now rewrite (IH _ _ eq_refl).
    + intros [= <- <-]. reflexivity.
Qed.

Lemma read_digits_some_length (s ds r : string) :
  match read_digits s with
  | (EmptyString, _) => None
  | (ds, r') => Some (ds, r')
  end = Some (ds, r) ->
  String.length r < String.length s.
Proof.
  destruct (read_digits s) as [ds' r'] eqn:E.
  apply read_digits_length in E.
  destruct ds'; [discriminate|]. intros [= <- <-]. simpl in E. lia.
Qed.

Lemma parse_int_length (s i r : string) :
  parse_int s = Some (i, r) -> String.length r < String.length s.
Proof.
  destruct s as [|c t]; [discriminate|]. unfold parse_int.
  destruct (Ascii.eqb c "0").
  - intros [= _ <-]. simpl. lia.
  - apply read_digits_some_length.
Qed.

Lemma parse_fraction_length (s f r : string) :
  parse_fraction s = Some (f, r) -> String.length r <= String.length s.
Proof.
  destruct s as [|c t]; simpl.
  - now intros [= _ <-].
  - destruct (Ascii.eqb c ".").
    + intros H. apply read_digits_some_length in H. lia.
    + intros [= _ <-]. simpl. lia.
Qed.

Lemma parse_exponent_digits_length (negative : bool) (s : string) (x : Z)
  (r : string) :
  parse_exponent_digits negative s = Some (x, r) ->
  String.length r < String.length s.
Proof.
  unfold parse_exponent_digits.
  destruct (read_digits s) as [ds r'] eqn:E.
  apply read_digits_length in E.
  destruct ds; [discriminate|]. intros [= _ <-]. simpl in E. lia.
Qed.

Lemma parse_exponent_length (s : string) (x : Z) (r : string) :
  parse_exponent s = Some (x, r) -> String.length r <= String.length s.
Proof.
  destruct s as [|c t]; simpl.
  - now intros [= _ <-].
  - destruct (Ascii.eqb c "e" || Ascii.eqb c "E").
    + destruct t as [|sign t']; [discriminate|].
      destruct (Ascii.eqb sign "-");
        [|destruct (Ascii.eqb sign "+")];
        intros H; apply parse_exponent_digits_length in H; simpl in *; lia.
    + intros [= _ <-]. simpl. lia.
Qed.

Lemma parse_unsigned_length (negative : bool) (s : string) (x : number)
  (r : string) :
  parse_unsigned negative s = Some (x, r) ->
  String.length r < String.length s.
Proof.
  unfold parse_unsigned.
  destruct (parse_int s) as [[i s1]|] eqn:E1; [|discriminate].
  destruct (parse_fraction s1) as [[f s2]|] eqn:E2; [|discriminate].
  destruct (parse_exponent s2) as [[e s3]|] eqn:E3; [|discriminate].
  intros [= _ <-].
  apply parse_int_length in E1. apply parse_fraction_length in E2.
  apply parse_exponent_length in E3. lia.
Qed.

Lemma parse_number_length (s : string) (x : number) (r : string) :
  parse_number s = Some (x, r) -> String.length r < String.length s.
Proof.
  destruct s as [|c t]; [discriminate|]. unfold parse_number.
  destruct (Ascii.eqb c "-"); intros H;
    apply parse_unsigned_length in H; simpl in *; lia.
Qed.

Lemma parse_value_S (fuel : nat) (s : string) :
  parse_value (S fuel) s
  = match skip_ws s with
    | EmptyString => None
    | String c r =>
        if Ascii.eqb c "{" then
          match closes "}" (skip_ws r) with
          | Some r' => Some (JObject [], r')
          | None =>
              match parse_members fuel r with
              | Some (l, r') => Some (JObject l, r')
              | None => None
              end
          end
        else if Ascii.eqb c "[" then
          match closes "]" (skip_ws r) with
          | Some r' => Some (JArray [], r')
          | None =>
              match parse_elements fuel r with
              | Some (l, r') => Some (JArray l, r')
              | None => None
              end
          end
        else if Ascii.eqb c dquote then
          match parse_chars None r with
          | Some (t, r') => Some (JString t, r')
          | None => None
          end
        else if Ascii.eqb c "t" then
          match expect "rue" r with
          | Some r' => Some (JBool true, r')
          | None => None
          end
        else if Ascii.eqb c "f" then
          match expect "alse" r with
          | Some r' => Some (JBool false, r')
          | None => None
          end
        else if Ascii.eqb c "n" then
          match expect "ull" r with
          | Some r' => Some (JNull, r')
          | None => None
          end
        else
          match parse_number (String c r) with
          | Some (n, r') => Some (JNumber n, r')
          | None => None
          end
    end.
Proof. reflexivity. Qed.

Lemma parse_members_S (fuel : nat) (s : string) :
  parse_members (S fuel) s
  = match skip_ws s with
    | EmptyString => None
    | String q r =>
        if Ascii.eqb q dquote then
          match parse_chars None r with
          | Some (k, r1) =>
              match skip_ws r1 with
              | EmptyString => None
              | String c r2 =>
                  if Ascii.eqb c ":" then
                    match parse_value fuel r2 with
                    | Some (v, r3) =>
                        match skip_ws r3 with
                        | EmptyString => None
                        | String d r4 =>
                            if Ascii.eqb d "," then
                              match parse_members fuel r4 with
                              | Some (l, r5) => Some ((k, v) :: l, r5)
                              | None => None
                              end
                            else if Ascii.eqb d "}" then Some ([(k, v)], r4)
                            else None
                        end
                    | None => None
                    end
                  else None
              end
          | None => None
          end
        else None
    end.
Proof. reflexivity. Qed.

(** Case analysis on every test of a parser run that succeeded. *)
Ltac break_run H :=
  repeat match type of H with
    | context [match ?x with _ => _ end] =>
        destruct x eqn:?; try discriminate H
    end.

(** Replays in the goal the tests recorded in the context. *)
Ltac replay :=
  repeat match goal with
    | E : ?x = _ |- context [match ?x with _ => _ end] => rewrite E
    end.

Lemma skipped (s : string) (c : ascii) (r : string) :
  skip_ws s = String c r -> S (String.length r) <= String.length s.
Proof.
  intros E. pose proof (skip_ws_length s) as L. rewrite E in L. exact L.
Qed.

Lemma closes_skipped (c : ascii) (s r : string) :
  closes c (skip_ws s) = Some r -> S (String.length r) <= String.length s.
Proof.
  intros E. apply closes_length in E.
  pose proof (skip_ws_length s). lia.
Qed.

Lemma parse_chars_shorter (s t r : string) :
  parse_chars None s = Some (t, r) -> S (String.length r) <= String.length s.
Proof. intros E. exact (parse_chars_length _ _ _ _ _ (le_n _) E). Qed.

(** Adds [fact], what [lemma] says of the hypothesis [H], unless it is
    there already. *)
Ltac learn fact lemma H :=
  lazymatch goal with
  | _ : fact |- _ => fail
  | _ => pose proof (lemma H)
  end.

(** How much shorter the rest is after each step of a run. *)
Ltac note_lengths :=
  repeat match goal with
    | H : skip_ws ?s = String ?c ?r |- _ =>
        learn (S (String.length r) <= String.length s) (skipped s c r) H
    | H : closes ?c (skip_ws ?s) = Some ?r |- _ =>
        learn (S (String.length r) <= String.length s) (closes_skipped c s r) H
    | H : parse_chars None ?s = Some (?t, ?r) |- _ =>
        learn (S (String.length r) <= String.length s)
          (parse_chars_shorter s t r) H
    | H : expect ?w ?s = Some ?r |- _ =>
        learn (String.length r <= String.length s) (expect_length w s r) H
    | H : parse_number ?s = Some (?n, ?r) |- _ =>
        learn (String.length r < String.length s) (parse_number_length s n r) H
    end.

Lemma value_fuel_S (fuel : nat) :
  elements_fuel fuel -> members_fuel fuel -> value_fuel (S fuel).
Proof.
  intros IHe IHm s v r H. rewrite parse_value_S in H.
  break_run H; injection H as <- <-; note_lengths;
    try match goal with
      | E : parse_members _ _ = Some _ |- _ =>
          destruct (IHm _ _ _ E) as (L & P & F)
      | E : parse_elements _ _ = Some _ |- _ =>
          destruct (IHe _ _ _ E) as (L & P & F)
      end;
    unfold elements_size, members_size in *;
    (split; [simpl in *; lia|]);
    (intros [|f] Hf; [simpl in Hf; lia|]);
    rewrite parse_value_S; replay;
    try (rewrite F by (simpl in Hf; lia));
    reflexivity.
Qed.

Lemma elements_fuel_S (fuel : nat) :
  value_fuel fuel -> elements_fuel fuel -> elements_fuel (S fuel).
Proof.
  intros IHv IHe s l r H. rewrite parse_elements_step in H.
  break_run H; injection H as <- <-; note_lengths;
    match goal with
    | E : parse_value _ _ = Some _ |- _ =>
        destruct (IHv _ _ _ E) as (Lv & Fv)
    end;
    try match goal with
      | E : parse_elements _ _ = Some _ |- _ =>
          destruct (IHe _ _ _ E) as (L & P & F)
      end;
    unfold elements_size in *;
    (split; [simpl in *; lia|]);
    (split; [simpl in *; lia|]);
    (intros [|f] Hf; [simpl in Hf; lia|]);
    rewrite parse_elements_step;
    rewrite Fv by (simpl in Hf; lia); replay;
    try (rewrite F by (simpl in Hf; lia));
    reflexivity.
Qed.

Lemma members_fuel_S (fuel : nat) :
  value_fuel fuel -> members_fuel fuel -> members_fuel (S fuel).
Proof.
  intros IHv IHm s l r H. rewrite parse_members_S in H.
  break_run H; injection H as <- <-; note_lengths;
    match goal with
    | E : parse_value _ _ = Some _ |- _ =>
        destruct (IHv _ _ _ E) as (Lv & Fv)
    end;
    try match goal with
      | E : parse_members _ _ = Some _ |- _ =>
          destruct (IHm _ _ _ E) as (L & P & F)
      end;
    unfold members_size in *;
    (split; [simpl in *; lia|]);
    (split; [simpl in *; lia|]);
    (intros [|f] Hf; [simpl in Hf; lia|]);
    rewrite parse_members_S; replay;
    rewrite Fv by (simpl in Hf; lia); replay;
    try (rewrite F by (simpl in Hf; lia));
    reflexivity.
Qed.

Lemma fuel_enough (fuel : nat) :
  value_fuel fuel /\ elements_fuel fuel /\ members_fuel fuel.
Proof.
  induction fuel as [|fuel (IHv & IHe & IHm)].
  - split; [|split]; intros s x r H; discriminate H.
  - split; [|split].
    + now apply value_fuel_S.
    + now apply elements_fuel_S.
    + now apply members_fuel_S.
Qed.

(** No amount of fuel parses a text that [JSON.parse] rejects: the
    outcome of [JSON.parse] is that of the descent with any fuel under
    which the descent succeeds. *)
Theorem parse_fuel (fuel : nat) (text : string) (v : JSON.value) (r : string) :
  parse_value fuel text = Some (v, r) ->
  parse_value (2 * String.length text + 2) text = Some (v, r).
Proof.
  intros H. destruct (fuel_enough fuel) as (Hv & _).
  destruct (Hv _ _ _ H) as (L & F). apply F. lia.
Qed.

Corollary parse_rejects (text : string) :
  JSON.parse text = None ->
  forall fuel v r,
    parse_value fuel text = Some (v, r) -> skip_ws r <> EmptyString.
Proof.
  unfold JSON.parse. intros H fuel v r Hf. apply parse_fuel in Hf.
  rewrite Hf in H. destruct (skip_ws r); [discriminate H | discriminate].
Qed.

End JSONFacts.

(** ** The loops as concatenations *)

Section FoldPush.
Context {A B : Type} (step : list B -> A -> list B).
Hypothesis step_acc : forall acc x, step acc x = (acc ++ step [] x)%list.

Lemma fold_left_acc (l : list A) (acc : list B) :
  fold_left step l acc = (acc ++ flat_map (step []) l)%list.
Proof.
  revert acc. induction l as [|x l IH]; intros acc; simpl.
  - now rewrite List.app_nil_r.
  - rewrite IH, step_acc, <- List.app_assoc. reflexivity.
Qed.

Lemma fold_left_middle (l1 l2 : list A) (x : A) :
  fold_left step (l1 ++ x :: l2) []
  = (fold_left step l1 [] ++ step [] x ++ fold_left step l2 [])%list.
Proof.
  rewrite !fold_left_acc, flat_map_app. simpl. reflexivity.
Qed.
End FoldPush.

Lemma userActionStep_acc (acc : list WireItem) (block : MessageContentBlock) :
  userActionStep acc block = (acc ++ userActionStep [] block)%list.
Proof.
  destruct block; unfold userActionStep, push; simpl;
    now rewrite ?List.app_nil_r.
Qed.

Lemma toolResultStep_acc (id : string) (acc : list WireItem)
  (c : MessageContentBlock) :
  toolResultStep id acc c = (acc ++ toolResultStep id [] c)%list.
Proof.
  destruct c; unfold toolResultStep, push; simpl;
    now rewrite <- ?List.app_assoc, ?List.app_nil_r.
Qed.

Lemma blockStep_acc (r : Role) (acc : list WireItem)
  (block : MessageContentBlock) :
  blockStep r acc block = (acc ++ blockStep r [] block)%list.
Proof.
  destruct block; destruct r; unfold blockStep, push; simpl;
    rewrite ?List.app_nil_r; try reflexivity;
    now rewrite !(fold_left_acc _ (toolResultStep_acc _)).
Qed.

Lemma messageStep_acc (acc : list WireItem) (m : Message) :
  messageStep acc m = (acc ++ messageStep [] m)%list.
Proof.
  unfold messageStep.
  destruct (forallb isUserActionContentBlock (content m)).
  - rewrite !(fold_left_acc _ userActionStep_acc). reflexivity.
  - rewrite !(fold_left_acc _ (blockStep_acc _)). reflexivity.
Qed.

Lemma formatMessagesForOpenAI_middle (before after : list Message)
  (m : Message) :
  formatMessagesForOpenAI (before ++ m :: after)
  = (formatMessagesForOpenAI before ++ messageStep [] m
       ++ formatMessagesForOpenAI after)%list.
Proof. apply (fold_left_middle _ messageStep_acc). Qed.

Lemma forallb_middle_false {A : Type} (p : A -> bool) (l1 l2 : list A) (x : A) :
  p x = false -> forallb p (l1 ++ x :: l2) = false.
Proof.
  intros H. rewrite forallb_app. simpl. rewrite H.
  now rewrite andb_false_r.
Qed.

(** A message that is not made of user actions only goes through the
    [switch], block by block. *)
Lemma switch_path (before after : list Message) (r : Role)
  (bs1 bs2 : list MessageContentBlock) (block : MessageContentBlock) :
  forallb isUserActionContentBlock (bs1 ++ block :: bs2) = false ->
  formatMessagesForOpenAI
    (before ++ {| role := r; content := bs1 ++ block :: bs2 |} :: after)
  = (formatMessagesForOpenAI before
       ++ blockItems r bs1 ++ blockStep r [] block ++ blockItems r bs2
       ++ formatMessagesForOpenAI after)%list.
Proof.
  intros H. rewrite formatMessagesForOpenAI_middle.
  unfold messageStep. simpl. rewrite H.
  rewrite (fold_left_middle _ (blockStep_acc r)).
  unfold blockItems. now rewrite <- !List.app_assoc.
Qed.

Lemma toolResultItems_middle (id : string)
  (c1 c2 : list MessageContentBlock) (entry : MessageContentBlock) :
  toolResultItems id (c1 ++ entry :: c2)
  = (toolResultItems id c1 ++ toolResultStep id [] entry
       ++ toolResultItems id c2)%list.
Proof. apply (fold_left_middle _ (toolResultStep_acc id)). Qed.

Lemma switch_path_block (before after : list Message) (r : Role)
  (bs1 bs2 : list MessageContentBlock) (block : MessageContentBlock) :
  isUserActionContentBlock block = false ->
  formatMessagesForOpenAI (conversation before r bs1 block bs2 after)
  = around before r bs1 (blockStep r [] block) bs2 after.
Proof.
  intros H. apply switch_path. now apply forallb_middle_false.
Qed.

Lemma userActionStep_narrated (child : MessageContentBlock) :
  userActionStep [] child = narrated child.
Proof. destruct child; reflexivity. Qed.

Lemma user_actions_all (groups : list (list MessageContentBlock)) :
  forallb isUserActionContentBlock (map UserActionContentBlock groups) = true.
Proof. induction groups; simpl; auto. Qed.

Lemma user_actions_children (groups : list (list MessageContentBlock)) :
  flat_map block_content (map UserActionContentBlock groups) = concat groups.
Proof.
  induction groups as [|g groups IH]; simpl; [reflexivity | now rewrite IH].
Qed.

Lemma narrated_no_function_call (children : list MessageContentBlock) :
  Forall (fun item => is_function_call item = false)
    (flat_map narrated children).
Proof.
  induction children as [|c children IH]; simpl; [constructor|].
  apply Forall_app. split; [|exact IH].
  destruct c; simpl; repeat constructor.
Qed.

(** ** Outbound translation: the claims *)

(** C1. Inside a tool result translated outbound, an image entry gives
    two items in this order: a function call output for the tool use id
    whose output is the word screenshot, then a user message with one
    image entry whose URL is the data URL of the image; a text entry
    gives one function call output for that id carrying the text. *)
Theorem tool_result_entries
  (before after : list Message) (r : Role)
  (bs1 bs2 c1 c2 : list MessageContentBlock) (tool_use_id : string) :
  (forall media_type data,
      formatMessagesForOpenAI
        (conversation before r bs1
           (ToolResultContentBlock tool_use_id
              (c1 ++ ImageContentBlock media_type data :: c2)) bs2 after)
      = around before r bs1
          (toolResultItems tool_use_id c1
             ++ [function_call_output tool_use_id "screenshot";
                 message user
                   [input_image "high"
                      ("data:" ++ media_type ++ ";base64," ++ data)]]
             ++ toolResultItems tool_use_id c2) bs2 after)
  /\ (forall text,
         formatMessagesForOpenAI
           (conversation before r bs1
              (ToolResultContentBlock tool_use_id
                 (c1 ++ TextContentBlock text :: c2)) bs2 after)
         = around before r bs1
             (toolResultItems tool_use_id c1
                ++ [function_call_output tool_use_id text]
                ++ toolResultItems tool_use_id c2) bs2 after).
Proof.
  split; intros; rewrite switch_path_block by reflexivity;
    f_equal; apply toolResultItems_middle.
Qed.

(** C2. On the switch path a tool use of an ASSISTANT message becomes
    one function call item with the id as call id, the name, and the
    JSON text of the input as arguments, which parses back to the
    input; a tool use of a USER message gives no item. *)
Theorem tool_use_function_call
  (before after : list Message) (bs1 bs2 : list MessageContentBlock)
  (id name : string) (input : JSON.value) :
  formatMessagesForOpenAI
    (conversation before ASSISTANT bs1
       (ToolUseContentBlock id name input) bs2 after)
  = around before ASSISTANT bs1
      [function_call id name (stringify input)] bs2 after
  /\ JSON.parse (stringify input) = Some input
  /\ formatMessagesForOpenAI
       (conversation before USER bs1
          (ToolUseContentBlock id name input) bs2 after)
     = around before USER bs1 [] bs2 after.
Proof.
  repeat split.
  - now rewrite switch_path_block.
  - apply JSONFacts.parse_stringify.
  - now rewrite switch_path_block.
Qed.

(** C3. A message whose blocks are all user actions is translated by
    going through the children of the user actions in order: a tool use
    child gives one user message narrating the action (name, new line,
    pretty-printed input), an image child one user message with the
    image at high detail, any other child nothing; no function call
    item comes out of it. *)
Theorem user_action_message
  (before after : list Message) (r : Role)
  (groups : list (list MessageContentBlock)) :
  formatMessagesForOpenAI
    (before ++ {| role := r; content := map UserActionContentBlock groups |}
       :: after)
  = (formatMessagesForOpenAI before
       ++ flat_map narrated (concat groups)
       ++ formatMessagesForOpenAI after)%list
  /\ Forall (fun item => is_function_call item = false)
       (flat_map narrated (concat groups)).
Proof.
  split; [|apply narrated_no_function_call].
  rewrite formatMessagesForOpenAI_middle. unfold messageStep. simpl.
  rewrite user_actions_all, user_actions_children.
  rewrite (fold_left_acc _ userActionStep_acc). simpl.
  f_equal. f_equal. apply flat_map_ext. intros c.
  apply userActionStep_narrated.
Qed.

(** C10. In a message that has a block which is not a user action, a
    user action block is neither flattened nor dropped: it becomes one
    user message whose text is the JSON text of the whole block, its
    children included. *)
Theorem user_action_in_mixed_message
  (before after : list Message) (r : Role)
  (bs1 bs2 children : list MessageContentBlock) :
  forallb isUserActionContentBlock (bs1 ++ bs2) = false ->
  formatMessagesForOpenAI
    (conversation before r bs1 (UserActionContentBlock children) bs2 after)
  = around before r bs1
      [message user
         [input_text
            (stringify
               (JObject [("type", JString "user_action");
                         ("content", JArray (map block_object children))]))]]
      bs2 after.
Proof.
  intros H. unfold conversation, around. rewrite switch_path; [reflexivity|].
  rewrite forallb_app in *. simpl.
  destruct (forallb isUserActionContentBlock bs1); simpl in *; auto.
Qed.

Lemma user_action_in_mixed_message_witness :
  forallb isUserActionContentBlock ([TextContentBlock "done"] ++ []) = false
  /\ formatMessagesForOpenAI
       (conversation [] USER [TextContentBlock "done"]
          (UserActionContentBlock [ImageContentBlock "image/png" "AAA="])
          [] [])
     = around [] USER [TextContentBlock "done"]
         [message user
            [input_text
               (stringify
                  (JObject
                     [("type", JString "user_action");
                      ("content",
                       JArray
                         (map block_object
                            [ImageContentBlock "image/png" "AAA="]))]))]]
         [] [].
Proof.
  split; [reflexivity|].
  exact (user_action_in_mixed_message [] [] USER
           [TextContentBlock "done"] []
           [ImageContentBlock "image/png" "AAA="] eq_refl).
Defined.

(** ** Inbound translation: the loop as a sequence of steps *)

Lemma contentStep_acc (acc : list MessageContentBlock) (part : ContentPart) :
  contentStep acc part = (acc ++ contentStep [] part)%list.
Proof.
  destruct part; unfold contentStep, push; simpl;
    now rewrite ?List.app_nil_r.
Qed.

Lemma itemStep_acc (acc : list MessageContentBlock) (item : WireItem)
  (this : OpenAIService) :
  itemStep acc item this = extend acc (itemStep [] item this).
Proof.
  destruct item as [r parts|call_id name arguments|call_id output
                   |t id [[|c e]|] summary|object];
    unfold itemStep, extend, bind, ret, push; simpl;
    rewrite ?List.app_nil_r; try reflexivity.
  - now rewrite !(fold_left_acc _ contentStep_acc).
  - unfold JSON_parse. destruct (JSON.parse arguments); reflexivity.
  - destruct (is_unsupported _); reflexivity.
Qed.

Lemma forOf_itemStep_acc (l : list WireItem) (acc : list MessageContentBlock)
  (this : OpenAIService) :
  forOf itemStep l acc this = extend acc (forOf itemStep l [] this).
Proof.
  revert acc this. induction l as [|x l IH]; intros acc this; simpl.
  - unfold ret, extend. now rewrite List.app_nil_r.
  - unfold bind. rewrite (itemStep_acc acc). unfold extend at 1.
    destruct (itemStep [] x this) as [[new|e] this1]; [|reflexivity].
    rewrite (IH (acc ++ new)%list), (IH new). unfold extend.
    destruct (forOf itemStep l [] this1) as [[new2|e] this2];
      [|reflexivity].
    now rewrite List.app_assoc.
Qed.

Lemma formatOpenAIResponse_cons (item : WireItem) (after : list WireItem)
  (this : OpenAIService) :
  formatOpenAIResponse (item :: after) this
  = followed_by (itemStep [] item) (formatOpenAIResponse after) this.
Proof.
  unfold formatOpenAIResponse, followed_by. simpl. unfold bind.
  destruct (itemStep [] item this) as [[new|e] this1]; [|reflexivity].
  rewrite forOf_itemStep_acc. unfold extend, ret.
  destruct (forOf itemStep after [] this1) as [[new2|e] this2]; reflexivity.
Qed.

Lemma followed_by_assoc (c1 c2 c3 : Method (list MessageContentBlock))
  (this : OpenAIService) :
  followed_by (followed_by c1 c2) c3 this
  = followed_by c1 (followed_by c2 c3) this.
Proof.
  unfold followed_by, bind, ret.
  destruct (c1 this) as [[b1|e] this1]; [|reflexivity].
  destruct (c2 this1) as [[b2|e] this2]; [|reflexivity].
  destruct (c3 this2) as [[b3|e] this3]; [|reflexivity].
  now rewrite List.app_assoc.
Qed.

Lemma followed_by_ext (c1 c2 c2' : Method (list MessageContentBlock))
  (this : OpenAIService) :
  (forall this1, c2 this1 = c2' this1) ->
  followed_by c1 c2 this = followed_by c1 c2' this.
Proof.
  intros H. unfold followed_by, bind.
  destruct (c1 this) as [[b1|e] this1]; [|reflexivity].
  now rewrite H.
Qed.

Lemma followed_by_nil (c : Method (list MessageContentBlock))
  (this : OpenAIService) :
  followed_by (formatOpenAIResponse []) c this = c this.
Proof.
  unfold followed_by, formatOpenAIResponse, bind, ret. simpl. unfold ret.
  destruct (c this) as [[b|e] this1]; reflexivity.
Qed.

(** The translation of a response with one item singled out. *)
Lemma formatOpenAIResponse_middle (before after : list WireItem)
  (item : WireItem) (this : OpenAIService) :
  formatOpenAIResponse (before ++ item :: after) this
  = followed_by (formatOpenAIResponse before)
      (followed_by (itemStep [] item) (formatOpenAIResponse after)) this.
Proof.
  revert this. induction before as [|x before IH]; intros this.
  - simpl. now rewrite followed_by_nil, formatOpenAIResponse_cons.
  - simpl. rewrite formatOpenAIResponse_cons.
    rewrite (followed_by_ext _ _ _ _ IH).
    rewrite <- followed_by_assoc. symmetry.
    unfold followed_by at 1. unfold bind at 1.
    rewrite formatOpenAIResponse_cons. reflexivity.
Qed.

Lemma logged_nil (this : OpenAIService) : logged this [] = this.
Proof. destruct this. unfold logged. simpl. now rewrite List.app_nil_r. Qed.

Lemma logged_logged (this : OpenAIService) (l1 l2 : list (LogLevel * string)) :
  logged (logged this l1) l2 = logged this (l1 ++ l2).
Proof. unfold logged. simpl. now rewrite List.app_assoc. Qed.

Lemma itemStep_other (object : list (string * JSON.value))
  (this : OpenAIService) :
  itemStep [] (other_item object) this
  = (Return [TextContentBlock (stringify (JObject object))],
     warned this (fallback_warning (other_item object))).
Proof.
  unfold itemStep, fallback_warning.
  destruct (is_unsupported (item_type (other_item object))); reflexivity.
Qed.

Lemma itemStep_function_call_ok (call_id name arguments : string)
  (input : JSON.value) (this : OpenAIService) :
  JSON.parse arguments = Some input ->
  itemStep [] (function_call call_id name arguments) this
  = ret [ToolUseContentBlock call_id name input] this.
Proof.
  intros H. unfold itemStep, JSON_parse, bind. now rewrite H.
Qed.

Lemma itemStep_function_call_error (call_id name arguments : string)
  (this : OpenAIService) :
  JSON.parse arguments = None ->
  itemStep [] (function_call call_id name arguments) this
  = throw (SyntaxError arguments) this.
Proof.
  intros H. unfold itemStep, JSON_parse, bind. now rewrite H.
Qed.

Lemma itemStep_reasoning (t : ReasoningTag) (id : string)
  (encrypted_content : option string) (summary : list string)
  (this : OpenAIService) :
  itemStep [] (reasoning_item t id encrypted_content summary) this
  = ret (thinking_of id encrypted_content) this.
Proof. destruct encrypted_content as [[|c s]|]; reflexivity. Qed.

Lemma followed_by_not_return (c : Method (list MessageContentBlock))
  (e : Error) (this : OpenAIService) :
  forall blocks this',
    followed_by c (throw e) this <> (Return blocks, this').
Proof.
  intros blocks this'. unfold followed_by, bind, throw.
  destruct (c this) as [[b|e'] this1]; discriminate.
Qed.

(** ** Inbound translation: the claims *)

(** C4. A function call item whose arguments parse gives exactly one
    tool use block, with the call id as id, the name, and the parsed
    arguments as input; one whose arguments do not parse makes the
    translation throw, and then no list of blocks is returned at all, so
    no tool use block with a null or undefined input either. *)
Theorem function_call_arguments
  (before after : list WireItem) (call_id name arguments : string)
  (this : OpenAIService) :
  (forall input,
      JSON.parse arguments = Some input ->
      formatOpenAIResponse
        (before ++ function_call call_id name arguments :: after) this
      = followed_by (formatOpenAIResponse before)
          (followed_by (ret [ToolUseContentBlock call_id name input])
             (formatOpenAIResponse after)) this)
  /\ (JSON.parse arguments = None ->
      formatOpenAIResponse
        (before ++ function_call call_id name arguments :: after) this
      = followed_by (formatOpenAIResponse before)
          (throw (SyntaxError arguments)) this
      /\ forall blocks this',
          formatOpenAIResponse
            (before ++ function_call call_id name arguments :: after) this
          <> (Return blocks, this')).
Proof.
  split.
  - intros input H. rewrite formatOpenAIResponse_middle.
    apply followed_by_ext. intros this1.
    unfold followed_by at 1 2, bind at 1 3.
    now rewrite (itemStep_function_call_ok _ _ _ _ _ H).
  - intros H.
    assert (E : formatOpenAIResponse
                  (before ++ function_call call_id name arguments :: after)
                  this
                = followed_by (formatOpenAIResponse before)
                    (throw (SyntaxError arguments)) this).
    { rewrite formatOpenAIResponse_middle.
      apply followed_by_ext. intros this1.
      unfold followed_by, bind.
      now rewrite (itemStep_function_call_error _ _ _ _ H). }
    split; [exact E|].
    rewrite E. apply followed_by_not_return.
Qed.

Lemma function_call_arguments_witness :
  let arguments := stringify (JObject [("x", JInt 1); ("y", JInt 2)]) in
  (JSON.parse arguments = Some (JObject [("x", JInt 1); ("y", JInt 2)])
   /\ formatOpenAIResponse [function_call "call_1" "click" arguments]
        new_service
      = (Return
           [ToolUseContentBlock "call_1" "click"
              (JObject [("x", JInt 1); ("y", JInt 2)])],
         new_service))
  /\ (JSON.parse "not json" = None
      /\ formatOpenAIResponse [function_call "call_1" "click" "not json"]
           new_service
         = (Throw (SyntaxError "not json"), new_service)).
Proof.
  split; (split; [reflexivity|]).
  - exact (proj1 (function_call_arguments [] [] "call_1" "click"
                    (stringify (JObject [("x", JInt 1); ("y", JInt 2)]))
                    new_service)
             (JObject [("x", JInt 1); ("y", JInt 2)]) eq_refl).
  - exact (proj1 (proj2 (function_call_arguments [] [] "call_1" "click"
                           "not json" new_service) eq_refl)).
Defined.

(** C5. A text block becomes one message item with a single entry: an
    input text under role user in a USER message, an output text under
    role assistant otherwise, the text unchanged; a message item with
    that single entry is translated inbound to one text block with the
    same text; so the text survives the way out and back. *)
Theorem text_round_trip
  (before after : list Message) (bs1 bs2 : list MessageContentBlock)
  (text : string) :
  formatMessagesForOpenAI
    (conversation before USER bs1 (TextContentBlock text) bs2 after)
  = around before USER bs1 [message user [input_text text]] bs2 after
  /\ formatMessagesForOpenAI
       (conversation before ASSISTANT bs1 (TextContentBlock text) bs2 after)
     = around before ASSISTANT bs1
         [message assistant [output_text text]] bs2 after
  /\ (forall pre post r this,
         formatOpenAIResponse (pre ++ message r [input_text text] :: post) this
         = followed_by (formatOpenAIResponse pre)
             (followed_by (ret [TextContentBlock text])
                (formatOpenAIResponse post)) this
         /\ formatOpenAIResponse
              (pre ++ message r [output_text text] :: post) this
            = followed_by (formatOpenAIResponse pre)
                (followed_by (ret [TextContentBlock text])
                   (formatOpenAIResponse post)) this)
  /\ (forall r this,
         formatOpenAIResponse
           (formatMessagesForOpenAI
              [{| role := r; content := [TextContentBlock text] |}]) this
         = (Return [TextContentBlock text], this)).
Proof.
  repeat split.
  - now rewrite switch_path_block.
  - now rewrite switch_path_block.
  - now rewrite formatOpenAIResponse_middle.
  - now rewrite formatOpenAIResponse_middle.
  - intros [|] this; reflexivity.
Qed.

(** C6, amended. A thinking block becomes one reasoning item with the
    signature as id, the thinking payload unchanged as encrypted content
    and an empty summary.  Inbound, a reasoning item (or an item of the
    three call tags read the same way) gives one thinking block, with
    the encrypted content as thinking and the id as signature, when the
    encrypted content is a string that is not empty, and no block when
    it is absent or empty.  A thinking block whose payload is not empty
    comes back unchanged. *)
Theorem thinking_reasoning
  (before after : list Message) (r : Role)
  (bs1 bs2 : list MessageContentBlock) (thinking signature : string) :
  formatMessagesForOpenAI
    (conversation before r bs1
       (ThinkingContentBlock thinking signature) bs2 after)
  = around before r bs1
      [reasoning_item reasoning signature (Some thinking) []] bs2 after
  /\ (forall pre post t id encrypted_content summary this,
         formatOpenAIResponse
           (pre ++ reasoning_item t id encrypted_content summary :: post) this
         = followed_by (formatOpenAIResponse pre)
             (followed_by
                (ret match encrypted_content with
                     | Some (String c s) =>
                         [ThinkingContentBlock (String c s) id]
                     | _ => []
                     end)
                (formatOpenAIResponse post)) this)
  /\ (thinking <> EmptyString ->
      forall this,
        formatOpenAIResponse
          (formatMessagesForOpenAI
             [{| role := r;
                 content := [ThinkingContentBlock thinking signature] |}])
          this
        = (Return [ThinkingContentBlock thinking signature], this)).
Proof.
  repeat split.
  - now rewrite switch_path_block.
  - intros. rewrite formatOpenAIResponse_middle.
    apply followed_by_ext. intros this1.
    unfold followed_by, bind. now rewrite itemStep_reasoning.
  - intros H this. destruct thinking as [|c s]; [congruence|].
    destruct r; reflexivity.
Qed.

Lemma thinking_reasoning_witness :
  "gAAAAB" <> EmptyString
  /\ formatOpenAIResponse
       (formatMessagesForOpenAI
          [{| role := ASSISTANT;
              content := [ThinkingContentBlock "gAAAAB" "rs_1"] |}])
       new_service
     = (Return [ThinkingContentBlock "gAAAAB" "rs_1"], new_service).
Proof.
  assert (H : "gAAAAB" <> EmptyString) by discriminate.
  split; [exact H|].
  exact (proj2 (proj2 (thinking_reasoning [] [] ASSISTANT [] []
                         "gAAAAB" "rs_1")) H new_service).
Defined.

(** C6 fails as stated: an encrypted content that is present but empty
    gives no thinking block, and a thinking block with an empty payload
    does not come back. *)
Lemma thinking_empty_payload_dropped :
  formatOpenAIResponse
    [reasoning_item reasoning "rs_1" (Some EmptyString) []] new_service
  = (Return [], new_service)
  /\ formatOpenAIResponse
       (formatMessagesForOpenAI
          [{| role := ASSISTANT;
              content := [ThinkingContentBlock EmptyString "rs_1"] |}])
       new_service
     <> (Return [ThinkingContentBlock EmptyString "rs_1"], new_service).
Proof. split; [reflexivity | discriminate]. Qed.

Lemma itemStep_outcome (item : WireItem) (this : OpenAIService) :
  match itemStep [] item this with
  | (Return new, this') =>
      (is_message item = true \/ length new <= 1)
      /\ (this' = this
          \/ (length new = 1 /\ this' = warned this (fallback_warning item)))
  | (Throw e, this') =>
      this' = this
      /\ exists call_id name arguments,
          item = function_call call_id name arguments
          /\ JSON.parse arguments = None
          /\ e = SyntaxError arguments
  end.
Proof.
  destruct item as [r parts|call_id name arguments|call_id output
                   |t id enc summary|object].
  - simpl. auto.
  - unfold itemStep, JSON_parse, bind.
    destruct (JSON.parse arguments) eqn:E; simpl.
    + auto.
    + split; [reflexivity|]. eauto 6.
  - simpl. auto.
  - rewrite itemStep_reasoning. unfold ret.
    destruct enc as [[|c s]|]; simpl; auto.
  - rewrite itemStep_other. simpl. auto.
Qed.

(** C7, amended. Inbound, the blocks of a response are the blocks of its
    items in order.  An item that is not a message gives no block or one
    block, or makes the translation throw (a function call whose
    arguments do not parse); a message may give several.  Nothing is
    logged for an item that gives no block: a warning is written only
    by the fallback, which gives one block. *)
Theorem item_block_count :
  (forall before after item this,
      formatOpenAIResponse (before ++ item :: after) this
      = followed_by (formatOpenAIResponse before)
          (followed_by (itemStep [] item) (formatOpenAIResponse after)) this)
  /\ (forall item this,
         match itemStep [] item this with
         | (Return new, this') =>
             (is_message item = true \/ length new <= 1)
             /\ (this' = this
                 \/ (length new = 1
                     /\ this' = warned this (fallback_warning item)))
         | (Throw e, this') =>
             this' = this
             /\ exists call_id name arguments,
                 item = function_call call_id name arguments
                 /\ JSON.parse arguments = None
                 /\ e = SyntaxError arguments
         end).
Proof.
  split.
  - apply formatOpenAIResponse_middle.
  - apply itemStep_outcome.
Qed.

(** C7 fails as stated: a reasoning item without encrypted content gives
    no block and nothing is logged. *)
Lemma reasoning_without_payload_dropped_silently :
  formatOpenAIResponse [reasoning_item reasoning "rs_1" None []] new_service
  = (Return [], new_service)
  /\ logger new_service = [].
Proof. split; reflexivity. Qed.

(** C8. A block of an unrecognized tag becomes one user message whose
    text is the JSON text of the block, and an item of an unsupported or
    unrecognized tag becomes one text block whose text is the JSON text
    of the item; parsing the text gives the block or the item back;
    nothing is thrown, a warning is logged inbound, and the translation
    of what comes before and after goes on. *)
Theorem unknown_tag_fallback :
  (forall before after r bs1 bs2 object,
      is_block_type (object_type object) = false ->
      formatMessagesForOpenAI
        (conversation before r bs1 (OtherContentBlock object) bs2 after)
      = around before r bs1
          [message user [input_text (stringify (JObject object))]] bs2 after)
  /\ (forall pre post object this,
         is_dedicated (item_type (other_item object)) = false ->
         formatOpenAIResponse (pre ++ other_item object :: post) this
         = followed_by (formatOpenAIResponse pre)
             (followed_by
                (logger_warn (fallback_warning (other_item object)) ;;;
                 ret [TextContentBlock (stringify (JObject object))])
                (formatOpenAIResponse post)) this)
  /\ (forall object, JSON.parse (stringify (JObject object))
                     = Some (JObject object)).
Proof.
  repeat split.
  - intros. now rewrite switch_path_block.
  - intros pre post object this _. rewrite formatOpenAIResponse_middle.
    apply followed_by_ext. intros this1.
    unfold followed_by, bind at 1 3. now rewrite itemStep_other.
  - intros. apply JSONFacts.parse_stringify.
Qed.

Lemma unknown_tag_fallback_witness :
  let block := [("type", JString "document"); ("name", JString "notes.txt")] in
  let item := [("type", JString "mcp_call"); ("id", JString "mcp_1")] in
  (is_block_type (object_type block) = false
   /\ formatMessagesForOpenAI
        (conversation [] USER [] (OtherContentBlock block) [] [])
      = around [] USER []
          [message user [input_text (stringify (JObject block))]] [] [])
  /\ (is_dedicated (item_type (other_item item)) = false
      /\ formatOpenAIResponse [other_item item] new_service
         = (Return [TextContentBlock (stringify (JObject item))],
            warned new_service
              "Unsupported response output item type: mcp_call")).
Proof.
  split; (split; [reflexivity|]).
  - exact (proj1 unknown_tag_fallback [] [] USER [] []
             [("type", JString "document"); ("name", JString "notes.txt")]
             eq_refl).
  - exact (proj1 (proj2 unknown_tag_fallback) [] []
             [("type", JString "mcp_call"); ("id", JString "mcp_1")]
             new_service eq_refl).
Defined.

(** ** A conversation of text blocks comes back as it went *)

Lemma formatOpenAIResponse_app (l1 l2 : list WireItem)
  (this : OpenAIService) :
  formatOpenAIResponse (l1 ++ l2) this
  = followed_by (formatOpenAIResponse l1) (formatOpenAIResponse l2) this.
Proof.
  revert this. induction l1 as [|x l1 IH]; intros this; simpl.
  - now rewrite followed_by_nil.
  - rewrite formatOpenAIResponse_cons, (followed_by_ext _ _ _ _ IH).
    rewrite <- followed_by_assoc. symmetry.
    unfold followed_by at 1. unfold bind at 1.
    rewrite formatOpenAIResponse_cons. reflexivity.
Qed.

Lemma text_blocks_round_trip (r : Role) (blocks : list MessageContentBlock)
  (this : OpenAIService) :
  forallb is_text blocks = true ->
  formatOpenAIResponse (flat_map (blockStep r []) blocks) this
  = (Return blocks, this).
Proof.
  induction blocks as [|b blocks IH]; [reflexivity|].
  destruct b; try discriminate. intros H.
  cbn [flat_map]. rewrite formatOpenAIResponse_app.
  unfold followed_by, bind.
  destruct r; simpl; unfold ret; now rewrite (IH H).
Qed.

Lemma text_message_round_trip (m : Message) (this : OpenAIService) :
  forallb is_text (content m) = true ->
  formatOpenAIResponse (messageStep [] m) this = (Return (content m), this).
Proof.
  intros H. unfold messageStep.
  destruct (forallb isUserActionContentBlock (content m)) eqn:E.
  - destruct (content m) as [|b blocks]; [reflexivity|].
    destruct b; discriminate.
  - rewrite (fold_left_acc _ (blockStep_acc (role m))). simpl.
    now apply text_blocks_round_trip.
Qed.

(** Outbound translation of a conversation whose blocks are all text,
    then inbound translation of the items, gives the blocks back in
    order, throws nothing and logs nothing. *)
Theorem text_conversation_round_trip (messages : list Message)
  (this : OpenAIService) :
  forallb (fun m => forallb is_text (content m)) messages = true ->
  formatOpenAIResponse (formatMessagesForOpenAI messages) this
  = (Return (flat_map content messages), this).
Proof.
  unfold formatMessagesForOpenAI.
  rewrite (fold_left_acc _ messageStep_acc). simpl.
  induction messages as [|m messages IH]; simpl; [reflexivity|].
  intros H. apply andb_prop in H as [Hm H].
  rewrite formatOpenAIResponse_app. unfold followed_by, bind.
  now rewrite (text_message_round_trip m this Hm), (IH H).
Qed.

(** ** The examples of the specification *)

Example example_tool_use :
  formatMessagesForOpenAI
    [{| role := ASSISTANT;
        content := [ToolUseContentBlock "call_1" "click"
                      (JObject [("x", JInt 1); ("y", JInt 2)])] |}]
  = [function_call "call_1" "click"
       (stringify (JObject [("x", JInt 1); ("y", JInt 2)]))]
  /\ JSON.parse (stringify (JObject [("x", JInt 1); ("y", JInt 2)]))
     = Some (JObject [("x", JInt 1); ("y", JInt 2)]).
Proof. split; reflexivity. Qed.

Example example_tool_result_image :
  formatMessagesForOpenAI
    [{| role := USER;
        content := [ToolResultContentBlock "call_1"
                      [ImageContentBlock "image/png" "AAA="]] |}]
  = [function_call_output "call_1" "screenshot";
     message user [input_image "high" "data:image/png;base64,AAA="]].
Proof. reflexivity. Qed.

Example example_user_action :
  formatMessagesForOpenAI
    [{| role := USER;
        content := [UserActionContentBlock
                      [ToolUseContentBlock "toolu_1" "computer_click_mouse"
                         (JObject [("button", JString "left")]);
                       ImageContentBlock "image/png" "AAA="]] |}]
  = [message user
       [input_text
          ("User performed action: computer_click_mouse"
             ++ String newline
                  (stringify_pretty (JObject [("button", JString "left")])))];
     message user [input_image "high" "data:image/png;base64,AAA="]].
Proof. reflexivity. Qed.

Example example_pretty_printed_input :
  stringify_pretty
    (JObject [("coordinates", JObject [("x", JInt 10); ("y", JInt (-4))]);
              ("path", JArray []); ("holdKeys", JArray [JString "shift"])])
  = String.concat (str newline)
      ["{";
       "  " ++ quote "coordinates" ++ ": {";
       "    " ++ quote "x" ++ ": 10,";
       "    " ++ quote "y" ++ ": -4";
       "  },";
       "  " ++ quote "path" ++ ": [],";
       "  " ++ quote "holdKeys" ++ ": [";
       "    " ++ quote "shift";
       "  ]";
       "}"].
Proof. reflexivity. Qed.

Example example_numbers :
  JSON.parse
    ("{" ++ quote "duration" ++ ": 0.5, " ++ quote "scale" ++ ": -1.25e3, "
         ++ quote "delta" ++ ": 120}")
  = Some (JObject [("duration", JNumber (Number false 0 d5 (-1)));
                   ("scale", JNumber (Number true 12 d5 1));
                   ("delta", JInt 120)])
  /\ stringify (JArray [JNumber (Number false 0 d5 (-1));
                        JNumber (Number true 12 d5 1);
                        JNumber (Number false 0 d1 21);
                        JNumber (Number false 1 d5 (-8))])
     = "[0.5,-1250,1e+21,1.5e-7]".
Proof. split; reflexivity. Qed.

Example example_malformed_arguments :
  formatOpenAIResponse [function_call "call_1" "click" "not json"] new_service
  = (Throw (SyntaxError "not json"), new_service).
Proof. reflexivity. Qed.

Example example_unknown_item :
  let item := [("type", JString "future_call"); ("id", JString "fc_1");
               ("attempts", JInt 3)] in
  formatOpenAIResponse [other_item item] new_service
  = (Return [TextContentBlock (stringify (JObject item))],
     warned new_service
       ("Unknown response output item type: " ++ stringify (JObject item)))
  /\ JSON.parse (stringify (JObject item)) = Some (JObject item).
Proof. split; reflexivity. Qed.

Example example_message_with_two_entries :
  formatOpenAIResponse
    [message assistant [output_text "Done."; refusal_part "I cannot."]]
    new_service
  = (Return [TextContentBlock "Done.";
             TextContentBlock "Refusal: I cannot."], new_service).
Proof. reflexivity. Qed.

(** ** Further properties of [formatMessagesForOpenAI] *)

Lemma formatMessagesForOpenAI_flat_map (messages : list Message) :
  formatMessagesForOpenAI messages = flat_map (messageStep []) messages.
Proof.
  unfold formatMessagesForOpenAI.
  now rewrite (fold_left_acc _ messageStep_acc).
Qed.

Lemma messageStep_cases (m : Message) :
  messageStep [] m
  = if forallb isUserActionContentBlock (content m)
    then flat_map (userActionStep []) (flat_map block_content (content m))
    else flat_map (blockStep (role m) []) (content m).
Proof.
  unfold messageStep.
  destruct (forallb isUserActionContentBlock (content m)).
  - now rewrite (fold_left_acc _ userActionStep_acc).
  - now rewrite (fold_left_acc _ (blockStep_acc (role m))).
Qed.

Lemma blockStep_tool_result (r : Role) (id : string)
  (entries : list MessageContentBlock) :
  blockStep r [] (ToolResultContentBlock id entries)
  = flat_map (toolResultStep id []) entries.
Proof.
  unfold blockStep. now rewrite (fold_left_acc _ (toolResultStep_acc id)).
Qed.

Lemma Forall_flat_map {A B : Type} (P : B -> Prop) (f : A -> list B)
  (l : list A) :
  (forall x, In x l -> Forall P (f x)) -> Forall P (flat_map f l).
Proof.
  induction l as [|x l IH]; simpl; intros H; [constructor|].
  apply Forall_app. split; [apply H; now left|].
  apply IH. intros y Hy. apply H. now right.
Qed.

(** X1. The translation of a conversation is the translation of its
    first part followed by the translation of the rest: messages are
    translated one by one, and no message changes what another gives. *)
Theorem formatMessagesForOpenAI_app (first rest : list Message) :
  formatMessagesForOpenAI (first ++ rest)
  = (formatMessagesForOpenAI first ++ formatMessagesForOpenAI rest)%list.
Proof.
  rewrite !formatMessagesForOpenAI_flat_map. apply flat_map_app.
Qed.

Lemma userActionStep_shape (block : MessageContentBlock) :
  Forall (fun item => outbound_shape item = true) (userActionStep [] block).
Proof. destruct block; simpl; repeat constructor. Qed.

Lemma toolResultStep_shape (id : string) (entry : MessageContentBlock) :
  Forall (fun item => outbound_shape item = true)
    (toolResultStep id [] entry).
Proof. destruct entry; simpl; repeat constructor. Qed.

Lemma blockStep_shape (r : Role) (block : MessageContentBlock) :
  Forall (fun item => outbound_shape item = true) (blockStep r [] block).
Proof.
  destruct block; try solve [destruct r; simpl; repeat constructor].
  rewrite blockStep_tool_result. apply Forall_flat_map.
  intros entry _. apply toolResultStep_shape.
Qed.

(** X2. Every item that the outbound translation builds has one of six
    shapes: a message with exactly one entry (input text or high-detail
    image under role user, output text under role assistant), a function
    call, a function call output, or a reasoning item tagged reasoning
    with a payload and an empty summary.  It never builds a refusal, a
    message with no entry or several, or an item of another tag. *)
Theorem outbound_items_shape (messages : list Message) :
  Forall (fun item => outbound_shape item = true)
    (formatMessagesForOpenAI messages).
Proof.
  rewrite formatMessagesForOpenAI_flat_map. apply Forall_flat_map.
  intros m _. rewrite messageStep_cases.
  destruct (forallb isUserActionContentBlock (content m));
    apply Forall_flat_map; intros block _.
  - apply userActionStep_shape.
  - apply blockStep_shape.
Qed.

Lemma userActionStep_user (block : MessageContentBlock) :
  Forall
    (fun item =>
       is_function_call item = false /\ is_assistant_message item = false)
    (userActionStep [] block).
Proof. destruct block; simpl; repeat constructor. Qed.

Lemma toolResultStep_user (id : string) (entry : MessageContentBlock) :
  Forall
    (fun item =>
       is_function_call item = false /\ is_assistant_message item = false)
    (toolResultStep id [] entry).
Proof. destruct entry; simpl; repeat constructor. Qed.

(** X3. A conversation of USER messages only gives no function call item
    and no message item of role assistant: the tool uses at the top
    level of a USER message are left out, and its texts go under role
    user. *)
Theorem user_messages_items (messages : list Message) :
  Forall (fun m => role m = USER) messages ->
  Forall
    (fun item =>
       is_function_call item = false /\ is_assistant_message item = false)
    (formatMessagesForOpenAI messages).
Proof.
  intros H. rewrite formatMessagesForOpenAI_flat_map.
  apply Forall_flat_map. intros m Hm.
  rewrite Forall_forall in H. rewrite messageStep_cases, (H m Hm).
  destruct (forallb isUserActionContentBlock (content m));
    apply Forall_flat_map; intros block _.
  - apply userActionStep_user.
  - destruct block; try solve [simpl; repeat constructor].
    rewrite blockStep_tool_result. apply Forall_flat_map.
    intros entry _. apply toolResultStep_user.
Qed.

Lemma user_messages_items_witness :
  Forall (fun m => role m = USER)
    [{| role := USER;
        content := [TextContentBlock "go on";
                    ToolUseContentBlock "call_1" "computer_screenshot"
                      (JObject [])] |}]
  /\ Forall
       (fun item =>
          is_function_call item = false /\ is_assistant_message item = false)
       (formatMessagesForOpenAI
          [{| role := USER;
              content := [TextContentBlock "go on";
                          ToolUseContentBlock "call_1" "computer_screenshot"
                            (JObject [])] |}]).
Proof.
  split; [repeat constructor|].
  apply user_messages_items. repeat constructor.
Defined.

Lemma in_tool_use_ids (messages : list Message) (m : Message)
  (id name : string) (input : JSON.value) :
  In m messages -> role m = ASSISTANT ->
  In (ToolUseContentBlock id name input) (content m) ->
  In id (tool_use_ids messages).
Proof.
  intros Hm Hr Hb. unfold tool_use_ids. apply in_flat_map.
  exists m. split; [exact Hm|]. rewrite Hr. apply in_flat_map.
  exists (ToolUseContentBlock id name input). split; [exact Hb | now left].
Qed.

Lemma in_tool_result_ids (messages : list Message) (m : Message)
  (id : string) (entries : list MessageContentBlock) :
  In m messages ->
  In (ToolResultContentBlock id entries) (content m) ->
  In id (tool_result_ids messages).
Proof.
  intros Hm Hb. unfold tool_result_ids. apply in_flat_map.
  exists m. split; [exact Hm|]. apply in_flat_map.
  exists (ToolResultContentBlock id entries). split; [exact Hb | now left].
Qed.

(** X4. The translation invents no call id: the call id of every
    function call item is the id of a tool use at the top level of an
    ASSISTANT message of the conversation, and the call id of every
    function call output is the tool use id of a tool result at the top
    level of a message of the conversation. *)
Theorem call_ids_from_conversation (messages : list Message) :
  Forall (call_id_from messages) (formatMessagesForOpenAI messages).
Proof.
  rewrite formatMessagesForOpenAI_flat_map. apply Forall_flat_map.
  intros m Hm. rewrite messageStep_cases.
  destruct (forallb isUserActionContentBlock (content m));
    apply Forall_flat_map; intros block Hb.
  - destruct block; simpl; repeat constructor.
  - destruct block as [text|id name input|id entries|th sig|mt d|c|o].
    + destruct (role m); simpl; repeat constructor.
    + destruct (role m) eqn:Hr; simpl; repeat constructor.
      now apply (in_tool_use_ids messages m id name input).
    + rewrite blockStep_tool_result. apply Forall_flat_map.
      intros entry _.
      pose proof (in_tool_result_ids messages m id entries Hm Hb) as Hid.
      destruct entry; simpl; repeat constructor; exact Hid.
    + simpl. repeat constructor.
    + simpl. repeat constructor.
    + simpl. repeat constructor.
    + simpl. repeat constructor.
Qed.

Lemma toolResultItems_none (id : string) (entries : list MessageContentBlock) :
  forallb (fun entry => negb (is_result_entry entry)) entries = true ->
  flat_map (toolResultStep id []) entries = [].
Proof.
  induction entries as [|entry entries IH]; simpl; [reflexivity|].
  intros H. apply andb_prop in H as [He H]. rewrite (IH H).
  destruct entry; try discriminate; reflexivity.
Qed.

(** X5. A tool result none of whose entries is a text or an image, an
    empty tool result among them, gives no item at all: the conversation
    is translated as if the tool result were not there, and no function
    call output answers the tool use id. *)
Theorem tool_result_without_entries
  (before after : list Message) (r : Role)
  (bs1 bs2 entries : list MessageContentBlock) (tool_use_id : string) :
  forallb (fun entry => negb (is_result_entry entry)) entries = true ->
  formatMessagesForOpenAI
    (conversation before r bs1
       (ToolResultContentBlock tool_use_id entries) bs2 after)
  = around before r bs1 [] bs2 after.
Proof.
  intros H. rewrite switch_path_block by reflexivity.
  now rewrite blockStep_tool_result, toolResultItems_none.
Qed.

Lemma tool_result_without_entries_witness :
  forallb (fun entry => negb (is_result_entry entry))
    [ThinkingContentBlock "plan" "sig"; ToolUseContentBlock "a" "b" JNull]
  = true
  /\ formatMessagesForOpenAI
       (conversation [] USER []
          (ToolResultContentBlock "call_1"
             [ThinkingContentBlock "plan" "sig";
              ToolUseContentBlock "a" "b" JNull]) [] [])
     = around [] USER [] [] [] [].
Proof.
  split; [reflexivity|].
  apply tool_result_without_entries. reflexivity.
Defined.

(** X6. An image block at the top level of a message that is not made of
    user actions only has no case in the switch: it gives one user
    message whose only entry is an input text holding the JSON text of
    the block, not an image entry; the text parses back to the object
    of the block. *)
Theorem top_level_image_as_text
  (before after : list Message) (r : Role)
  (bs1 bs2 : list MessageContentBlock) (media_type data : string) :
  formatMessagesForOpenAI
    (conversation before r bs1 (ImageContentBlock media_type data) bs2 after)
  = around before r bs1
      [message user
         [input_text
            (stringify (block_object (ImageContentBlock media_type data)))]]
      bs2 after
  /\ JSON.parse
       (stringify (block_object (ImageContentBlock media_type data)))
     = Some (block_object (ImageContentBlock media_type data)).
Proof.
  split.
  - now rewrite switch_path_block.
  - apply JSONFacts.parse_stringify.
Qed.

(** ** Further properties of [formatOpenAIResponse] *)

Lemma contentStep_entry_blocks (part : ContentPart) :
  contentStep [] part = entry_blocks part.
Proof. destruct part; reflexivity. Qed.

Lemma itemStep_message (r : WireRole) (parts : list ContentPart)
  (this : OpenAIService) :
  itemStep [] (message r parts) this
  = (Return (flat_map entry_blocks parts), this).
Proof.
  unfold itemStep, ret. rewrite (fold_left_acc _ contentStep_acc). simpl.
  do 2 f_equal.
Qed.

Lemma itemStep_parses (item : WireItem) (this : OpenAIService) :
  parses item = true ->
  itemStep [] item this
  = (Return (item_blocks item),
     logged this (fallback_warnings [item])).
Proof.
  destruct item as [r parts|call_id name arguments|call_id output
                   |t id enc summary|object]; intros H.
  - rewrite itemStep_message. unfold fallback_warnings. simpl.
    now rewrite logged_nil.
  - unfold parses in H. unfold item_blocks, fallback_warnings. simpl.
    destruct (JSON.parse arguments) as [input|] eqn:E; [|discriminate].
    rewrite logged_nil. now apply itemStep_function_call_ok.
  - reflexivity.
  - rewrite itemStep_reasoning. unfold fallback_warnings. simpl.
    now rewrite logged_nil.
  - rewrite itemStep_other. reflexivity.
Qed.

Lemma fallback_warnings_app (l1 l2 : list WireItem) :
  fallback_warnings (l1 ++ l2)
  = (fallback_warnings l1 ++ fallback_warnings l2)%list.
Proof. unfold fallback_warnings. now rewrite filter_app, map_app. Qed.

Lemma formatOpenAIResponse_parses (response : list WireItem)
  (this : OpenAIService) :
  forallb parses response = true ->
  formatOpenAIResponse response this
  = (Return (flat_map item_blocks response),
     logged this (fallback_warnings response)).
Proof.
  revert this. induction response as [|item response IH]; intros this H.
  - unfold fallback_warnings. simpl. now rewrite logged_nil.
  - simpl in H. apply andb_prop in H as [Hi H].
    rewrite formatOpenAIResponse_cons. unfold followed_by, bind, ret.
    rewrite (itemStep_parses item this Hi), (IH _ H), logged_logged.
    change (item :: response) with ([item] ++ response)%list.
    now rewrite fallback_warnings_app.
Qed.

(** X7. When the arguments of every function call item of a response
    parse, the inbound translation returns the blocks of the items in
    order (the texts and refusals of a message, a refusal behind the
    prefix Refusal, its images left out; one tool use per function call;
    one thinking block per reasoning item with a payload; the JSON text
    of any other item) and appends to the logger one warning for each
    item that went to the fallback, in order, and nothing else. *)
Theorem inbound_blocks_and_warnings (response : list WireItem)
  (this : OpenAIService) :
  forallb parses response = true ->
  formatOpenAIResponse response this
  = (Return (flat_map item_blocks response),
     logged this (fallback_warnings response)).
Proof. apply formatOpenAIResponse_parses. Qed.

Lemma inbound_blocks_and_warnings_witness :
  forallb parses
    [message assistant [output_text "Done."; refusal_part "no"];
     function_call_output "call_1" "ok";
     function_call "call_2" "computer_screenshot" "{}"]
  = true
  /\ formatOpenAIResponse
       [message assistant [output_text "Done."; refusal_part "no"];
        function_call_output "call_1" "ok";
        function_call "call_2" "computer_screenshot" "{}"] new_service
     = (Return
          (flat_map item_blocks
             [message assistant [output_text "Done."; refusal_part "no"];
              function_call_output "call_1" "ok";
              function_call "call_2" "computer_screenshot" "{}"]),
        logged new_service
          (fallback_warnings
             [message assistant [output_text "Done."; refusal_part "no"];
              function_call_output "call_1" "ok";
              function_call "call_2" "computer_screenshot" "{}"])).
Proof.
  split; [reflexivity|].
  apply inbound_blocks_and_warnings. reflexivity.
Defined.

(** X8. The first function call item whose arguments do not parse
    decides the translation: it throws the syntax error of these
    arguments, returns none of the blocks built so far, and does not
    look at the items after it; the warnings of the items before it are
    in the logger by then. *)
Theorem inbound_first_malformed_call
  (before after : list WireItem) (call_id name arguments : string)
  (this : OpenAIService) :
  forallb parses before = true ->
  JSON.parse arguments = None ->
  formatOpenAIResponse
    (before ++ function_call call_id name arguments :: after) this
  = (Throw (SyntaxError arguments),
     logged this (fallback_warnings before)).
Proof.
  intros Hb Ha. rewrite formatOpenAIResponse_middle.
  unfold followed_by at 1. unfold bind at 1.
  rewrite (formatOpenAIResponse_parses before this Hb).
  unfold followed_by, bind.
  now rewrite (itemStep_function_call_error _ _ _ _ Ha).
Qed.

Lemma inbound_first_malformed_call_witness :
  forallb parses [other_item [("type", JString "mcp_call")]] = true
  /\ JSON.parse "{x" = None
  /\ formatOpenAIResponse
       ([other_item [("type", JString "mcp_call")]]
          ++ function_call "call_1" "computer_screenshot" "{x"
          :: [message assistant [output_text "after"]]) new_service
     = (Throw (SyntaxError "{x"),
        logged new_service
          (fallback_warnings [other_item [("type", JString "mcp_call")]])).
Proof.
  split; [reflexivity|]. split; [reflexivity|].
  apply inbound_first_malformed_call; reflexivity.
Defined.

Lemma item_blocks_shape (item : WireItem) :
  Forall (fun block => inbound_shape block = true) (item_blocks item).
Proof.
  destruct item as [r parts|call_id name arguments|call_id output
                   |t id enc summary|object]; simpl.
  - apply Forall_flat_map. intros part _.
    destruct part; simpl; repeat constructor.
  - destruct (JSON.parse arguments); repeat constructor.
  - repeat constructor.
  - destruct enc as [[|c s]|]; simpl; repeat constructor.
  - repeat constructor.
Qed.

Lemma itemStep_shape (item : WireItem) (this this' : OpenAIService)
  (new : list MessageContentBlock) :
  itemStep [] item this = (Return new, this') ->
  Forall (fun block => inbound_shape block = true) new.
Proof.
  destruct (parses item) eqn:E.
  - rewrite (itemStep_parses item this E). intros H.
    injection H as <- _. apply item_blocks_shape.
  - destruct item; try discriminate. unfold parses in E.
    destruct (JSON.parse arguments) eqn:Ha; [discriminate|].
    rewrite (itemStep_function_call_error _ _ _ _ Ha). discriminate.
Qed.

Lemma formatOpenAIResponse_shape (response : list WireItem)
  (this this' : OpenAIService) (blocks : list MessageContentBlock) :
  formatOpenAIResponse response this = (Return blocks, this') ->
  Forall (fun block => inbound_shape block = true) blocks.
Proof.
  revert this this' blocks. induction response as [|item response IH];
    intros this this' blocks.
  - intros H. injection H as <- _. constructor.
  - rewrite formatOpenAIResponse_cons. unfold followed_by, bind, ret.
    destruct (itemStep [] item this) as [[new|e] this1] eqn:E1;
      [|discriminate].
    destruct (formatOpenAIResponse response this1) as [[new2|e] this2] eqn:E2;
      [|discriminate].
    intros H. injection H as <- _. apply Forall_app. split.
    + exact (itemStep_shape _ _ _ _ E1).
    + exact (IH _ _ _ E2).
Qed.

(** X9. Whatever the response, the blocks that the inbound translation
    returns are texts, tool uses and thinking blocks only, and every
    thinking block among them has a payload that is not empty: it
    builds no image, no tool result and no user action. *)
Theorem inbound_blocks_shape (response : list WireItem)
  (this this' : OpenAIService) (blocks : list MessageContentBlock) :
  formatOpenAIResponse response this = (Return blocks, this') ->
  Forall (fun block => inbound_shape block = true) blocks.
Proof. apply formatOpenAIResponse_shape. Qed.

Lemma inbound_blocks_shape_witness :
  formatOpenAIResponse
    [reasoning_item reasoning "rs_1" (Some "payload") [];
     message assistant [output_text "Done."]] new_service
  = (Return [ThinkingContentBlock "payload" "rs_1"; TextContentBlock "Done."],
     new_service)
  /\ Forall (fun block => inbound_shape block = true)
       [ThinkingContentBlock "payload" "rs_1"; TextContentBlock "Done."].
Proof.
  split; [reflexivity|].
  exact (inbound_blocks_shape
           [reasoning_item reasoning "rs_1" (Some "payload") [];
            message assistant [output_text "Done."]]
           new_service new_service _ eq_refl).
Defined.

(** ** Outbound, then inbound *)

Lemma formatOpenAIResponse_returns (l1 l2 : list WireItem)
  (b1 b2 : list MessageContentBlock) :
  (forall this, formatOpenAIResponse l1 this = (Return b1, this)) ->
  (forall this, formatOpenAIResponse l2 this = (Return b2, this)) ->
  forall this,
    formatOpenAIResponse (l1 ++ l2) this = (Return (b1 ++ b2)%list, this).
Proof.
  intros H1 H2 this. rewrite formatOpenAIResponse_app.
  unfold followed_by, bind, ret. now rewrite H1, H2.
Qed.

Lemma echo_block (r : Role) (block : MessageContentBlock) :
  echoes r block = true ->
  forall this,
    formatOpenAIResponse (blockStep r [] block) this = (Return [block], this).
Proof.
  intros H this.
  destruct block as [text|id name input|id entries|[|c th] sig|mt d|c|o];
    try discriminate.
  - destruct r; reflexivity.
  - destruct r; [discriminate|].
    change (blockStep ASSISTANT [] (ToolUseContentBlock id name input))
      with [function_call id name (stringify input)].
    rewrite formatOpenAIResponse_cons. unfold followed_by, bind.
    rewrite (itemStep_function_call_ok _ _ _ input)
      by apply JSONFacts.parse_stringify.
    reflexivity.
  - reflexivity.
Qed.

Lemma echo_blocks (r : Role) (blocks : list MessageContentBlock) :
  forallb (echoes r) blocks = true ->
  forall this,
    formatOpenAIResponse (flat_map (blockStep r []) blocks) this
    = (Return blocks, this).
Proof.
  induction blocks as [|b blocks IH]; [reflexivity|].
  intros H. simpl in H. apply andb_prop in H as [Hb H].
  cbn [flat_map].
  apply (formatOpenAIResponse_returns _ _ [b] blocks).
  - now apply echo_block.
  - now apply IH.
Qed.

Lemma echo_message (m : Message) :
  forallb (echoes (role m)) (content m) = true ->
  forall this,
    formatOpenAIResponse (messageStep [] m) this = (Return (content m), this).
Proof.
  intros H. rewrite messageStep_cases.
  destruct (forallb isUserActionContentBlock (content m)) eqn:E.
  - destruct (content m) as [|b blocks]; [reflexivity|].
    destruct b; discriminate.
  - now apply echo_blocks.
Qed.

(** X10. A conversation made of texts, of tool uses in ASSISTANT
    messages and of thinking blocks with a payload comes back as it
    went: the inbound translation of its outbound translation returns
    the blocks of the messages in order, equal to the originals (the
    input of a tool use through [JSON.stringify] and [JSON.parse]),
    throws nothing and logs nothing. *)
Theorem conversation_echo (messages : list Message) (this : OpenAIService) :
  forallb (fun m => forallb (echoes (role m)) (content m)) messages = true ->
  formatOpenAIResponse (formatMessagesForOpenAI messages) this
  = (Return (flat_map content messages), this).
Proof.
  rewrite formatMessagesForOpenAI_flat_map. revert this.
  induction messages as [|m messages IH]; intros this H; [reflexivity|].
  simpl in H. apply andb_prop in H as [Hm H]. cbn [flat_map].
  apply formatOpenAIResponse_returns.
  - now apply echo_message.
  - intros this1. now apply IH.
Qed.

Lemma conversation_echo_witness :
  forallb (fun m => forallb (echoes (role m)) (content m))
    [{| role := USER; content := [TextContentBlock "take a screenshot"] |};
     {| role := ASSISTANT;
        content := [ThinkingContentBlock "payload" "rs_1";
                    ToolUseContentBlock "call_1" "computer_screenshot"
                      (JObject [("wait", JBool true)])] |}]
  = true
  /\ formatOpenAIResponse
       (formatMessagesForOpenAI
          [{| role := USER; content := [TextContentBlock "take a screenshot"] |};
           {| role := ASSISTANT;
              content := [ThinkingContentBlock "payload" "rs_1";
                          ToolUseContentBlock "call_1" "computer_screenshot"
                            (JObject [("wait", JBool true)])] |}])
       new_service
     = (Return
          (flat_map content
             [{| role := USER;
                 content := [TextContentBlock "take a screenshot"] |};
              {| role := ASSISTANT;
                 content := [ThinkingContentBlock "payload" "rs_1";
                             ToolUseContentBlock "call_1" "computer_screenshot"
                               (JObject [("wait", JBool true)])] |}]),
        new_service).
Proof.
  split; [reflexivity|].
  apply conversation_echo. reflexivity.
Defined.

Lemma reply_items (blocks : list MessageContentBlock) :
  Forall (fun block => inbound_shape block = true) blocks ->
  messageStep [] {| role := ASSISTANT; content := blocks |}
  = map reply_item blocks.
Proof.
  intros H. rewrite messageStep_cases. cbn [role content].
  destruct (forallb isUserActionContentBlock blocks) eqn:E.
  - destruct blocks as [|b blocks]; [reflexivity|].
    inversion H as [|? ? Hb _]; subst. destruct b; discriminate.
  - clear E. induction H as [|b blocks Hb _ IH]; [reflexivity|].
    cbn [flat_map map]. rewrite IH.
    destruct b; try discriminate; reflexivity.
Qed.

(** X23. What a response said goes into the next request whole: when
    the blocks that the inbound translation returned are the content of
    an ASSISTANT message of a conversation, the outbound translation
    gives one item for each block, in order, at the place of the
    message: an assistant message with the text for a text, a function
    call with the JSON text of the input for a tool use, a reasoning
    item with the payload for a thinking block. *)
Theorem reply_in_next_request (response : list WireItem)
  (this this' : OpenAIService) (blocks : list MessageContentBlock)
  (before after : list Message) :
  formatOpenAIResponse response this = (Return blocks, this') ->
  formatMessagesForOpenAI
    (before ++ {| role := ASSISTANT; content := blocks |} :: after)
  = (formatMessagesForOpenAI before ++ map reply_item blocks
       ++ formatMessagesForOpenAI after)%list
  /\ Forall
       (fun item =>
          is_function_call item = true
          \/ is_assistant_message item = true
          \/ exists id payload,
              item = reasoning_item reasoning id (Some payload) [])
       (map reply_item blocks).
Proof.
  intros H.
  assert (Hs : Forall (fun block => inbound_shape block = true) blocks)
    by exact (formatOpenAIResponse_shape _ _ _ _ H).
  split.
  - now rewrite formatMessagesForOpenAI_middle, reply_items.
  - clear H. induction Hs as [|b blocks Hb _ IH]; [constructor|].
    cbn [map]. constructor; [|exact IH].
    destruct b; try discriminate; simpl; eauto.
Qed.

Lemma reply_in_next_request_witness :
  formatOpenAIResponse
    [reasoning_item reasoning "rs_1" (Some "payload") ["thought"];
     function_call "call_1" "computer_screenshot" "{ }"] new_service
  = (Return
       [ThinkingContentBlock "payload" "rs_1";
        ToolUseContentBlock "call_1" "computer_screenshot" (JObject [])],
     new_service)
  /\ formatMessagesForOpenAI
       ([] ++ {| role := ASSISTANT;
                 content :=
                   [ThinkingContentBlock "payload" "rs_1";
                    ToolUseContentBlock "call_1" "computer_screenshot"
                      (JObject [])] |} :: [])
     = (formatMessagesForOpenAI []
          ++ map reply_item
               [ThinkingContentBlock "payload" "rs_1";
                ToolUseContentBlock "call_1" "computer_screenshot"
                  (JObject [])]
          ++ formatMessagesForOpenAI [])%list.
Proof.
  split; [reflexivity|].
  exact (proj1
           (reply_in_next_request
              [reasoning_item reasoning "rs_1" (Some "payload") ["thought"];
               function_call "call_1" "computer_screenshot" "{ }"]
              new_service new_service _ [] [] eq_refl)).
Defined.

(** ** The model list *)

Lemma startsWith_app (s p q : string) :
  startsWith s (p ++ q) = true -> startsWith s p = true.
Proof.
  revert s. induction p as [|a p IH]; intros s; simpl; [reflexivity|].
  destruct s as [|b s]; [discriminate|].
  intros H. apply andb_prop in H as [-> H]. simpl. now apply IH.
Qed.

Lemma includes_app (s p q : string) :
  includes s (p ++ q) = true -> includes s p = true.
Proof.
  induction s as [|c s IH]; simpl; intros H.
  - rewrite orb_false_r in *. now apply (startsWith_app _ p q).
  - apply orb_prop in H as [H|H].
    + now rewrite (startsWith_app _ p q H).
    + rewrite (IH H). apply orb_true_r.
Qed.

Lemma startsWith_includes (s p : string) :
  startsWith s p = true -> includes s p = true.
Proof. intros H. destruct s; simpl; now rewrite H. Qed.

Section SortByKey.
Context {A : Type} (key : A -> Z).
Let compare (a b : A) : Z := (key a - key b)%Z.

Lemma sort_insert_permutation (x : A) (l : list A) :
  Permutation (sort_insert compare x l) (x :: l).
Proof.
  induction l as [|y l IH]; simpl; [reflexivity|].
  destruct (compare x y <=? 0)%Z; [reflexivity|].
  rewrite IH. apply perm_swap.
Qed.

Lemma sort_permutation (l : list A) : Permutation (sort compare l) l.
Proof.
  induction l as [|x l IH]; simpl; [reflexivity|].
  rewrite sort_insert_permutation. now constructor.
Qed.

Lemma sort_insert_sorted (x : A) (l : list A) :
  StronglySorted (fun a b => (key a <= key b)%Z) l ->
  StronglySorted (fun a b => (key a <= key b)%Z) (sort_insert compare x l).
Proof.
  induction 1 as [|y l Hl IH Hy]; simpl.
  - repeat constructor.
  - unfold compare at 1. destruct (key x - key y <=? 0)%Z eqn:E.
    + apply Z.leb_le in E. constructor; [now constructor|].
      constructor; [lia|].
      eapply Forall_impl; [|exact Hy]. simpl. intros a Ha. lia.
    + apply Z.leb_gt in E. constructor; [exact IH|].
      apply (Permutation_Forall (Permutation_sym (sort_insert_permutation x l))).
      constructor; [lia | exact Hy].
Qed.

Lemma sort_sorted (l : list A) :
  StronglySorted (fun a b => (key a <= key b)%Z) (sort compare l).
Proof.
  induction l as [|x l IH]; simpl; [constructor|].
  now apply sort_insert_sorted.
Qed.

Lemma sort_insert_stable (k : Z) (x : A) (l : list A) :
  filter (fun a => (key a =? k)%Z) (sort_insert compare x l)
  = filter (fun a => (key a =? k)%Z) (x :: l).
Proof.
  induction l as [|y l IH]; [reflexivity|].
  cbn [sort_insert]. unfold compare at 1.
  destruct (key x - key y <=? 0)%Z eqn:E; [reflexivity|].
  apply Z.leb_gt in E. cbn [filter] in *. rewrite IH.
  destruct (key x =? k)%Z eqn:Ex; [|reflexivity].
  apply Z.eqb_eq in Ex.
  destruct (key y =? k)%Z eqn:Ey; [|reflexivity].
  apply Z.eqb_eq in Ey. lia.
Qed.

Lemma sort_stable (k : Z) (l : list A) :
  filter (fun a => (key a =? k)%Z) (sort compare l)
  = filter (fun a => (key a =? k)%Z) l.
Proof.
  induction l as [|x l IH]; [reflexivity|].
  cbn [sort fold_right]. rewrite sort_insert_stable.
  cbn [filter]. fold (sort compare l). now rewrite IH.
Qed.
End SortByKey.

Lemma filter_map_model_of (p : Z) (ids : list string) :
  filter (fun m => (priority (model_name m) =? p)%Z) (map model_of ids)
  = map model_of (filter (fun id => (priority id =? p)%Z) ids).
Proof.
  induction ids as [|id ids IH]; simpl; [reflexivity|].
  destruct (priority id =? p)%Z; simpl; now rewrite IH.
Qed.

Lemma filter_filter {A : Type} (p q : A -> bool) (l : list A) :
  filter q (filter p l) = filter (fun x => p x && q x) l.
Proof.
  induction l as [|x l IH]; simpl; [reflexivity|].
  destruct (p x); simpl; [destruct (q x)|]; now rewrite IH.
Qed.

(** X11. The list that [getAvailableModels] builds from the ids of the
    endpoint holds one model for each id that passes the filter,
    nothing lost and nothing added; it is in the order of the priority
    (gpt-4o, then gpt-4.1, then gpt-4, then gpt-5, then the rest); and
    the models of one priority stay in the order of the endpoint. *)
Theorem available_models_order (ids : list string) :
  Permutation (availableModels_of ids) (map model_of (filter suitable ids))
  /\ StronglySorted
       (fun a b => (priority (model_name a) <= priority (model_name b))%Z)
       (availableModels_of ids)
  /\ forall p : Z,
       filter (fun m => (priority (model_name m) =? p)%Z)
         (availableModels_of ids)
       = map model_of
           (filter (fun id => suitable id && (priority id =? p)%Z) ids).
Proof.
  unfold availableModels_of, by_priority. split; [|split].
  - apply (sort_permutation (fun m => priority (model_name m))).
  - apply (sort_sorted (fun m => priority (model_name m))).
  - intros p.
    rewrite (sort_stable (fun m => priority (model_name m))).
    now rewrite filter_map_model_of, filter_filter.
Qed.

Lemma suitable_startsWith (id : string) :
  suitable id = true -> startsWith id "gpt-" = true.
Proof.
  unfold suitable. intros H.
  apply andb_prop in H as [H _]. now apply andb_prop in H as [H _].
Qed.

Lemma availableModels_of_names (ids : list string) :
  Forall (fun m => startsWith (model_name m) "gpt-" = true)
    (availableModels_of ids).
Proof.
  unfold availableModels_of, by_priority.
  apply (Permutation_Forall
           (Permutation_sym
              (sort_permutation (fun m => priority (model_name m)) _))).
  apply Forall_forall. intros m Hm. apply in_map_iff in Hm as (id & <- & Hid).
  apply filter_In in Hid as [_ Hid]. now apply suitable_startsWith.
Qed.

Lemma availableModels_of_length (ids : list string) :
  length (availableModels_of ids) = length (filter suitable ids).
Proof.
  unfold availableModels_of, by_priority.
  rewrite (Permutation_length
             (sort_permutation (fun m => priority (model_name m)) _)).
  apply length_map.
Qed.

Lemma availableModels_of_found (ids : list string) :
  (0 <? length (availableModels_of ids))%nat = existsb suitable ids.
Proof.
  rewrite availableModels_of_length.
  induction ids as [|id ids IH]; simpl; [reflexivity|].
  destruct (suitable id); simpl; [reflexivity | exact IH].
Qed.

Lemma OPENAI_MODELS_listable : listable OPENAI_MODELS.
Proof. split; [discriminate | repeat constructor]. Qed.

(** What the [try] block comes to, by the line of its fall back. *)
Lemma fetchModels_cases (now : Z) (apiKey : option string)
  (modelsList : ModelsList) (this : OpenAIService) :
  fetchModels now apiKey modelsList this
  = match fallback_line apiKey modelsList with
    | Some line => (Return OPENAI_MODELS, logged this [line])
    | None =>
        match modelsList with
        | models_listed ids =>
            (Return (availableModels_of ids),
             fetched this (availableModels_of ids) now)
        | models_failed _ => (Return OPENAI_MODELS, this)
        end
    end.
Proof.
  unfold fetchModels, fallback_line.
  destruct (truthy apiKey); simpl; [|reflexivity].
  destruct modelsList as [ids|error_text]; [|reflexivity].
  rewrite availableModels_of_found.
  destruct (existsb suitable ids); reflexivity.
Qed.

Lemma getAvailableModels_cases (now : Z) (apiKey : option string)
  (modelsList : ModelsList) (this : OpenAIService) :
  getAvailableModels now apiKey modelsList this
  = if serves_cache this now then
      match cachedModels this with
      | Some cached => (Return cached, this)
      | None => (Return [], this)
      end
    else fetchModels now apiKey modelsList this.
Proof.
  unfold getAvailableModels, serves_cache.
  destruct (cachedModels this) as [cached|]; [|reflexivity].
  destruct (now - modelsCacheTime this <? CACHE_DURATION)%Z; reflexivity.
Qed.

Lemma getAvailableModels_listable (now : Z) (apiKey : option string)
  (modelsList : ModelsList) (this : OpenAIService) :
  cache_listable this ->
  exists models this',
    getAvailableModels now apiKey modelsList this = (Return models, this')
    /\ listable models
    /\ cache_listable this'.
Proof.
  intros Hc. rewrite getAvailableModels_cases.
  destruct (serves_cache this now) eqn:Es.
  - unfold serves_cache in Es. unfold cache_listable in Hc.
    destruct (cachedModels this) as [cached|] eqn:Ec; [|discriminate].
    exists cached, this. repeat split; try apply Hc.
    unfold cache_listable. now rewrite Ec.
  - rewrite fetchModels_cases.
    destruct (fallback_line apiKey modelsList) as [line|] eqn:El.
    + exists OPENAI_MODELS, (logged this [line]).
      repeat split; try apply OPENAI_MODELS_listable. exact Hc.
    + unfold fallback_line in El.
      destruct (truthy apiKey); [|discriminate]. simpl in El.
      destruct modelsList as [ids|error_text]; [|discriminate].
      destruct (existsb suitable ids) eqn:Ef; [|discriminate].
      assert (Hl : listable (availableModels_of ids)).
      { split; [|apply availableModels_of_names].
        intros Hnil. rewrite <- availableModels_of_found, Hnil in Ef.
        discriminate. }
      exists (availableModels_of ids),
        (fetched this (availableModels_of ids) now).
      repeat split; try apply Hl.
Qed.

(** X12. [getAvailableModels] never throws and never returns an empty
    list, and the name of every model it returns starts with gpt-: this
    holds of the service object as its constructor leaves it and of any
    service object whose cache is empty or holds such a list, and the
    call leaves the cache empty or holding such a list, whatever the
    clock, the key and the endpoint. *)
Theorem models_always_listable (now : Z) (apiKey : option string)
  (modelsList : ModelsList) (this : OpenAIService) :
  cache_listable this ->
  exists models this',
    getAvailableModels now apiKey modelsList this = (Return models, this')
    /\ listable models
    /\ cache_listable this'.
Proof. apply getAvailableModels_listable. Qed.

Lemma models_always_listable_witness :
  cache_listable new_service
  /\ exists models this',
      getAvailableModels 1700000000000 (Some "sk-key")
        (models_listed ["o3"; "gpt-4.1"; "gpt-4o"]) new_service
      = (Return models, this')
      /\ listable models
      /\ cache_listable this'.
Proof.
  split; [exact I|].
  apply models_always_listable. exact I.
Defined.

(** X13. A list that was fetched is served from the cache for the next
    hour: when the cache is not served, the key is set and some id of
    the endpoint is suitable, the call returns the list built from the
    ids, stores it with the time of the call and logs how many models
    it fetched; any call whose clock is less than [CACHE_DURATION]
    after that time returns the same list and changes nothing, whatever
    the key and the endpoint are by then. *)
Theorem fetched_models_are_cached
  (now now' : Z) (apiKey apiKey' : option string) (ids : list string)
  (modelsList' : ModelsList) (this : OpenAIService) :
  serves_cache this now = false ->
  truthy apiKey = true ->
  existsb suitable ids = true ->
  (now' - now < CACHE_DURATION)%Z ->
  getAvailableModels now apiKey (models_listed ids) this
  = (Return (availableModels_of ids),
     fetched this (availableModels_of ids) now)
  /\ getAvailableModels now' apiKey' modelsList'
       (fetched this (availableModels_of ids) now)
     = (Return (availableModels_of ids),
        fetched this (availableModels_of ids) now).
Proof.
  intros Hs Hk Hf Hn. split.
  - rewrite getAvailableModels_cases, Hs, fetchModels_cases.
    unfold fallback_line. now rewrite Hk, Hf.
  - rewrite getAvailableModels_cases. unfold serves_cache. simpl.
    apply Z.ltb_lt in Hn. now rewrite Hn.
Qed.

Lemma fetched_models_are_cached_witness :
  serves_cache new_service 1700000000000 = false
  /\ truthy (Some "sk-key") = true
  /\ existsb suitable ["o3"; "gpt-4.1"; "gpt-4o"] = true
  /\ (1700003599999 - 1700000000000 < CACHE_DURATION)%Z
  /\ getAvailableModels 1700000000000 (Some "sk-key")
       (models_listed ["o3"; "gpt-4.1"; "gpt-4o"]) new_service
     = (Return (availableModels_of ["o3"; "gpt-4.1"; "gpt-4o"]),
        fetched new_service (availableModels_of ["o3"; "gpt-4.1"; "gpt-4o"])
          1700000000000)
  /\ getAvailableModels 1700003599999 None (models_failed "offline")
       (fetched new_service (availableModels_of ["o3"; "gpt-4.1"; "gpt-4o"])
          1700000000000)
     = (Return (availableModels_of ["o3"; "gpt-4.1"; "gpt-4o"]),
        fetched new_service (availableModels_of ["o3"; "gpt-4.1"; "gpt-4o"])
          1700000000000).
Proof.
  split; [reflexivity|]. split; [reflexivity|]. split; [reflexivity|].
  split; [reflexivity|].
  apply fetched_models_are_cached; reflexivity.
Defined.

(** X14. When the cache is not served and the fetch gives nothing (the
    key is not set, the endpoint fails, or none of its ids is
    suitable), [getAvailableModels] returns the hard-coded list, not
    the list of an expired cache; it logs one line, a warning or an
    error, and changes neither the cached list nor its time: the
    fall back is not cached, and the next call tries again. *)
Theorem fallback_is_not_cached
  (now : Z) (apiKey : option string) (modelsList : ModelsList)
  (line : LogLevel * string) (this : OpenAIService) :
  serves_cache this now = false ->
  fallback_line apiKey modelsList = Some line ->
  getAvailableModels now apiKey modelsList this
  = (Return OPENAI_MODELS, logged this [line])
  /\ forall now',
       serves_cache (logged this [line]) now' = serves_cache this now'.
Proof.
  intros Hs Hl. split.
  - now rewrite getAvailableModels_cases, Hs, fetchModels_cases, Hl.
  - reflexivity.
Qed.

Lemma fallback_is_not_cached_witness :
  serves_cache
    {| cachedModels := Some [model_of "gpt-5"]; modelsCacheTime := 1000;
       logger := [] |} 3601000 = false
  /\ fallback_line (Some "sk-key") (models_failed "offline")
     = Some (ERROR, "Failed to fetch models from OpenAI: offline")
  /\ getAvailableModels 3601000 (Some "sk-key") (models_failed "offline")
       {| cachedModels := Some [model_of "gpt-5"]; modelsCacheTime := 1000;
          logger := [] |}
     = (Return OPENAI_MODELS,
        logged
          {| cachedModels := Some [model_of "gpt-5"]; modelsCacheTime := 1000;
             logger := [] |}
          [(ERROR, "Failed to fetch models from OpenAI: offline")]).
Proof.
  split; [reflexivity|]. split; [reflexivity|].
  exact (proj1
           (fallback_is_not_cached 3601000 (Some "sk-key")
              (models_failed "offline")
              (ERROR, "Failed to fetch models from OpenAI: offline")
              {| cachedModels := Some [model_of "gpt-5"];
                 modelsCacheTime := 1000; logger := [] |}
              eq_refl eq_refl)).
Defined.

Lemma replace_hyphens_none (s : string) :
  includes (replace_hyphens s) "-" = false.
Proof.
  induction s as [|c s IH]; [reflexivity|].
  cbn [replace_hyphens includes startsWith]. rewrite IH, orb_false_r.
  destruct (Ascii.eqb c "-") eqn:E; [reflexivity|].
  now rewrite Ascii.eqb_sym, E.
Qed.

Lemma length_replace_hyphens (s : string) :
  String.length (replace_hyphens s) = String.length s.
Proof. induction s as [|c s IH]; simpl; [reflexivity | now rewrite IH]. Qed.

Lemma length_titlePart (part : string) :
  String.length (titlePart part) = String.length part.
Proof.
  unfold titlePart. destruct (String.eqb part "gpt") eqn:E.
  - apply String.eqb_eq in E. now subst part.
  - destruct part as [|c rest]; [reflexivity|].
    destruct (is_digit c); reflexivity.
Qed.

Lemma length_concat_pieces (sep : ascii) (pieces : list string) :
  String.length (String.concat (String sep EmptyString) pieces)
  = joined_length pieces.
Proof.
  unfold joined_length.
  induction pieces as [|p pieces IH]; [reflexivity|].
  destruct pieces as [|p' pieces].
  - simpl. lia.
  - change (String.concat (String sep EmptyString) (p :: p' :: pieces))
      with (p ++ String sep EmptyString
              ++ String.concat (String sep EmptyString) (p' :: pieces)).
    rewrite !JSONFacts.length_append, IH. simpl. lia.
Qed.

Lemma split_joined_length (sep : ascii) (s : string) :
  joined_length (split sep s) = String.length s /\ split sep s <> [].
Proof.
  unfold joined_length. induction s as [|c s [IH Hn]]; simpl.
  - split; [reflexivity | discriminate].
  - destruct (Ascii.eqb c sep).
    + split; [|discriminate].
      destruct (split sep s) as [|p ps]; [contradiction|].
      simpl in *. lia.
    + destruct (split sep s) as [|p ps]; [contradiction|].
      split; [|discriminate]. simpl in *. lia.
Qed.

Lemma joined_length_titlePart (pieces : list string) :
  joined_length (map titlePart pieces) = joined_length pieces.
Proof.
  unfold joined_length. rewrite length_map, map_map. do 2 f_equal.
  apply map_ext. intros p. apply length_titlePart.
Qed.

(** X15. The title that [formatModelTitle] gives to an ASCII model id
    is as long as the id and holds no hyphen, every hyphen of the id
    having become a space: for gpt-4o-mini it is GPT 4o Mini.  So it is
    never one of the titles of the hard-coded list, which all hold a
    hyphen: the same model is titled differently when the list is
    fetched and when it is the fall back. *)
Theorem model_title_without_hyphen (modelId : string) :
  is_ascii modelId = true ->
  includes (formatModelTitle modelId) "-" = false
  /\ String.length (formatModelTitle modelId) = String.length modelId
  /\ Forall (fun m => title m <> formatModelTitle modelId) OPENAI_MODELS.
Proof.
  intros _. assert (H : includes (formatModelTitle modelId) "-" = false)
    by apply replace_hyphens_none.
  split; [exact H|]. split.
  - unfold formatModelTitle.
    rewrite length_replace_hyphens, length_concat_pieces.
    rewrite joined_length_titlePart. apply split_joined_length.
  - repeat constructor; intros E; rewrite <- E in H; discriminate.
Qed.

Lemma model_title_without_hyphen_witness :
  is_ascii "gpt-4o-mini" = true
  /\ formatModelTitle "gpt-4o-mini" = "GPT 4o Mini"
  /\ includes (formatModelTitle "gpt-4o-mini") "-" = false.
Proof.
  split; [reflexivity|]. split; [reflexivity|].
  exact (proj1 (model_title_without_hyphen "gpt-4o-mini" eq_refl)).
Defined.

(** X16. A model id that includes gpt-4.1, and neither gpt-4o nor
    gpt-4-turbo, is given the context window of gpt-4, 8192 tokens,
    because it includes gpt-4; the sort ranks it second, after the
    gpt-4o models and before the other gpt-4 models. *)
Theorem gpt_4_1_context_window (modelId : string) :
  includes modelId "gpt-4.1" = true ->
  includes modelId "gpt-4o" = false ->
  includes modelId "gpt-4-turbo" = false ->
  getContextWindow modelId = 8192%Z /\ priority modelId = 1%Z.
Proof.
  intros H41 H4o H4t. unfold getContextWindow, priority.
  rewrite H4o, H4t, H41.
  now rewrite (includes_app modelId "gpt-4" ".1" H41).
Qed.

Lemma gpt_4_1_context_window_witness :
  includes "gpt-4.1-mini" "gpt-4.1" = true
  /\ includes "gpt-4.1-mini" "gpt-4o" = false
  /\ includes "gpt-4.1-mini" "gpt-4-turbo" = false
  /\ getContextWindow "gpt-4.1-mini" = 8192%Z
  /\ priority "gpt-4.1-mini" = 1%Z.
Proof.
  split; [reflexivity|]. split; [reflexivity|]. split; [reflexivity|].
  apply gpt_4_1_context_window; reflexivity.
Defined.

(** ** [generateMessage] *)

Lemma startsWith_gpt_not_o (name : string) :
  startsWith name "gpt-" = true -> startsWith name "o" = false.
Proof.
  destruct name as [|c name]; [discriminate|].
  cbn [startsWith]. intros H. apply andb_prop in H as [E _].
  apply Ascii.eqb_eq in E. now subst c.
Qed.

Lemma handler_abort (syntax_message syntax_stack : string -> string)
  (error : ErrorObject) (this : OpenAIService)
  (console : list (list ConsoleValue)) :
  handler syntax_message syntax_stack (caught_abort error) this console
  = (Raised BytebotAgentInterrupt,
     logged this [(LOG, "OpenAI API call aborted")],
     (console ++ console_lines (error_name error) (caught_abort error))%list).
Proof.
  unfold handler, console_lines, logged, logger_log.
  cbn [snd name_of]. unfold push. now rewrite <- List.app_assoc.
Qed.

Lemma handler_rethrows (syntax_message syntax_stack : string -> string)
  (error : Caught) (this : OpenAIService)
  (console : list (list ConsoleValue)) :
  (forall e, error <> caught_abort e) ->
  handler syntax_message syntax_stack error this console
  = (Raised (rethrown error),
     logged this
       [(ERROR,
         "Error sending message to OpenAI: "
           ++ message_of syntax_message error);
        (ERROR, stack_of syntax_stack error)],
     (console ++ console_lines (name_of error) error)%list).
Proof.
  intros H. destruct error as [e|e|e]; [now elim (H e)| |];
    unfold handler, console_lines, logged, logger_error, bind;
    cbn [snd cachedModels modelsCacheTime logger]; unfold push;
    now rewrite <- !List.app_assoc.
Qed.

(** X17. No model that [getAvailableModels] lists is taken for a
    reasoning model by [generateMessage]: for the name of any model of
    the list it returns, the request asks for no reasoning effort and
    includes no encrypted reasoning content. *)
Theorem listed_model_without_reasoning {Tool : Type}
  (openaiTools : list Tool) (now : Z) (apiKey : option string)
  (modelsList : ModelsList) (this this' : OpenAIService)
  (models : list BytebotAgentModel) (m : BytebotAgentModel)
  (systemPrompt : string) (messages : list Message)
  (useTools : option bool) :
  cache_listable this ->
  getAvailableModels now apiKey modelsList this = (Return models, this') ->
  In m models ->
  ResponseCreateParams.reasoning
    (request openaiTools systemPrompt messages (Some (model_name m)) useTools)
  = None
  /\ ResponseCreateParams.include
       (request openaiTools systemPrompt messages (Some (model_name m))
          useTools)
     = [].
Proof.
  intros Hc Hg Hm.
  destruct (getAvailableModels_listable now apiKey modelsList this Hc)
    as (models0 & this0 & Hg0 & [_ Hl] & _).
  rewrite Hg in Hg0. injection Hg0 as <- _.
  rewrite Forall_forall in Hl. specialize (Hl m Hm).
  unfold request.
  cbn [ResponseCreateParams.reasoning ResponseCreateParams.include].
  now rewrite (startsWith_gpt_not_o _ Hl).
Qed.

Lemma listed_model_without_reasoning_witness :
  cache_listable new_service
  /\ getAvailableModels 0 None (models_listed []) new_service
     = (Return OPENAI_MODELS,
        logged new_service
          [(WARN, "OPENAI_API_KEY not set, returning hardcoded models")])
  /\ In DEFAULT_MODEL OPENAI_MODELS
  /\ ResponseCreateParams.reasoning
       (request (@nil unit) "prompt" [] (Some (model_name DEFAULT_MODEL)) None)
     = None.
Proof.
  split; [exact I|]. split; [reflexivity|]. split; [now left|].
  exact (proj1
           (listed_model_without_reasoning (@nil unit) 0 None
              (models_listed []) new_service _ OPENAI_MODELS DEFAULT_MODEL
              "prompt" [] None I eq_refl (or_introl eq_refl))).
Defined.

(** X18. When the endpoint answers and the arguments of every function
    call of the answer parse, [generateMessage] returns the blocks of
    the items of the answer in order with the token usage of the
    answer, each count zero when the answer has no usage; the logger
    gets the warnings of the fall back of the inbound translation and
    nothing else, and nothing is written on the console. *)
Theorem generateMessage_returns {Tool AbortSignal : Type}
  (openaiTools : list Tool) (syntax_message syntax_stack : string -> string)
  (create : ResponseCreateParams.t Tool -> option AbortSignal -> CreateResult)
  (systemPrompt : string) (messages : list Message)
  (model : option string) (useTools : option bool)
  (signal : option AbortSignal) (response : Response)
  (this : OpenAIService) (console : list (list ConsoleValue)) :
  create (request openaiTools systemPrompt messages model useTools) signal
  = created response ->
  forallb parses (output response) = true ->
  generateMessage openaiTools syntax_message syntax_stack create
    systemPrompt messages model useTools signal this console
  = (Returned
       {| contentBlocks := flat_map item_blocks (output response);
          tokenUsage := usage_of response |},
     logged this (fallback_warnings (output response)), console).
Proof.
  intros Hc Hp. unfold generateMessage. rewrite Hc.
  rewrite (formatOpenAIResponse_parses _ this Hp).
  unfold usage_of. destruct (usage response); reflexivity.
Qed.

Lemma generateMessage_returns_witness :
  forallb parses [function_call "call_1" "computer_screenshot" "{}"] = true
  /\ generateMessage (@nil unit) (fun text => text) (fun text => text)
       (fun _ (_ : option unit) =>
          created
            {| output := [function_call "call_1" "computer_screenshot" "{}"];
               usage := None |})
       "prompt" [] None None None new_service []
     = (Returned
          {| contentBlocks :=
               flat_map item_blocks
                 [function_call "call_1" "computer_screenshot" "{}"];
             tokenUsage :=
               {| inputTokens := 0; outputTokens := 0; totalTokens := 0 |} |},
        logged new_service
          (fallback_warnings
             [function_call "call_1" "computer_screenshot" "{}"]), []).
Proof.
  split; [reflexivity|].
  exact (generateMessage_returns (@nil unit) (fun text => text)
           (fun text => text)
           (fun _ (_ : option unit) =>
              created
                {| output :=
                     [function_call "call_1" "computer_screenshot" "{}"];
                   usage := None |})
           "prompt" [] None None None _ new_service [] eq_refl eq_refl).
Defined.

(** X19. When the answer of the endpoint holds a function call whose
    arguments do not parse, [generateMessage] returns nothing of the
    answer, neither the blocks before that item nor the token usage: it
    throws the syntax error of [JSON.parse] itself, not an interrupt,
    after two lines on the console and the error with its stack in the
    logger. *)
Theorem generateMessage_malformed_arguments {Tool AbortSignal : Type}
  (openaiTools : list Tool) (syntax_message syntax_stack : string -> string)
  (create : ResponseCreateParams.t Tool -> option AbortSignal -> CreateResult)
  (systemPrompt : string) (messages : list Message)
  (model : option string) (useTools : option bool)
  (signal : option AbortSignal) (response : Response)
  (before after : list WireItem) (call_id name arguments : string)
  (this : OpenAIService) (console : list (list ConsoleValue)) :
  create (request openaiTools systemPrompt messages model useTools) signal
  = created response ->
  output response
  = (before ++ function_call call_id name arguments :: after)%list ->
  forallb parses before = true ->
  JSON.parse arguments = None ->
  generateMessage openaiTools syntax_message syntax_stack create
    systemPrompt messages model useTools signal this console
  = (Raised (rethrown (caught_syntax (SyntaxError arguments))),
     logged this
       (fallback_warnings before
          ++ [(ERROR,
               "Error sending message to OpenAI: " ++ syntax_message arguments);
              (ERROR, syntax_stack arguments)]),
     (console
        ++ console_lines "SyntaxError"
             (caught_syntax (SyntaxError arguments)))%list).
Proof.
  intros Hc Ho Hb Ha. unfold generateMessage. rewrite Hc, Ho.
  rewrite (formatOpenAIResponse_middle before after).
  unfold followed_by at 1. unfold bind at 1.
  rewrite (formatOpenAIResponse_parses before this Hb).
  unfold followed_by, bind.
  rewrite (itemStep_function_call_error _ _ _ _ Ha).
  unfold throw. rewrite handler_rethrows by (intros e; discriminate).
  now rewrite logged_logged.
Qed.

Lemma generateMessage_malformed_arguments_witness :
  forallb parses [message assistant [output_text "I will look."]] = true
  /\ JSON.parse "{x" = None
  /\ fst
       (fst
          (generateMessage (@nil unit) (fun text => text) (fun text => text)
             (fun _ (_ : option unit) =>
                created
                  {| output :=
                       [message assistant [output_text "I will look."];
                        function_call "call_1" "computer_screenshot" "{x"];
                     usage := None |})
             "prompt" [] None None None new_service []))
     = Raised (rethrown (caught_syntax (SyntaxError "{x"))).
Proof.
  split; [reflexivity|]. split; [reflexivity|].
  exact (f_equal (fun r => fst (fst r))
           (generateMessage_malformed_arguments (@nil unit)
              (fun text => text) (fun text => text)
              (fun _ (_ : option unit) =>
                 created
                   {| output :=
                        [message assistant [output_text "I will look."];
                         function_call "call_1" "computer_screenshot" "{x"];
                      usage := None |})
              "prompt" [] None None None _
              [message assistant [output_text "I will look."]] []
              "call_1" "computer_screenshot" "{x" new_service []
              eq_refl eq_refl eq_refl eq_refl)).
Defined.

(** X20. [generateMessage] throws the interrupt of the agent exactly
    when the call of the endpoint ended with an abort of the user: it
    then logs that the call was aborted; any other exception of the
    endpoint is thrown again as it is, after the error and its stack
    went to the logger.  Both write two lines on the console. *)
Theorem generateMessage_interrupt {Tool AbortSignal : Type}
  (openaiTools : list Tool) (syntax_message syntax_stack : string -> string)
  (create : ResponseCreateParams.t Tool -> option AbortSignal -> CreateResult)
  (systemPrompt : string) (messages : list Message)
  (model : option string) (useTools : option bool)
  (signal : option AbortSignal)
  (this : OpenAIService) (console : list (list ConsoleValue)) :
  (fst
     (fst
        (generateMessage openaiTools syntax_message syntax_stack create
           systemPrompt messages model useTools signal this console))
   = Raised BytebotAgentInterrupt
   <-> exists error,
       create (request openaiTools systemPrompt messages model useTools)
         signal
       = aborted error)
  /\ (forall error,
         create (request openaiTools systemPrompt messages model useTools)
           signal
         = aborted error ->
         generateMessage openaiTools syntax_message syntax_stack create
           systemPrompt messages model useTools signal this console
         = (Raised BytebotAgentInterrupt,
            logged this [(LOG, "OpenAI API call aborted")],
            (console
               ++ console_lines (error_name error) (caught_abort error))%list))
  /\ (forall error,
         create (request openaiTools systemPrompt messages model useTools)
           signal
         = failed error ->
         generateMessage openaiTools syntax_message syntax_stack create
           systemPrompt messages model useTools signal this console
         = (Raised (rethrown (caught_failure error)),
            logged this
              [(ERROR,
                "Error sending message to OpenAI: " ++ error_message error);
               (ERROR, error_stack error)],
            (console
               ++ console_lines (error_name error)
                    (caught_failure error))%list)).
Proof.
  unfold generateMessage. split; [|split].
  - destruct (create _ signal) as [response|error|error].
    + destruct (formatOpenAIResponse (output response) this)
        as [[blocks|e] this1]; simpl;
        (split; [discriminate | intros [error H]; discriminate]).
    + simpl. split; [eauto | reflexivity].
    + simpl. split; [discriminate | intros [error' H]; discriminate].
  - intros error ->. apply handler_abort.
  - intros error ->. apply handler_rethrows. intros e. discriminate.
Qed.

(** ** The place of the cursor *)

Lemma dimension_or_positive (dimension : option N) (fallback : Z) :
  (1 <= fallback -> 1 <= dimension_or dimension fallback)%Z.
Proof.
  intros H. unfold dimension_or. destruct dimension as [[|p]|]; lia.
Qed.

Lemma round_integer (z : Z) : Math_round (integer z) = integer z.
Proof.
  unfold Math_round, integer, Qround.Qfloor, QArith_base.Qplus,
    QArith_base.inject_Z.
  cbn [QArith_base.Qnum QArith_base.Qden]. do 2 f_equal.
  change (Z.pos (1 * 2)) with 2%Z.
  rewrite Z.mul_1_l, Z.add_comm, Z.div_add by lia. reflexivity.
Qed.

(** Rounding a number between zero and a bound gives an integer
    between zero and the bound. *)
Lemma round_between (q : QArith_base.Q) (bound : Z) :
  QArith_base.Qle_bool (QArith_base.inject_Z 0) q = true ->
  QArith_base.Qle_bool q (QArith_base.inject_Z bound) = true ->
  exists z, Math_round (Finite q) = integer z /\ (0 <= z <= bound)%Z.
Proof.
  destruct q as [n d].
  unfold QArith_base.Qle_bool, QArith_base.inject_Z.
  cbn [QArith_base.Qnum QArith_base.Qden]. intros H0 Hb.
  apply Z.leb_le in H0, Hb.
  exists ((n * 2 + 1 * Z.pos d) / Z.pos (d * 2))%Z. split; [reflexivity|].
  rewrite Pos2Z.inj_mul. split.
  - apply Z.div_pos; lia.
  - apply Z.lt_succ_r, Z.div_lt_upper_bound; nia.
Qed.

Lemma clamp_between (x : JSNumber) (bound : Z) :
  (0 <= bound)%Z ->
  x <> NaN ->
  exists z,
    Math_round (Math_max (integer 0) (Math_min x (integer bound)))
    = integer z
    /\ (0 <= z <= bound)%Z.
Proof.
  intros Hb Hx.
  assert (Hle : QArith_base.Qle_bool (QArith_base.inject_Z 0)
                  (QArith_base.inject_Z bound) = true).
  { unfold QArith_base.Qle_bool, QArith_base.inject_Z.
    cbn [QArith_base.Qnum QArith_base.Qden]. apply Z.leb_le. lia. }
  assert (Hrefl : forall z,
             QArith_base.Qle_bool (QArith_base.inject_Z z)
               (QArith_base.inject_Z z) = true).
  { intros z. unfold QArith_base.Qle_bool. apply Z.leb_le. lia. }
  destruct x as [| | |q]; [contradiction| | |].
  - exists bound. unfold integer, Math_min, Math_max. rewrite Hle.
    split; [apply round_integer | lia].
  - exists 0%Z. unfold integer, Math_min, Math_max.
    split; [apply round_integer | lia].
  - unfold integer, Math_min, Math_max.
    destruct (QArith_base.Qle_bool q (QArith_base.inject_Z bound)) eqn:E1.
    + destruct (QArith_base.Qle_bool (QArith_base.inject_Z 0) q) eqn:E2.
      * now apply round_between.
      * exists 0%Z. split; [apply round_integer | lia].
    + rewrite Hle. exists bound. split; [apply round_integer | lia].
Qed.

(** X21. For a cursor position that is a number, finite or infinite,
    the overlay is put at whole coordinates inside the screenshot: left
    is an integer from 0 to the width less one and top an integer from
    0 to the height less one, the width and the height being those of
    the metadata, or 1920 and 1080 where the metadata has none or has
    zero. *)
Theorem cursor_inside_screenshot (metadata_width metadata_height : option N)
  (cursorX cursorY : JSNumber) :
  cursorX <> NaN -> cursorY <> NaN ->
  exists left top,
    overlayPosition metadata_width metadata_height cursorX cursorY
    = (integer left, integer top)
    /\ (0 <= left <= dimension_or metadata_width 1920 - 1)%Z
    /\ (0 <= top <= dimension_or metadata_height 1080 - 1)%Z.
Proof.
  intros Hx Hy. unfold overlayPosition.
  pose proof (dimension_or_positive metadata_width 1920) as Hw.
  pose proof (dimension_or_positive metadata_height 1080) as Hh.
  destruct (clamp_between cursorX (dimension_or metadata_width 1920 - 1))
    as (left & El & Hl); [lia | exact Hx |].
  destruct (clamp_between cursorY (dimension_or metadata_height 1080 - 1))
    as (top & Et & Ht); [lia | exact Hy |].
  exists left, top. unfold integer in *. now rewrite El, Et.
Qed.

Lemma cursor_inside_screenshot_witness :
  Finite (QArith_base.Qmake 25001 10) <> NaN
  /\ NegativeInfinity <> NaN
  /\ exists left top,
      overlayPosition (Some 1280%N) None
        (Finite (QArith_base.Qmake 25001 10)) NegativeInfinity
      = (integer left, integer top)
      /\ (0 <= left <= dimension_or (Some 1280%N) 1920 - 1)%Z
      /\ (0 <= top <= dimension_or None 1080 - 1)%Z.
Proof.
  split; [discriminate|]. split; [discriminate|].
  apply cursor_inside_screenshot; discriminate.
Defined.

(** X22. A cursor at whole coordinates inside the screenshot is put
    where it is; a coordinate that is not a number is not brought
    inside: it goes to the overlay as it is. *)
Theorem cursor_kept_or_not_a_number
  (metadata_width metadata_height : option N) :
  (forall x y : Z,
      (0 <= x <= dimension_or metadata_width 1920 - 1)%Z ->
      (0 <= y <= dimension_or metadata_height 1080 - 1)%Z ->
      overlayPosition metadata_width metadata_height (integer x) (integer y)
      = (integer x, integer y))
  /\ (forall cursorY,
         fst (overlayPosition metadata_width metadata_height NaN cursorY) = NaN)
  /\ (forall cursorX,
         snd (overlayPosition metadata_width metadata_height cursorX NaN) = NaN).
Proof.
  split; [|split].
  - intros x y Hx Hy. unfold overlayPosition, integer, Math_min, Math_max.
    assert (Hle : forall a b : Z,
               (a <= b)%Z ->
               QArith_base.Qle_bool (QArith_base.inject_Z a)
                 (QArith_base.inject_Z b) = true).
    { intros a b H. unfold QArith_base.Qle_bool, QArith_base.inject_Z.
      cbn [QArith_base.Qnum QArith_base.Qden]. apply Z.leb_le. lia. }
    rewrite !Hle by lia.
    pose proof (round_integer x) as Rx. pose proof (round_integer y) as Ry.
    unfold integer in Rx, Ry. now rewrite Rx, Ry.
  - reflexivity.
  - intros cursorX. unfold overlayPosition. cbn [snd].
    destruct cursorX; reflexivity.
Qed.

(** ** Determinism and effects of the two translations *)








(** A warning that is not reached: the function call before the
    unsupported item does not parse, so nothing is logged. *)
Example example_warning_not_reached :
  formatOpenAIResponse
    [function_call "call_1" "computer_screenshot" "{x";
     other_item [("type", JString "mcp_call")]] new_service
  = (Throw (SyntaxError "{x"), new_service).
Proof. reflexivity. Qed.
